(** * Client-side proctoring monitor: exam page and camera feed

    A shallow embedding of the integrity monitor of the exam application:

    - [Exam]: the exam page component ([ExamContent]): alert bus
      ([addAlert]), termination ([terminateExam]), the browser event
      listeners, the countdown and the wiring of the camera callbacks;
    - [MultiTab]: the cross-tab marker in [localStorage] and the presence
      channel of the multi-instance effect;
    - [CameraFeed]: one analysis tick ([captureAndAnalyze]) with its
      consecutive-frame counters and the face identity references.

    React state is modelled the way the component uses it: a handler is a
    closure created by one render, so it reads the state values of that
    render (a [Render] snapshot), while the updates it queues are applied to
    the component state in the order they are queued. *)

From Stdlib Require Import Ascii QArith Qround.
From stdpp Require Import base strings list gmap pretty.

Open Scope string_scope.
Open Scope list_scope.

(** ** JavaScript helpers *)

(** [s || d] on an optional value. *)
Definition or_default {A} (o : option A) (d : A) : A :=
  match o with Some x => x | None => d end.

(** Truthiness of a string: only the empty string is falsy. *)
Definition truthy (s : string) : bool :=
  match s with EmptyString => false | String _ _ => true end.

(** Truthiness of a string-or-null reference. *)
Definition truthy_ref (o : option string) : bool :=
  match o with Some s => truthy s | None => false end.

(** [arr.includes(x)] on an array of strings. *)
Definition includes (x : string) (l : list string) : bool :=
  bool_decide (x ∈ l).

(** [s.includes(sub)] on strings. *)
Definition str_includes (sub s : string) : bool :=
  match String.index 0 sub s with Some _ => true | None => false end.

(** [arr.some(p)] *)
Definition some {A} (p : A -> bool) (l : list A) : bool := existsb p l.

Definition ascii_upper (c : ascii) : ascii :=
  let n := nat_of_ascii c in
  if andb (97 <=? n)%nat (n <=? 122)%nat then ascii_of_nat (n - 32) else c.

Definition ascii_lower (c : ascii) : ascii :=
  let n := nat_of_ascii c in
  if andb (65 <=? n)%nat (n <=? 90)%nat then ascii_of_nat (n + 32) else c.

(** [toUpperCase] / [toLowerCase] on the ASCII range, which is where the
    key names tested by the keyboard listener live. *)
Fixpoint toUpperCase (s : string) : string :=
  match s with
  | EmptyString => EmptyString
  | String c r => String (ascii_upper c) (toUpperCase r)
  end.

Fixpoint toLowerCase (s : string) : string :=
  match s with
  | EmptyString => EmptyString
  | String c r => String (ascii_lower c) (toLowerCase r)
  end.

Definition Qltb (x y : Q) : bool := negb (Qle_bool y x).
Definition Qgeb (x y : Q) : bool := Qle_bool y x.
Definition Qgtb (x y : Q) : bool := negb (Qle_bool x y).

(** ** The exam page *)

Module Exam.

Inductive Severity := info | warning | error.

#[global] Instance Severity_eq_dec : EqDecision Severity.
Proof. solve_decision. Defined.

(** An alert object; [alert_id] is absent until [addAlert] assigns one.
    The display-only [timestamp: new Date()] is left out. *)
Record Alert := mkAlert {
  alert_type : string;
  alert_message : string;
  alert_severity : option Severity;
  alert_id : option string
}.

(** Callbacks handed to [setTimeout] and not yet run. *)
Inductive Task :=
| ExpireAlert (id : string)   (* setAlerts(prev => prev.filter(a => a.id !== id)) *)
| DispatchBlur.               (* window.dispatchEvent(new Event('blur')) *)

(** The state cells of [ExamContent] the monitor touches, together with the
    observable effects of the page: blocking [alert(...)] dialogs, router
    navigations and pending timeouts. *)
Record State := mkState {
  examTerminated : bool;
  alerts : list Alert;
  tabSwitches : nat;
  timeLeft : Z;
  cameraStatus : string;
  micStatus : string;
  dialogs : list string;
  navigations : list string;
  timers : list (nat * Task);
  nextId : nat
}.

(** What a closure of one render sees: the values [examTerminated] and
    [tabSwitches] had when that render ran. *)
Record Render := mkRender {
  r_examTerminated : bool;
  r_tabSwitches : nat
}.

Definition snapshot (s : State) : Render :=
  mkRender (examTerminated s) (tabSwitches s).

(** The first render: [useState(false)], [useState(0)]. *)
Definition firstRender : Render := mkRender false 0.

Definition initialState : State :=
  mkState false [] 0 3600 "connected" "connected" [] [] [] 0.

Definition setExamTerminated (b : bool) (s : State) : State :=
  mkState b (alerts s) (tabSwitches s) (timeLeft s) (cameraStatus s)
    (micStatus s) (dialogs s) (navigations s) (timers s) (nextId s).

Definition setAlerts (f : list Alert -> list Alert) (s : State) : State :=
  mkState (examTerminated s) (f (alerts s)) (tabSwitches s) (timeLeft s)
    (cameraStatus s) (micStatus s) (dialogs s) (navigations s) (timers s)
    (nextId s).

Definition setTabSwitches (n : nat) (s : State) : State :=
  mkState (examTerminated s) (alerts s) n (timeLeft s) (cameraStatus s)
    (micStatus s) (dialogs s) (navigations s) (timers s) (nextId s).

Definition setTimeLeft (z : Z) (s : State) : State :=
  mkState (examTerminated s) (alerts s) (tabSwitches s) z (cameraStatus s)
    (micStatus s) (dialogs s) (navigations s) (timers s) (nextId s).

Definition setCameraStatus (c : string) (s : State) : State :=
  mkState (examTerminated s) (alerts s) (tabSwitches s) (timeLeft s) c
    (micStatus s) (dialogs s) (navigations s) (timers s) (nextId s).

Definition setMicStatus (m : string) (s : State) : State :=
  mkState (examTerminated s) (alerts s) (tabSwitches s) (timeLeft s)
    (cameraStatus s) m (dialogs s) (navigations s) (timers s) (nextId s).

(** [alert(msg)] *)
Definition window_alert (msg : string) (s : State) : State :=
  mkState (examTerminated s) (alerts s) (tabSwitches s) (timeLeft s)
    (cameraStatus s) (micStatus s) (dialogs s ++ [msg]) (navigations s)
    (timers s) (nextId s).

(** [router.push(path)] *)
Definition router_push (path : string) (s : State) : State :=
  mkState (examTerminated s) (alerts s) (tabSwitches s) (timeLeft s)
    (cameraStatus s) (micStatus s) (dialogs s) (navigations s ++ [path])
    (timers s) (nextId s).

(** [setTimeout(cb, ms)] *)
Definition setTimeout (cb : Task) (ms : nat) (s : State) : State :=
  mkState (examTerminated s) (alerts s) (tabSwitches s) (timeLeft s)
    (cameraStatus s) (micStatus s) (dialogs s) (navigations s)
    (timers s ++ [(ms, cb)]) (nextId s).

Definition setTimers (ts : list (nat * Task)) (s : State) : State :=
  mkState (examTerminated s) (alerts s) (tabSwitches s) (timeLeft s)
    (cameraStatus s) (micStatus s) (dialogs s) (navigations s) ts (nextId s).

Definition bumpId (s : State) : State :=
  mkState (examTerminated s) (alerts s) (tabSwitches s) (timeLeft s)
    (cameraStatus s) (micStatus s) (dialogs s) (navigations s) (timers s)
    (S (nextId s)).

Definition immediateStopTypes : list string :=
  ["multiple_faces"; "phone_detected"; "recording_detected"].

Section WithIds.

(** The identifiers [`${Date.now()}-${Math.random().toString(36).slice(2)}`]
    drawn by [addAlert]: the n-th draw of the page. *)
Variable genId : nat -> string.

(** [addAlert].  The severity default is written to [alertWithId] after the
    updater that appends it was queued; the updater holds the same object,
    so the appended alert carries the defaulted severity. *)
Definition addAlert (a : Alert) (s : State) : State :=
  let id := genId (nextId s) in
  let stop := includes (alert_type a) immediateStopTypes in
  let alertWithId :=
    mkAlert (alert_type a) (alert_message a)
      (if stop then Some (or_default (alert_severity a) error)
       else alert_severity a)
      (Some id) in
  let s := bumpId s in
  let s := setAlerts (fun prev => prev ++ [alertWithId]) s in
  let s := setTimeout (ExpireAlert id) 5000 s in
  if stop then setTimeout DispatchBlur 0 s else s.

(** [terminateExam], as created by the render [rd]. *)
Definition terminateExam (rd : Render) (reason : string) (s : State) : State :=
  if r_examTerminated rd then s
  else
    let s := setExamTerminated true s in
    let s := addAlert
      (mkAlert "exam_terminated" ("Exam terminated: " +:+ reason)
         (Some error) None) s in
    let s := window_alert ("Exam terminated: " +:+ reason) s in
    router_push "/" s.

(** *** Listeners of the proctoring effect

    The calls to [e.preventDefault()] act on the browser event only and are
    left out. *)

Definition handleVisibilityChange (rd : Render) (hidden : bool) (s : State)
  : State :=
  if hidden then
    let newSwitchCount := (r_tabSwitches rd + 1)%nat in
    let s := setTabSwitches newSwitchCount s in
    let s := addAlert
      (mkAlert "tab_switch"
         ("Tab switch detected! (" +:+ pretty newSwitchCount +:+ " times)")
         (Some warning) None) s in
    terminateExam rd "Left the exam tab (visibility change)" s
  else s.

Definition handleFocus (s : State) : State :=
  addAlert (mkAlert "focus" "Exam tab focused" (Some info) None) s.

Definition handleBlur (rd : Render) (s : State) : State :=
  let s := addAlert
    (mkAlert "blur" "Exam tab lost focus - potential cheating attempt!"
       (Some error) None) s in
  terminateExam rd "Window lost focus" s.

(** [fullscreenElement] tells whether [document.fullscreenElement] is set. *)
Definition handleFullscreenChange (fullscreenElement : bool) (s : State)
  : State :=
  if negb fullscreenElement then
    addAlert
      (mkAlert "fullscreen_exit"
         "Fullscreen mode exited - potential cheating attempt!"
         (Some warning) None) s
  else s.

Record KeyEvent := mkKey { ctrlKey : bool; metaKey : bool; key : string }.

#[global] Instance KeyEvent_eq_dec : EqDecision KeyEvent.
Proof. solve_decision. Defined.

Definition handleKeyDown (rd : Render) (e : KeyEvent) (s : State) : State :=
  let s :=
    if (ctrlKey e || metaKey e)
       && (String.eqb (key e) "t" || String.eqb (key e) "n"
           || String.eqb (key e) "w")
    then
      let s := addAlert
        (mkAlert "shortcut"
           ("Potentially suspicious shortcut detected: "
            +:+ (if ctrlKey e then "Ctrl" else "Cmd") +:+ "+"
            +:+ toUpperCase (key e))
           (Some warning) None) s in
      terminateExam rd "Prohibited shortcut used" s
    else s in
  let s :=
    if String.eqb (key e) "F12" then
      let s := addAlert
        (mkAlert "dev_tools" "Developer tools access attempt detected!"
           (Some error) None) s in
      terminateExam rd "Developer tools opened" s
    else s in
  if (ctrlKey e || metaKey e)
     && (String.eqb (toLowerCase (key e)) "c"
         || String.eqb (toLowerCase (key e)) "v"
         || String.eqb (toLowerCase (key e)) "x")
  then
    let s := addAlert
      (mkAlert "clipboard_block"
         "Copy/Cut/Paste is not allowed during the exam."
         (Some warning) None) s in
    terminateExam rd "Copy/Cut/Paste attempted" s
  else s.

Definition handleContextMenu (rd : Render) (s : State) : State :=
  let s := addAlert
    (mkAlert "right_click"
       "Right-click disabled - context menu access attempted"
       (Some warning) None) s in
  terminateExam rd "Right-click/context menu attempt" s.

Definition handleCopy (rd : Render) (s : State) : State :=
  let s := addAlert
    (mkAlert "copy_block" "Copy is not allowed during the exam."
       (Some warning) None) s in
  terminateExam rd "Copy attempted" s.

Definition handleCut (rd : Render) (s : State) : State :=
  let s := addAlert
    (mkAlert "cut_block" "Cut is not allowed during the exam."
       (Some warning) None) s in
  terminateExam rd "Cut attempted" s.

Definition handlePaste (rd : Render) (s : State) : State :=
  let s := addAlert
    (mkAlert "paste_block" "Paste is not allowed during the exam."
       (Some warning) None) s in
  terminateExam rd "Paste attempted" s.

Definition handleBeforeUnload (rd : Render) (s : State) : State :=
  terminateExam rd "Tab/window closed" s.

(** *** Countdown: the updater passed to [setTimeLeft] every second *)
Definition countdownTick (s : State) : State :=
  if (timeLeft s <=? 1)%Z then
    setTimeLeft 0 (window_alert "Time's up! Your exam has been submitted." s)
  else setTimeLeft (timeLeft s - 1) s.

(** *** Callbacks given to the camera feed *)

Definition onStatusChange (camera mic : string) (s : State) : State :=
  let s := setCameraStatus camera s in
  let s := setMicStatus mic s in
  let s :=
    if String.eqb camera "disconnected" then
      addAlert
        (mkAlert "camera_disconnected"
           "Camera disconnected! Please reconnect immediately."
           (Some error) None) s
    else s in
  if String.eqb mic "disconnected" then
    addAlert
      (mkAlert "mic_disconnected"
         "Microphone disconnected! Please reconnect immediately."
         (Some error) None) s
  else s.

Definition onViolation (rd : Render) (v_type v_message : string) (s : State)
  : State :=
  let s := addAlert (mkAlert v_type v_message (Some error) None) s in
  terminateExam rd v_message s.

(** *** The mounted component

    The listeners of the proctoring effect are re-registered whenever
    [tabSwitches] or [examTerminated] changed (its dependency list), so after
    a re-render they are the closures of the latest render.  The camera feed
    starts its analysis loop in an effect with an empty dependency list: the
    loop keeps the [onViolation] it was given by the first render for as long
    as the page is mounted. *)
Record Page := mkPage {
  state : State;
  listeners : Render
}.

Definition cameraCallbacks : Render := firstRender.

Definition mount : Page := mkPage initialState firstRender.

Definition rerender (p : Page) : Page :=
  mkPage (state p) (snapshot (state p)).

(** The body of a timeout callback.  The synthetic blur event reaches the
    blur listener registered at that moment. *)
Definition runTask (t : Task) (p : Page) : Page :=
  match t with
  | ExpireAlert id =>
      mkPage
        (setAlerts
           (filter (fun a => alert_id a ≠ Some id)) (state p))
        (listeners p)
  | DispatchBlur => mkPage (handleBlur (listeners p) (state p)) (listeners p)
  end.

(** The [i]-th pending timeout fires: it leaves the queue and runs.  Any
    pending timeout may be chosen, which covers every firing order. *)
Definition fireTimer (i : nat) (p : Page) : Page :=
  match timers (state p) !! i with
  | None => p
  | Some (_, t) =>
      runTask t
        (mkPage (setTimers (delete i (timers (state p))) (state p))
           (listeners p))
  end.

(** Everything that can happen to the page, one message at a time. *)
Inductive Event :=
| VisibilityChange (hidden : bool)
| Focus
| Blur
| FullscreenChange (fullscreenElement : bool)
| KeyDown (e : KeyEvent)
| ContextMenu
| Copy
| Cut
| Paste
| BeforeUnload
| Countdown
| CameraStatus (camera mic : string)
| CameraViolation (v_type v_message : string)
| Timeout (i : nat)
| Rerender.

#[global] Instance Event_eq_dec : EqDecision Event.
Proof. solve_decision. Defined.

Definition step (ev : Event) (p : Page) : Page :=
  let on (f : State -> State) := mkPage (f (state p)) (listeners p) in
  match ev with
  | VisibilityChange h => on (handleVisibilityChange (listeners p) h)
  | Focus => on handleFocus
  | Blur => on (handleBlur (listeners p))
  | FullscreenChange f => on (handleFullscreenChange f)
  | KeyDown e => on (handleKeyDown (listeners p) e)
  | ContextMenu => on (handleContextMenu (listeners p))
  | Copy => on (handleCopy (listeners p))
  | Cut => on (handleCut (listeners p))
  | Paste => on (handlePaste (listeners p))
  | BeforeUnload => on (handleBeforeUnload (listeners p))
  | Countdown => on countdownTick
  | CameraStatus c m => on (onStatusChange c m)
  | CameraViolation t m => on (onViolation cameraCallbacks t m)
  | Timeout i => fireTimer i p
  | Rerender => rerender p
  end.

Definition run (evs : list Event) (p : Page) : Page :=
  foldl (fun p ev => step ev p) p evs.

(** A call of [addAlert] on the mounted page. *)
Definition submit (a : Alert) (p : Page) : Page :=
  mkPage (addAlert a (state p)) (listeners p).

End WithIds.

(** *** Invariants of the mounted page *)

(** A closure never sees [examTerminated] set before the state has it. *)
Definition closures_behind (p : Page) : Prop :=
  r_examTerminated (listeners p) = true -> examTerminated (state p) = true.

(** Either the session is over, or a synthetic blur is still queued. *)
Definition stop_pending (p : Page) : Prop :=
  examTerminated (state p) = true
  \/ exists i, timers (state p) !! i = Some (0, DispatchBlur).

(** *** Further parts of the page *)

(** The three tests of [handleKeyDown], as one condition on the key. *)
Definition prohibitedKey (e : KeyEvent) : bool :=
  ((ctrlKey e || metaKey e)
   && (String.eqb (key e) "t" || String.eqb (key e) "n"
       || String.eqb (key e) "w"))
  || String.eqb (key e) "F12"
  || ((ctrlKey e || metaKey e)
      && (String.eqb (toLowerCase (key e)) "c"
          || String.eqb (toLowerCase (key e)) "v"
          || String.eqb (toLowerCase (key e)) "x")).

(** Events whose listener calls neither [terminateExam] nor [addAlert] with
    an immediate-stop type. *)
Definition quietEvent (ev : Event) : bool :=
  match ev with
  | VisibilityChange hidden => negb hidden
  | KeyDown e => negb (prohibitedKey e)
  | Focus | FullscreenChange _ | Countdown | CameraStatus _ _
  | Timeout _ | Rerender => true
  | _ => false
  end.

(** Events delivered to a listener of the page or to a timeout, as opposed
    to the callback the camera feed holds. *)
Definition throughListeners (ev : Event) : bool :=
  match ev with CameraViolation _ _ => false | _ => true end.

(** No synthetic blur is queued. *)
Definition no_blur_queued (s : State) : Prop :=
  Forall (fun tm => tm.2 <> DispatchBlur) (timers s).

(** [s.padStart(target, pad)] for a one-character [pad]. *)
Definition padStart (target : nat) (pad : ascii) (s : string) : string :=
  String.concat "" (replicate (target - String.length s) (String pad ""))
  +:+ s.

(** [formatTime]: the argument is the integral number of seconds left.
    [Math.floor(a / b)] is floor division and [%] the truncated remainder. *)
Definition formatTime (seconds : Z) : string :=
  let hours := (seconds / 3600)%Z in
  let minutes := (Z.rem seconds 3600 / 60)%Z in
  let secs := Z.rem seconds 60 in
  padStart 2 "0" (pretty hours) +:+ ":" +:+ padStart 2 "0" (pretty minutes)
  +:+ ":" +:+ padStart 2 "0" (pretty secs).

(** *** Notions for the invariants of the page *)

(** The alert carries an identifier, and the timeout that removes it from
    the display is pending. *)
Definition expires (s : State) (a : Alert) : Prop :=
  exists id d, alert_id a = Some id /\ (d, ExpireAlert id) ∈ timers s.

(** A dialog opened by [terminateExam]. *)
Definition terminationDialog (d : string) : bool :=
  String.prefix "Exam terminated: " d.

End Exam.

(** ** Multi-instance detection across tabs *)

Module MultiTab.

Import Exam.

Definition KEY : string := "exam_active_instance_id".

(** A [storage] event as the listener reads it. *)
Record StorageEvent := mkStorageEvent {
  se_key : string;
  se_newValue : option string
}.

(** A message on the ['exam-proctoring'] channel. *)
Record Message := mkMessage {
  m_type : string;
  m_id : string
}.

(** One browser tab showing the exam page, with what the multi-instance
    effect holds: the render whose effect run is in force, the [storage]
    listener, the open channel and the pending presence timeout. *)
Record Tab := mkTab {
  instanceId : string;
  page : Page;
  effectRender : Render;
  storageListener : bool;
  channelOpen : bool;
  presencePending : bool
}.

(** The browser: the origin's [localStorage] shared by the open tabs. *)
Record World := mkWorld {
  localStorage : gmap string string;
  tabs : list Tab
}.

Definition emptyWorld : World := mkWorld ∅ [].

Definition withPage (f : State -> State) (t : Tab) : Tab :=
  mkTab (instanceId t) (mkPage (f (state (page t))) (listeners (page t)))
    (effectRender t) (storageListener t) (channelOpen t) (presencePending t).

(** Apply [f] to every tab but the [i]-th. *)
Definition others (i : nat) (f : Tab -> Tab) (ts : list Tab) : list Tab :=
  imap (fun j t => if decide (j = i) then t else f t) ts.

Section WithIds.

Variable genId : nat -> string.

(** Whether [new BroadcastChannel(...)] succeeds in this browser. *)
Variable broadcastChannel : bool.

(** [onStorage], registered by the effect run of [effectRender t]. *)
Definition onStorage (e : StorageEvent) (t : Tab) : Tab :=
  if storageListener t then
    if String.eqb (se_key e) KEY
       && truthy_ref (se_newValue e)
       && negb (bool_decide (se_newValue e = Some (instanceId t)))
    then withPage
           (terminateExam genId (effectRender t) "Multiple exam tabs detected") t
    else t
  else t.

(** [bc.onmessage] *)
Definition onMessage (m : Message) (t : Tab) : Tab :=
  if channelOpen t then
    if String.eqb (m_type m) "presence"
       && truthy (m_id m)
       && negb (String.eqb (m_id m) (instanceId t))
    then withPage
           (terminateExam genId (effectRender t)
              "Multiple exam tabs detected (broadcast)") t
    else t
  else t.

(** The body of the effect, run by render [rd] in tab [t].  It returns the
    tab, the storage and the [storage] event other tabs receive when the
    write changed the marker. *)
Definition multiTabEffect (rd : Render) (t : Tab) (ls : gmap string string)
  : Tab * gmap string string * option StorageEvent :=
  let idle :=
    mkTab (instanceId t) (page t) rd false false false in
  if r_examTerminated rd then (idle, ls, None)
  else
    let myId := instanceId t in
    let existing := ls !! KEY in
    if truthy_ref existing && negb (bool_decide (existing = Some myId)) then
      (withPage
         (terminateExam genId rd "Multiple exam tabs detected (storage lock)")
         idle,
       ls, None)
    else
      (mkTab myId (page t) rd true broadcastChannel broadcastChannel,
       <[KEY := myId]> ls,
       if bool_decide (existing = Some myId) then None
       else Some (mkStorageEvent KEY (Some myId))).

(** The cleanup returned by an effect run that reached its end. *)
Definition multiTabCleanup (t : Tab) (ls : gmap string string)
  : Tab * gmap string string * option StorageEvent :=
  if storageListener t then
    let t' :=
      mkTab (instanceId t) (page t) (effectRender t) false false false in
    if bool_decide (ls !! KEY = Some (instanceId t)) then
      (t', delete KEY ls, Some (mkStorageEvent KEY None))
    else (t', ls, None)
  else (t, ls, None).

Definition deliverStorage (i : nat) (e : option StorageEvent)
  (ts : list Tab) : list Tab :=
  match e with
  | Some e => others i (onStorage e) ts
  | None => ts
  end.

(** A new tab opens the exam: first render, then the effect. *)
Definition openTab (id : string) (w : World) : World :=
  let i := length (tabs w) in
  let t0 := mkTab id mount firstRender false false false in
  let '(t1, ls, e) := multiTabEffect firstRender t0 (localStorage w) in
  mkWorld ls (deliverStorage i e (tabs w ++ [t1])).

(** Tab [i] re-renders.  The effect depends on [examTerminated]: when it
    changed, the previous run is cleaned up and the effect runs again. *)
Definition rerenderTab (i : nat) (w : World) : World :=
  match tabs w !! i with
  | None => w
  | Some t =>
      let p := rerender (page t) in
      let t := mkTab (instanceId t) p (effectRender t) (storageListener t)
                 (channelOpen t) (presencePending t) in
      if bool_decide (r_examTerminated (listeners p)
                      = r_examTerminated (effectRender t))
      then mkWorld (localStorage w) (<[i := t]> (tabs w))
      else
        let '(t1, ls1, e1) := multiTabCleanup t (localStorage w) in
        let ts1 := deliverStorage i e1 (<[i := t1]> (tabs w)) in
        let '(t2, ls2, e2) := multiTabEffect (listeners p) t1 ls1 in
        mkWorld ls2 (deliverStorage i e2 (<[i := t2]> ts1))
  end.

(** The presence timeout of tab [i] fires. *)
Definition firePresence (i : nat) (w : World) : World :=
  match tabs w !! i with
  | None => w
  | Some t =>
      if presencePending t then
        let t' := mkTab (instanceId t) (page t) (effectRender t)
                    (storageListener t) (channelOpen t) false in
        let ts := <[i := t']> (tabs w) in
        mkWorld (localStorage w)
          (if channelOpen t
           then others i (onMessage (mkMessage "presence" (instanceId t))) ts
           else ts)
      else w
  end.

Inductive WorldEvent :=
| OpenTab (id : string)
| RerenderTab (i : nat)
| PresenceTimeout (i : nat).

Definition wstep (ev : WorldEvent) (w : World) : World :=
  match ev with
  | OpenTab id => openTab id w
  | RerenderTab i => rerenderTab i w
  | PresenceTimeout i => firePresence i w
  end.

Definition wrun (evs : list WorldEvent) (w : World) : World :=
  foldl (fun w ev => wstep ev w) w evs.

Definition terminated (t : Tab) : bool := examTerminated (state (page t)).

(** The page state of a tab that terminated itself on mount. *)
Definition lockedOut : State :=
  terminateExam genId firstRender
    "Multiple exam tabs detected (storage lock)" initialState.

(** The first tab holds the marker and is active; the second one terminated
    on mount and holds nothing. *)
Definition holder_and_loser (idA idB : string) (w : World) : Prop :=
  exists a b,
    tabs w = [a; b]
    /\ localStorage w !! KEY = Some idA
    /\ instanceId a = idA
    /\ state (page a) = initialState
    /\ r_examTerminated (effectRender a) = false
    /\ instanceId b = idB
    /\ state (page b) = lockedOut
    /\ storageListener b = false
    /\ channelOpen b = false
    /\ presencePending b = false.

End WithIds.

(** World events that do not open another tab. *)
Definition keepsTabs (ev : WorldEvent) : bool :=
  match ev with OpenTab _ => false | _ => true end.

End MultiTab.

(** ** The camera feed: one analysis tick *)

Module CameraFeed.

(** What [onViolation] receives; the auxiliary [details] payload is left
    out. *)
Record Violation := mkViolation {
  v_type : string;
  v_message : string
}.

#[global] Instance Violation_eq_dec : EqDecision Violation.
Proof. solve_decision. Defined.

(** The references of the component that survive from tick to tick, and the
    [analysisInFlight] flag of the effect. *)
Record Refs := mkRefs {
  analysisInFlight : bool;
  consecutiveGazeAwayRef : nat;
  startFramesRef : nat;
  consecutiveDarkFramesRef : nat;
  consecutiveNoFaceRef : nat;
  consecutiveBlurFramesRef : nat;
  initialFaceIdRef : option string;
  lastFaceIdRef : option string;
  consecutiveOcclusionRef : nat
}.

Definition initialRefs : Refs := mkRefs false 0 0 0 0 0 None None 0.

Definition startEnforcementSeconds : Q := 6.
Definition analysisIntervalMs : Q := 1000.

(** [count * (analysisIntervalMs / 1000)] *)
Definition seconds (count : nat) : Q :=
  inject_Z (Z.of_nat count) * (analysisIntervalMs / 1000).

Definition setInFlight (b : bool) (r : Refs) : Refs :=
  mkRefs b (consecutiveGazeAwayRef r) (startFramesRef r)
    (consecutiveDarkFramesRef r) (consecutiveNoFaceRef r)
    (consecutiveBlurFramesRef r) (initialFaceIdRef r) (lastFaceIdRef r)
    (consecutiveOcclusionRef r).

Definition setGazeAway (n : nat) (r : Refs) : Refs :=
  mkRefs (analysisInFlight r) n (startFramesRef r)
    (consecutiveDarkFramesRef r) (consecutiveNoFaceRef r)
    (consecutiveBlurFramesRef r) (initialFaceIdRef r) (lastFaceIdRef r)
    (consecutiveOcclusionRef r).

Definition setStartFrames (n : nat) (r : Refs) : Refs :=
  mkRefs (analysisInFlight r) (consecutiveGazeAwayRef r) n
    (consecutiveDarkFramesRef r) (consecutiveNoFaceRef r)
    (consecutiveBlurFramesRef r) (initialFaceIdRef r) (lastFaceIdRef r)
    (consecutiveOcclusionRef r).

Definition setDarkFrames (n : nat) (r : Refs) : Refs :=
  mkRefs (analysisInFlight r) (consecutiveGazeAwayRef r) (startFramesRef r)
    n (consecutiveNoFaceRef r) (consecutiveBlurFramesRef r)
    (initialFaceIdRef r) (lastFaceIdRef r) (consecutiveOcclusionRef r).

Definition setNoFace (n : nat) (r : Refs) : Refs :=
  mkRefs (analysisInFlight r) (consecutiveGazeAwayRef r) (startFramesRef r)
    (consecutiveDarkFramesRef r) n (consecutiveBlurFramesRef r)
    (initialFaceIdRef r) (lastFaceIdRef r) (consecutiveOcclusionRef r).

Definition setBlurFrames (n : nat) (r : Refs) : Refs :=
  mkRefs (analysisInFlight r) (consecutiveGazeAwayRef r) (startFramesRef r)
    (consecutiveDarkFramesRef r) (consecutiveNoFaceRef r) n
    (initialFaceIdRef r) (lastFaceIdRef r) (consecutiveOcclusionRef r).

Definition setInitialFaceId (o : option string) (r : Refs) : Refs :=
  mkRefs (analysisInFlight r) (consecutiveGazeAwayRef r) (startFramesRef r)
    (consecutiveDarkFramesRef r) (consecutiveNoFaceRef r)
    (consecutiveBlurFramesRef r) o (lastFaceIdRef r)
    (consecutiveOcclusionRef r).

Definition setLastFaceId (o : option string) (r : Refs) : Refs :=
  mkRefs (analysisInFlight r) (consecutiveGazeAwayRef r) (startFramesRef r)
    (consecutiveDarkFramesRef r) (consecutiveNoFaceRef r)
    (consecutiveBlurFramesRef r) (initialFaceIdRef r) o
    (consecutiveOcclusionRef r).

Definition setOcclusion (n : nat) (r : Refs) : Refs :=
  mkRefs (analysisInFlight r) (consecutiveGazeAwayRef r) (startFramesRef r)
    (consecutiveDarkFramesRef r) (consecutiveNoFaceRef r)
    (consecutiveBlurFramesRef r) (initialFaceIdRef r) (lastFaceIdRef r) n.

(** *** What one tick observes

    The pixel loops compute floating-point statistics of the frame; a tick
    takes their results as rational observations.  The sustained seconds
    are frame counts times [1000 / 1000] and the thresholds 2, 5, 6 and 1.5,
    all exact in floating point, so comparing them as rationals is
    comparing what the code compares. *)

(** Luminance statistics of the whole frame. *)
Record FrameStats := mkFrameStats {
  mean : Q;
  stddev : Q;
  darkRatio : Q
}.

(** The response of [apiClient.analyzeWithAI]: labels, and the identity
    fields of [details]. *)
Record Result := mkResult {
  labels : option (list string);
  face_id : option string;
  face_signature : option string
}.

Inductive Analysis :=
| Rejects                        (* the import or the request throws *)
| Resolves (result : option Result).

(** The outcome of [faceDetector.detect]. *)
Inductive Detection :=
| DetectThrows
| NoFaces
| Face (x y width height : Q) (lum : option (Q * Q)).
    (* bounding box of the first face; mean luminance of the eye band and
       of the lower face, absent when reading the pixels throws *)

Record Tick := mkTick {
  t_video : bool;                 (* videoRef.current and the 2d context *)
  t_videoWidth : Z;
  t_videoHeight : Z;
  t_stats : option FrameStats;    (* absent when getImageData throws *)
  t_analysis : Analysis;
  t_detection : Detection;
  t_bands : option (Q * Q);       (* top / lower band means of the frame *)
  t_varLap : option Q             (* Laplacian variance, when computed *)
}.

(** *** Early-exit state monad of a tick *)

Inductive Outcome (A : Type) :=
| Return (v : option Violation)   (* the tick is over *)
| Next (a : A).
Arguments Return {A} v.
Arguments Next {A} a.

Definition M (A : Type) : Type := Refs -> Outcome A * Refs.

Definition ret {A} (a : A) : M A := fun r => (Next a, r).

Definition bind {A B} (m : M A) (k : A -> M B) : M B :=
  fun r =>
    match m r with
    | (Return v, r') => (Return v, r')
    | (Next a, r') => k a r'
    end.

Definition modify (f : Refs -> Refs) : M unit := fun r => (Next tt, f r).
Definition get : M Refs := fun r => (Next r, r).

(** [onViolation?.({...}); return;] *)
Definition emit {A} (ty msg : string) : M A :=
  fun r => (Return (Some (mkViolation ty msg)), r).

(** A bare [return], or an exception reaching the outer [catch]. *)
Definition stop {A} : M A := fun r => (Return None, r).

Notation "x <- m ;; k" := (bind m (fun x => k))
  (at level 100, m at next level, right associativity).
Notation "m ;;; k" := (bind m (fun _ => k))
  (at level 100, right associativity).

Definition when (b : bool) (m : M unit) : M unit := if b then m else ret tt.

(** *** The checks, in source order *)

Definition isDark (f : FrameStats) : bool :=
  (Qltb (mean f) 20 && Qltb (stddev f) 12) || Qgtb (darkRatio f) 0.85.

Definition darkCheck (st : option FrameStats) : M unit :=
  match st with
  | None => ret tt
  | Some f =>
      modify (fun r =>
        if isDark f then setDarkFrames (consecutiveDarkFramesRef r + 1) r
        else setDarkFrames 0 r) ;;;
      r <- get ;;
      let darkSeconds := seconds (consecutiveDarkFramesRef r) in
      when (Qgeb darkSeconds 2)
        (emit "camera_covered" "Camera appears covered or too dark")
  end.

(** [result?.labels || []] and [result?.details || {}] *)
Definition labelsOf (result : option Result) : list string :=
  match result with Some res => or_default (labels res) [] | None => [] end.

Definition detailsOf (result : option Result) : Result :=
  or_default result (mkResult None None None).

Definition analyze (a : Analysis) : M (list string * Result) :=
  match a with
  | Rejects => stop
  | Resolves result => ret (labelsOf result, detailsOf result)
  end.

Definition noEyesLabel (labels : list string) : bool :=
  negb (some (str_includes "eyes") labels).

Definition floorQ (q : Q) : Z := Qfloor q.

(** [fw > 10 && fh > 10] for the face box clipped to the canvas. *)
Definition faceBoxLargeEnough (width height : Z) (x y w h : Q) : bool :=
  let fx := Z.max 0 (floorQ x) in
  let fy := Z.max 0 (floorQ y) in
  let fw := Z.min (width - fx) (floorQ w) in
  let fh := Z.min (height - fy) (floorQ h) in
  (10 <? fw)%Z && (10 <? fh)%Z.

(** [lower > 0 && (upper / lower) < ratio] *)
Definition muchDarker (upper lower ratio : Q) : bool :=
  Qgtb lower 0 && Qltb (upper / lower) ratio.

Definition localOcclusionCheck (width height : Z) (d : Detection) : M unit :=
  match d with
  | DetectThrows | NoFaces => ret tt
  | Face x y w h lum =>
      if faceBoxLargeEnough width height x y w h then
        match lum with
        | None => ret tt
        | Some (eyeMean, lowerMean) =>
            modify (fun r =>
              if muchDarker eyeMean lowerMean 0.45
              then setOcclusion (consecutiveOcclusionRef r + 1) r
              else setOcclusion 0 r) ;;;
            r <- get ;;
            let occSecLocal := seconds (consecutiveOcclusionRef r) in
            when (Qgeb occSecLocal 1.5)
              (emit "eyes_occluded_local" "Eyes likely occluded/not visible")
        end
      else ret tt
  end.

Definition simpleOcclusionCheck (bands : option (Q * Q)) : M unit :=
  match bands with
  | None => ret tt
  | Some (topMean, lowMean) =>
      modify (fun r =>
        if muchDarker topMean lowMean 0.5
        then setOcclusion (consecutiveOcclusionRef r + 1) r
        else setOcclusion 0 r) ;;;
      r <- get ;;
      let occSecSimple := seconds (consecutiveOcclusionRef r) in
      when (Qgeb occSecSimple 1.5)
        (emit "eyes_occluded_simple" "Eyes likely occluded/not visible")
  end.

Definition backgroundCheck (labels : list string) : M unit :=
  when (includes "background_motion" labels
        || includes "animated_background" labels
        || includes "virtual_background" labels)
    (emit "background_violation"
       "Background movement or virtual background detected").

Definition immediateChecks (labels : list string) : M unit :=
  when (includes "multiple_faces" labels)
    (emit "multiple_faces" "Multiple faces detected") ;;;
  when (includes "phone_detected" labels || includes "mobile_phone" labels)
    (emit "phone_detected" "Phone detected in camera view").

Definition blurCheck (varLap : option Q) : M unit :=
  match varLap with
  | None => ret tt
  | Some varLap =>
      modify (fun r =>
        if Qltb varLap 55
        then setBlurFrames (consecutiveBlurFramesRef r + 1) r
        else setBlurFrames 0 r) ;;;
      r <- get ;;
      let blurSeconds := seconds (consecutiveBlurFramesRef r) in
      when (Qgeb blurSeconds 2)
        (emit "face_blurred_start" "Face too blurred at exam start")
  end.

Definition faceAbsent (labels : list string) : bool :=
  includes "no_face" labels || negb (includes "face_present" labels).

Definition startWindowCheck (labels : list string) (varLap : option Q)
  : M unit :=
  r <- get ;;
  when (Qltb (seconds (startFramesRef r)) startEnforcementSeconds)
    (modify (fun r => setStartFrames (startFramesRef r + 1) r) ;;;
     when (includes "face_covered" labels || faceAbsent labels)
       (emit "face_not_visible_at_start"
          "Face not clearly visible at exam start") ;;;
     blurCheck varLap).

(** [details.face_id || details.face_signature], when truthy. *)
Definition currentFaceId (res : Result) : option string :=
  if truthy_ref (face_id res) then face_id res
  else if truthy_ref (face_signature res) then face_signature res
  else None.

Definition faceSwitchCheck (res : Result) : M unit :=
  match currentFaceId res with
  | None => ret tt
  | Some currentId =>
      modify (fun r =>
        if negb (truthy_ref (initialFaceIdRef r))
        then setInitialFaceId (Some currentId) r else r) ;;;
      r <- get ;;
      when (truthy_ref (lastFaceIdRef r)
            && negb (bool_decide (Some currentId = lastFaceIdRef r))
            && negb (bool_decide (Some currentId = initialFaceIdRef r)))
        (emit "face_switched" "Different face detected — exam terminated") ;;;
      modify (setLastFaceId (Some currentId))
  end.

Definition noFaceCheck (labels : list string) : M unit :=
  modify (fun r =>
    if faceAbsent labels then setNoFace (consecutiveNoFaceRef r + 1) r
    else setNoFace 0 r) ;;;
  r <- get ;;
  let noFaceSeconds := seconds (consecutiveNoFaceRef r) in
  when (Qgeb noFaceSeconds 5)
    (emit "face_missing" "Face not visible for too long").

Definition gazeCheck (labels : list string) : M unit :=
  modify (fun r =>
    if includes "gaze_away" labels || includes "looking_away" labels
    then setGazeAway (consecutiveGazeAwayRef r + 1) r
    else setGazeAway 0 r) ;;;
  r <- get ;;
  let gazeAwaySeconds := seconds (consecutiveGazeAwayRef r) in
  when (Qgeb gazeAwaySeconds 5)
    (emit "gaze_away_prolonged" "Prolonged gaze away from screen").

Definition occlusionLabels : list string :=
  ["eyes_closed"; "eyes_not_visible"; "no_eyes"; "eye_not_detected";
   "face_occluded"; "face_covered"; "mask"; "sunglasses"].

Definition occlusionCheck (labels : list string) : M unit :=
  let hasOcclusion := some (fun l => includes l occlusionLabels) labels in
  modify (fun r =>
    if hasOcclusion then setOcclusion (consecutiveOcclusionRef r + 1) r
    else setOcclusion 0 r) ;;;
  r <- get ;;
  let occlusionSeconds := seconds (consecutiveOcclusionRef r) in
  when (Qgeb occlusionSeconds 2)
    (emit "face_or_eyes_occluded" "Face or eyes are occluded/not visible").

Section WithDetector.

(** Whether the browser offers [window.FaceDetector]. *)
Variable faceDetector : bool.

(** The two local fallbacks for eye occlusion, tried when no label
    mentions the eyes. *)
Definition localChecks (t : Tick) (labels : list string) : M unit :=
  when (noEyesLabel labels && faceDetector)
    (localOcclusionCheck (t_videoWidth t) (t_videoHeight t) (t_detection t)) ;;;
  when (noEyesLabel labels && negb faceDetector)
    (simpleOcclusionCheck (t_bands t)).

(** Everything after the analysis call returned. *)
Definition labelChecks (t : Tick) (labels : list string) (res : Result)
  : M unit :=
  localChecks t labels ;;;
  backgroundCheck labels ;;;
  immediateChecks labels ;;;
  startWindowCheck labels (t_varLap t) ;;;
  faceSwitchCheck res ;;;
  noFaceCheck labels ;;;
  gazeCheck labels ;;;
  occlusionCheck labels.

(** The body of the outer [try]. *)
Definition analysis (t : Tick) : M unit :=
  darkCheck (t_stats t) ;;;
  lr <- analyze (t_analysis t) ;;
  labelChecks t (fst lr) (snd lr).

(** One run of [captureAndAnalyze]: the violation handed to [onViolation],
    if any, and the references afterwards. *)
Definition captureAndAnalyze (t : Tick) (r : Refs) : option Violation * Refs :=
  if negb (t_video t) || analysisInFlight r then (None, r)
  else
    let r := setInFlight true r in
    if (t_videoWidth t =? 0)%Z || (t_videoHeight t =? 0)%Z
    then (None, setInFlight false r)
    else
      match analysis t r with
      | (Return v, r') => (v, setInFlight false r')
      | (Next _, r') => (None, setInFlight false r')
      end.

(** The analysis loop: ticks run one after the other. *)
Fixpoint runTicks (ts : list Tick) (r : Refs) : list (option Violation) * Refs :=
  match ts with
  | [] => ([], r)
  | t :: ts =>
      let '(v, r1) := captureAndAnalyze t r in
      let '(vs, r2) := runTicks ts r1 in
      (v :: vs, r2)
  end.

End WithDetector.

(** How many of the emitted violations have type [ty]. *)
Definition countType (ty : string) (vs : list (option Violation)) : nat :=
  length (filter (fun v => v_type <$> v = Some ty) vs).

(** *** Notions used to state the properties *)

(** Every run of [m] relates the references before and after by [R]. *)
Definition respects {A} (R : Refs -> Refs -> Prop) (m : M A) : Prop :=
  forall r, R r (m r).2.

(** [m] hands [onViolation] only violations whose type satisfies [P]. *)
Definition emits_only {A} (P : string -> Prop) (m : M A) : Prop :=
  forall r v r', m r = (Return (Some v), r') -> P (v_type v).

(** No identity seen yet, or the first signature recorded and the last one
    equal to it. *)
Definition identity_settled (r : Refs) : Prop :=
  (initialFaceIdRef r = None /\ lastFaceIdRef r = None)
  \/ exists i, truthy i = true
              /\ initialFaceIdRef r = Some i /\ lastFaceIdRef r = Some i.

(** A recorded first signature stays, and [identity_settled] stays. *)
Definition identity_kept (r r' : Refs) : Prop :=
  (forall i, truthy i = true -> initialFaceIdRef r = Some i ->
             initialFaceIdRef r' = Some i)
  /\ (identity_settled r -> identity_settled r').

(** The identity references are the same. *)
Definition same_identity (r r' : Refs) : Prop :=
  initialFaceIdRef r' = initialFaceIdRef r
  /\ lastFaceIdRef r' = lastFaceIdRef r.

(** The dark-frame counter is the same. *)
Definition same_dark (r r' : Refs) : Prop :=
  consecutiveDarkFramesRef r' = consecutiveDarkFramesRef r.

(** Everything the label checks accumulate is the same. *)
Definition same_label_state (r r' : Refs) : Prop :=
  consecutiveGazeAwayRef r' = consecutiveGazeAwayRef r
  /\ startFramesRef r' = startFramesRef r
  /\ consecutiveNoFaceRef r' = consecutiveNoFaceRef r
  /\ consecutiveBlurFramesRef r' = consecutiveBlurFramesRef r
  /\ initialFaceIdRef r' = initialFaceIdRef r
  /\ lastFaceIdRef r' = lastFaceIdRef r
  /\ consecutiveOcclusionRef r' = consecutiveOcclusionRef r.

(** The types the checks after the analysis call can emit. *)
Definition labelCheckTypes : list string :=
  ["eyes_occluded_local"; "eyes_occluded_simple"; "background_violation";
   "multiple_faces"; "phone_detected"; "face_not_visible_at_start";
   "face_blurred_start"; "face_switched"; "face_missing";
   "gaze_away_prolonged"; "face_or_eyes_occluded"].

(** The types a tick can emit when its labels only say, at most, that no
    face is there. *)
Definition absentFaceTypes : list string :=
  ["camera_covered"; "eyes_occluded_local"; "eyes_occluded_simple";
   "face_not_visible_at_start"; "face_switched"; "face_missing"].

(** *** The violations the properties name *)

Definition covered : Violation :=
  mkViolation "camera_covered" "Camera appears covered or too dark".
Definition faceMissing : Violation :=
  mkViolation "face_missing" "Face not visible for too long".
Definition notVisibleAtStart : Violation :=
  mkViolation "face_not_visible_at_start"
    "Face not clearly visible at exam start".
Definition faceSwitched : Violation :=
  mkViolation "face_switched" "Different face detected — exam terminated".

(** Outcome of a threshold test on a counter. *)
Definition fires (b : bool) (v : Violation) : Outcome unit :=
  if b then Return (Some v) else Next tt.

(** *** Classes of ticks used to state the properties *)

(** The tick gets past the guards: video and context present, nonzero
    dimensions. *)
Definition ready (t : Tick) : bool :=
  t_video t && negb (t_videoWidth t =? 0)%Z && negb (t_videoHeight t =? 0)%Z.

(** The frame statistics were read and satisfy the darkness condition. *)
Definition darkFrame (t : Tick) : bool :=
  match t_stats t with Some f => isDark f | None => false end.

(** The frame statistics, when read, do not satisfy it. *)
Definition brightFrame (t : Tick) : bool :=
  match t_stats t with Some f => negb (isDark f) | None => true end.

(** The labels the tick works with, when the analysis call returned. *)
Definition tickLabels (t : Tick) : option (list string) :=
  match t_analysis t with
  | Rejects => None
  | Resolves result => Some (labelsOf result)
  end.

(** The identity signature of the tick, when there is one. *)
Definition tickFaceId (t : Tick) : option string :=
  match t_analysis t with
  | Rejects => None
  | Resolves result => currentFaceId (detailsOf result)
  end.

(** The local luminance comparison of the tick does not count the frame as
    occluded (either it is not evaluated, or its condition is false). *)
Definition eyesNotDarker (faceDetector : bool) (t : Tick) : bool :=
  if faceDetector then
    match t_detection t with
    | Face x y w h (Some (eyeMean, lowerMean)) =>
        negb (faceBoxLargeEnough (t_videoWidth t) (t_videoHeight t) x y w h
              && muchDarker eyeMean lowerMean 0.45)
    | _ => true
    end
  else
    match t_bands t with
    | Some (topMean, lowMean) => negb (muchDarker topMean lowMean 0.5)
    | None => true
    end.

(** Labels with no finding for the background, multiple-faces, phone, gaze
    and occlusion checks. *)
Definition noOtherFinding (ls : list string) : bool :=
  negb (includes "background_motion" ls || includes "animated_background" ls
        || includes "virtual_background" ls)
  && negb (includes "multiple_faces" ls)
  && negb (includes "phone_detected" ls || includes "mobile_phone" ls)
  && negb (includes "gaze_away" ls || includes "looking_away" ls)
  && negb (some (fun l => includes l occlusionLabels) ls).

(** A tick that reads a dark frame. *)
Definition darkTick (t : Tick) : bool := ready t && darkFrame t.

(** A tick whose only finding is the label [no_face]. *)
Definition reportsOnlyNoFace (faceDetector : bool) (t : Tick) : bool :=
  ready t && brightFrame t
  && bool_decide (tickLabels t = Some ["no_face"])
  && bool_decide (tickFaceId t = None)
  && eyesNotDarker faceDetector t.

(** The part of a tick that runs before the identity comparison: the
    darkness check, the analysis call and the checks on its labels up to
    the start window.  It yields what the analysis call returned. *)
Definition beforeFaceSwitch (faceDetector : bool) (t : Tick)
  : M (list string * Result) :=
  darkCheck (t_stats t) ;;;
  lr <- analyze (t_analysis t) ;;
  localChecks faceDetector t (fst lr) ;;;
  backgroundCheck (fst lr) ;;;
  immediateChecks (fst lr) ;;;
  startWindowCheck (fst lr) (t_varLap t) ;;;
  ret lr.

(** The tick gets past the guards and reaches the identity comparison: the
    analysis call returns and no earlier check ends the tick. *)
Definition reachesFaceSwitch (faceDetector : bool) (t : Tick) (r : Refs)
  : bool :=
  ready t && negb (analysisInFlight r)
  && match (beforeFaceSwitch faceDetector t (setInFlight true r)).1 with
     | Next _ => true
     | Return _ => false
     end.

(** Sample observations. *)
Definition brightStats : FrameStats := mkFrameStats 120 40 0.1.
Definition darkStats : FrameStats := mkFrameStats 5 3 0.99.

(** A 640x480 frame with uniform luminance and sharp edges, no face found
    by the local detector. *)
Definition sampleTick (st : FrameStats) (a : Analysis) : Tick :=
  mkTick true 640 480 (Some st) a NoFaces (Some (mean st, mean st))
    (Some 200%Q).

Definition labelled (ls : list string) : Analysis :=
  Resolves (Some (mkResult (Some ls) None None)).

Definition identified (id : string) : Analysis :=
  Resolves (Some (mkResult (Some ["face_present"]) (Some id) None)).

(** References right after a start window in which the face was present. *)
Definition afterStartWindow : Refs := mkRefs false 0 6 0 0 0 None None 0.

End CameraFeed.

(** ** Notions for the properties of whole ticks *)

Module CameraRuns.

Import CameraFeed.

(** From references satisfying [P], the check ends with an outcome and
    references satisfying [Q]. *)
Definition triple {A} (P : Refs -> Prop) (m : M A)
    (Q : Outcome A -> Refs -> Prop) : Prop :=
  forall r, P r -> Q (m r).1 (m r).2.

(** The check never ends the tick without a violation. *)
Definition never_stops {A} (m : M A) : Prop :=
  forall r r', m r <> (Return None, r').

(** The outcome is no bare return, and a violation only of a type
    satisfying [E]. *)
Definition emitting {A} (E : string -> Prop) (o : Outcome A) : Prop :=
  match o with
  | Return (Some v) => E (v_type v)
  | Return None => False
  | Next _ => True
  end.

(** The reference read by [f] is the same. *)
Definition keeps {A} (f : Refs -> A) (r r' : Refs) : Prop := f r' = f r.

(** The types of the two local eye-occlusion heuristics and of the two
    start-window checks. *)
Definition localOcclusionTypes : list string :=
  ["eyes_occluded_local"; "eyes_occluded_simple"].
Definition startWindowTypes : list string :=
  ["face_not_visible_at_start"; "face_blurred_start"].

Definition occluded : Violation :=
  mkViolation "face_or_eyes_occluded" "Face or eyes are occluded/not visible".

(** [labels.some(l => occlusionLabels.has(l))] *)
Definition hasOcclusion (ls : list string) : bool :=
  some (fun l => includes l occlusionLabels) ls.

(** The analysis call of the tick returned no occlusion label, or failed. *)
Definition noOcclusionLabel (t : Tick) : bool :=
  match tickLabels t with
  | Some ls => negb (hasOcclusion ls)
  | None => true
  end.

(** The tick gets past the guards of [captureAndAnalyze]. *)
Definition counted (t : Tick) (r : Refs) : bool :=
  ready t && negb (analysisInFlight r).

(** The local luminance comparison of the tick is evaluated and counts the
    frame as occluded. *)
Definition eyesDarker (faceDetector : bool) (t : Tick) : bool :=
  if faceDetector then
    match t_detection t with
    | Face x y w h (Some (eyeMean, lowerMean)) =>
        faceBoxLargeEnough (t_videoWidth t) (t_videoHeight t) x y w h
        && muchDarker eyeMean lowerMean 0.45
    | _ => false
    end
  else
    match t_bands t with
    | Some (topMean, lowMean) => muchDarker topMean lowMean 0.5
    | None => false
    end.

(** Labels of a present face whose only finding is an occlusion label that
    does not mention the eyes. *)
Definition onlyOcclusionFinding (ls : list string) : bool :=
  negb (includes "background_motion" ls || includes "animated_background" ls
        || includes "virtual_background" ls)
  && negb (includes "multiple_faces" ls)
  && negb (includes "phone_detected" ls || includes "mobile_phone" ls)
  && negb (includes "gaze_away" ls || includes "looking_away" ls)
  && negb (faceAbsent ls)
  && noEyesLabel ls
  && hasOcclusion ls.

(** The label tests of the checks that stop on a single frame. *)
Definition backgroundLabel (ls : list string) : bool :=
  includes "background_motion" ls || includes "animated_background" ls
  || includes "virtual_background" ls.
Definition phoneLabel (ls : list string) : bool :=
  includes "phone_detected" ls || includes "mobile_phone" ls.

Definition backgroundViolation : Violation :=
  mkViolation "background_violation"
    "Background movement or virtual background detected".
Definition multipleFaces : Violation :=
  mkViolation "multiple_faces" "Multiple faces detected".
Definition phoneDetected : Violation :=
  mkViolation "phone_detected" "Phone detected in camera view".

(** The label tests of the two checks that wait for five seconds, and how
    many ticks of a run satisfy a test. *)
Definition gazeLabel (ls : list string) : bool :=
  includes "gaze_away" ls || includes "looking_away" ls.

Definition gazeTick (t : Tick) : bool :=
  match tickLabels t with Some ls => gazeLabel ls | None => false end.

Definition absentTick (t : Tick) : bool :=
  match tickLabels t with Some ls => faceAbsent ls | None => false end.

Definition countTicks (p : Tick -> bool) (ts : list Tick) : nat :=
  length (List.filter p ts).

Definition gazeAway : Violation :=
  mkViolation "gaze_away_prolonged" "Prolonged gaze away from screen".

End CameraRuns.

(** ** Several tabs, each with its own page events *)

Module Session.

Import Exam MultiTab.

(** What can happen in the browser: a tab opens, re-renders or announces
    its presence, or the page of one tab receives an event. *)
Inductive SessionEvent :=
| Browser (ev : WorldEvent)
| InTab (i : nat) (ev : Event).

(** The tab whose code an event runs first. *)
Definition actor (ev : SessionEvent) (w : World) : nat :=
  match ev with
  | Browser (OpenTab _) => length (tabs w)
  | Browser (RerenderTab i) | Browser (PresenceTimeout i) | InTab i _ => i
  end.

(** The instance identifiers drawn by the tabs opened in [evs]. *)
Definition openedIds (evs : list SessionEvent) : list string :=
  omap (fun ev =>
          match ev with Browser (OpenTab id) => Some id | _ => None end) evs.

Section WithIds.

Variable genId : nat -> string.
Variable broadcastChannel : bool.

(** A page event in tab [i].  A re-render also runs the effects whose
    dependencies changed. *)
Definition inTab (i : nat) (ev : Event) (w : World) : World :=
  match ev with
  | Rerender => rerenderTab genId broadcastChannel i w
  | _ =>
      match tabs w !! i with
      | None => w
      | Some t =>
          mkWorld (localStorage w)
            (<[i := mkTab (instanceId t) (step genId ev (page t))
                      (effectRender t) (storageListener t) (channelOpen t)
                      (presencePending t)]> (tabs w))
      end
  end.

Definition sstep (ev : SessionEvent) (w : World) : World :=
  match ev with
  | Browser ev => wstep genId broadcastChannel ev w
  | InTab i ev => inTab i ev w
  end.

Definition srun (evs : list SessionEvent) (w : World) : World :=
  foldl (fun w ev => sstep ev w) w evs.

End WithIds.

(** What holds of every tab of a session, given the shared storage. *)
Definition tabOk (ls : gmap string string) (t : Tab) : Prop :=
  truthy (instanceId t) = true
  /\ (terminated t = false -> storageListener t = true)
  /\ (storageListener t = true -> ls !! KEY = Some (instanceId t))
  /\ (channelOpen t = true -> storageListener t = true)
  /\ (r_examTerminated (effectRender t) = true ->
      terminated t = true /\ storageListener t = false).

Definition consistent (w : World) : Prop :=
  NoDup (instanceId <$> tabs w)
  /\ Forall (tabOk (localStorage w)) (tabs w)
  /\ (forall m, localStorage w !! KEY = Some m ->
      exists t, t ∈ tabs w /\ instanceId t = m /\ storageListener t = true).

(** An identifier no open tab carries, and which is not the empty string. *)
Definition fresh (id : string) (w : World) : Prop :=
  truthy id = true /\ id ∉ instanceId <$> tabs w.

End Session.

(** ** The whole exam page in one tab

    Everything that reaches the state of the mounted page: the listeners,
    callbacks and timeouts of [Exam], the buttons of the page, the camera
    feed failing to get the devices, the redirect for a missing name, and
    the multi-instance effect together with what other documents of the
    origin write and send. *)

Module Mounted.

Import Exam MultiTab.

(** How a click on the fullscreen button ends. *)
Inductive FullscreenOutcome :=
| Entered      (* no fullscreen element, [requestFullscreen()] resolved *)
| Exited       (* a fullscreen element, [exitFullscreen()] resolved *)
| Threw.       (* the call made threw *)

(** Everything that can happen to the mounted page. *)
Inductive PageEvent :=
| Listener (ev : Event)           (* an event of [Exam], re-render included *)
| SubmitClick (confirmed : bool)  (* the Submit button and the answer to its question *)
| DismissClick (k : nat)          (* the [×] of the [k]-th alert on display *)
| FullscreenClick (o : FullscreenOutcome)
| CameraAccessFailed              (* [startCamera] reached its [catch] *)
| PresenceTimeout                 (* the presence timeout of the effect fires *)
| Storage (e : StorageEvent)      (* another document wrote to [localStorage] *)
| StorageCleared                  (* another document cleared it: the event has no key *)
| Presence (m : Message).         (* another document posted on the channel *)

(** The tab and the [localStorage] of its origin. *)
Record Mounted := mkMounted {
  tab : Tab;
  storage : gmap string string
}.

Definition pageState (m : Mounted) : State := state (page (tab m)).

(** [window.confirm(question)]: a blocking dialog as well; the answer comes
    with the event. *)
Definition window_confirm (question : string) (s : State) : State :=
  window_alert question s.

(** [handleSubmit] *)
Definition handleSubmit (confirmed : bool) (s : State) : State :=
  let s :=
    window_confirm
      "Are you sure you want to submit your exam? This action cannot be undone."
      s in
  if confirmed then
    let s := window_alert "Exam submitted successfully!" s in
    router_push "/" s
  else s.

(** The [onClick] of the [×] button of the [k]-th alert on display.  The
    timestamps compared when the alert has no truthy [id] are the [Date]
    objects, and every alert has its own. *)
Definition dismissAlert (k : nat) (s : State) : State :=
  match alerts s !! k with
  | None => s
  | Some a =>
      if truthy_ref (alert_id a)
      then setAlerts (filter (fun b => alert_id b ≠ alert_id a)) s
      else setAlerts (delete k) s
  end.

Section WithIds.

Variable genId : nat -> string.
Variable broadcastChannel : bool.

(** [toggleFullscreen], after the awaited call settled. *)
Definition toggleFullscreen (o : FullscreenOutcome) (s : State) : State :=
  match o with
  | Entered =>
      addAlert genId
        (mkAlert "fullscreen_enter" "Entered fullscreen mode" (Some info)
           None) s
  | Exited => s
  | Threw =>
      addAlert genId
        (mkAlert "fullscreen_error" "Could not enter fullscreen mode"
           (Some warning) None) s
  end.

(** The [catch] of [startCamera] in the camera feed. *)
Definition cameraAccessFailed (s : State) : State :=
  let s := onStatusChange genId "disconnected" "disconnected" s in
  window_alert "Camera and microphone access is required for exam monitoring."
    s.

(** Mounting the page: the first render, then its effects in source order.
    [name] is [searchParams.get("name")], [id] the instance identifier
    drawn by [useRef], [ls] the [localStorage] found. *)
Definition mountPage (name : option string) (id : string)
    (ls : gmap string string) : Mounted :=
  let s :=
    if negb (truthy_ref name) then router_push "/" initialState
    else initialState in
  let t0 := mkTab id (mkPage s firstRender) firstRender false false false in
  let '(t1, ls1, _) := multiTabEffect genId broadcastChannel firstRender t0 ls in
  mkMounted t1 ls1.

(** A re-render.  The multi-instance effect depends on [examTerminated]:
    when it changed, the previous run is cleaned up and the effect runs
    again. *)
Definition rerenderPage (m : Mounted) : Mounted :=
  let t := tab m in
  let p := rerender (page t) in
  let t := mkTab (instanceId t) p (effectRender t) (storageListener t)
             (channelOpen t) (presencePending t) in
  if bool_decide (r_examTerminated (listeners p)
                  = r_examTerminated (effectRender t))
  then mkMounted t (storage m)
  else
    let '(t1, ls1, _) := multiTabCleanup t (storage m) in
    let '(t2, ls2, _) :=
      multiTabEffect genId broadcastChannel (listeners p) t1 ls1 in
    mkMounted t2 ls2.

(** The presence timeout: the message goes to the other documents. *)
Definition announcePresence (m : Mounted) : Mounted :=
  let t := tab m in
  if presencePending t then
    mkMounted
      (mkTab (instanceId t) (page t) (effectRender t) (storageListener t)
         (channelOpen t) false)
      (storage m)
  else m.

(** The write of another document that a [storage] event reports. *)
Definition written (e : StorageEvent) (ls : gmap string string)
  : gmap string string :=
  match se_newValue e with
  | Some v => <[se_key e := v]> ls
  | None => delete (se_key e) ls
  end.

Definition pstep (ev : PageEvent) (m : Mounted) : Mounted :=
  let on (f : State -> State) := mkMounted (withPage f (tab m)) (storage m) in
  match ev with
  | Listener Rerender => rerenderPage m
  | Listener ev =>
      let t := tab m in
      mkMounted
        (mkTab (instanceId t) (step genId ev (page t)) (effectRender t)
           (storageListener t) (channelOpen t) (presencePending t))
        (storage m)
  | SubmitClick confirmed => on (handleSubmit confirmed)
  | DismissClick k => on (dismissAlert k)
  | FullscreenClick o => on (toggleFullscreen o)
  | CameraAccessFailed => on cameraAccessFailed
  | PresenceTimeout => announcePresence m
  | Storage e => mkMounted (onStorage genId e (tab m)) (written e (storage m))
  | StorageCleared => mkMounted (tab m) ∅
  | Presence msg => mkMounted (onMessage genId msg (tab m)) (storage m)
  end.

Definition prun (evs : list PageEvent) (m : Mounted) : Mounted :=
  foldl (fun m ev => pstep ev m) m evs.

End WithIds.

(** *** Notions used to state the properties *)

(** The dialog of a confirmed submission. *)
Definition submittedDialog (d : string) : bool :=
  String.eqb d "Exam submitted successfully!".

(** Every termination was announced by its dialog, and every navigation
    is that of a termination, of a confirmed submission or of the redirect
    for a missing name. *)
Definition accounted (name : option string) (s : State) : Prop :=
  (examTerminated s = true
   <-> 0 < length (List.filter terminationDialog (dialogs s)))
  /\ Forall (fun path => path = "/") (navigations s)
  /\ length (navigations s)
     = length (List.filter terminationDialog (dialogs s))
       + length (List.filter submittedDialog (dialogs s))
       + (if truthy_ref name then 0 else 1).

(** The dialogs that go with neither a termination nor a submission. *)
Definition benignDialogs : list string :=
  ["Time's up! Your exam has been submitted.";
   "Camera and microphone access is required for exam monitoring.";
   "Are you sure you want to submit your exam? This action cannot be undone."].

(** A page on which nothing has terminated, navigated or queued a
    synthetic blur, and which has shown none but the benign dialogs. *)
Definition calm (s : State) : Prop :=
  examTerminated s = false
  /\ navigations s = []
  /\ Forall (fun d => d ∈ benignDialogs) (dialogs s)
  /\ Forall (fun a => alert_type a <> "exam_terminated") (alerts s)
  /\ no_blur_queued s.

(** The storage event names another instance as the active one. *)
Definition namesAnother (id : string) (e : StorageEvent) : bool :=
  String.eqb (se_key e) KEY
  && truthy_ref (se_newValue e)
  && negb (bool_decide (se_newValue e = Some id)).

(** The message announces the presence of another instance. *)
Definition announcesAnother (id : string) (msg : Message) : bool :=
  String.eqb (m_type msg) "presence"
  && truthy (m_id msg)
  && negb (String.eqb (m_id msg) id).

(** Events of the page of instance [id] that call neither [terminateExam]
    nor [router.push], and [addAlert] with no immediate-stop type. *)
Definition quietPageEvent (id : string) (ev : PageEvent) : bool :=
  match ev with
  | Listener ev => quietEvent ev
  | SubmitClick confirmed => negb confirmed
  | DismissClick _ | FullscreenClick _ | CameraAccessFailed
  | PresenceTimeout | StorageCleared => true
  | Storage e => negb (namesAnother id e)
  | Presence msg => negb (announcesAnother id msg)
  end.

(** The lock is free for instance [id]: no truthy marker of another
    instance. *)
Definition lockFree (id : string) (ls : gmap string string) : bool :=
  negb (truthy_ref (ls !! KEY) && negb (bool_decide (ls !! KEY = Some id))).

(** What a quiet session keeps: the page calm, the instance identifier,
    and the effect run of a render that did not see a termination. *)
Definition quiet_so_far (id : string) (m : Mounted) : Prop :=
  calm (pageState m)
  /\ instanceId (tab m) = id
  /\ r_examTerminated (effectRender (tab m)) = false.

(** The multi-instance effect is in step with the listeners: its run in
    force is that of a render that saw the same [examTerminated] as the
    render of the listeners; if they saw it set, the state has it set, the
    [storage] listener is removed and the channel closed. *)
Definition effect_in_step (t : Tab) : Prop :=
  r_examTerminated (listeners (page t)) = r_examTerminated (effectRender t)
  /\ (r_examTerminated (listeners (page t)) = true ->
      examTerminated (state (page t)) = true
      /\ storageListener t = false
      /\ channelOpen t = false).

(** The events that can send the router away once the registered closures
    have seen the termination: the violation callback the camera feed
    keeps from the first render, and a confirmed submission. *)
Definition navigatesAfterTermination (ev : PageEvent) : bool :=
  match ev with
  | Listener (CameraViolation _ _) | SubmitClick true => true
  | _ => false
  end.

(** The events that can open a dialog then: those, the countdown, the
    question of the Submit button and the failure to get the camera. *)
Definition opensDialogAfterTermination (ev : PageEvent) : bool :=
  match ev with
  | Listener (CameraViolation _ _) | Listener Countdown | SubmitClick _
  | CameraAccessFailed => true
  | _ => false
  end.

End Mounted.

(** ** The Python executor

    Pyodide is outside the program: what loading it gives, what
    [runPython] does to the interpreter and what running one test case
    does are taken as given.  A thrown value is kept as the message the
    code reads from it.  The fields [input] and [expected] of a test case
    are strings, as in the problems of the exam page. *)

Module PythonExecutor.

(** What a [catch] receives: an [Error] with its message, or anything
    else. *)
Inductive Thrown :=
| ErrorWith (message : string)
| NotAnError.

(** [error instanceof Error ? error.message : 'Unknown error'] *)
Definition messageOf (e : Thrown) : string :=
  match e with ErrorWith m => m | NotAnError => "Unknown error" end.

Record TestCase := mkTestCase {
  tc_input : string;
  tc_expected : string
}.

(** The [output] field of a result: the string [JSON.stringify] returned,
    [undefined] when it returned none, [null] when the case threw. *)
Inductive Output :=
| Text (s : string)
| Undefined
| Null.

(** [output === expected] *)
Definition strictlyEqual (o : Output) (expected : string) : bool :=
  match o with Text s => String.eqb s expected | _ => false end.

Record TestResult := mkTestResult {
  testCase : nat;
  tr_input : string;
  tr_expected : string;
  tr_output : Output;
  tr_passed : bool;
  tr_error : option string
}.

Record Response := mkResponse {
  success : bool;
  test_results : list TestResult;
  execution_time : Z
}.

(** The program of the start-up test, [print("Python is working!")]. *)
Definition startupProgram : string :=
  "print(" +:+ String (ascii_of_nat 34) "Python is working!"
  +:+ String (ascii_of_nat 34) ")".

Section WithPyodide.

(** The state of a Python interpreter.  A value that is no interpreter but
    truthy is an interpreter on which every call throws. *)
Variable Env : Type.

(** The [pyodide] field: [null] as declared, a falsy value other than
    [null] ([undefined], say), or an interpreter. *)
Inductive Slot :=
| IsNull
| IsUndefined
| Interpreter (env : Env).

(** [!this.pyodide] is false. *)
Definition truthy_slot (v : Slot) : bool :=
  match v with Interpreter _ => true | _ => false end.

(** What the [try] of [initialize] meets: no [window], a throw before the
    assignment (the script fails to load, [loadPyodide] is missing or
    rejects), or [loadPyodide] resolving to a value. *)
Inductive Loading :=
| NoWindow
| LoadThrows
| ResolvesTo (v : Slot).

Variable loadPyodide : Loading.

(** [pyodide.runPython(program)] where the result is not used: what it
    throws, if anything, and the interpreter afterwards. *)
Variable runPython : string -> Env -> option Thrown * Env.

(** The body of the inner [try] up to [output]: parse the input, set the
    globals, call the function of the problem, [JSON.stringify] the
    result ([None] when it returns [undefined]). *)
Variable runCase :
  Z -> string -> TestCase -> Env -> (Thrown + option string) * Env.

Record Executor := mkExecutor {
  pyodide : Slot;
  loaded : bool
}.

(** The start-up test of [initialize]; what it throws is caught and
    logged. *)
Definition startupTest (v : Slot) : Slot :=
  match v with
  | Interpreter env => Interpreter (runPython startupProgram env).2
  | _ => v
  end.

Definition initialize (x : Executor) : Executor :=
  if loaded x then x
  else
    match loadPyodide with
    | NoWindow => x
    | LoadThrows => mkExecutor (pyodide x) false
    | ResolvesTo v => mkExecutor (startupTest v) true
    end.

(** [isLoaded]: [this.loaded && this.pyodide !== null] *)
Definition isLoaded (x : Executor) : bool :=
  loaded x && match pyodide x with IsNull => false | _ => true end.

(** The loop over the test cases, from index [i] on. *)
Fixpoint runCases (problemId : Z) (code : string) (i : nat)
    (testCases : list TestCase) (env : Env) : list TestResult * Env :=
  match testCases with
  | [] => ([], env)
  | tc :: rest =>
      let '(out, env1) := runCase problemId code tc env in
      let result :=
        match out with
        | inr stringified =>
            let output :=
              match stringified with Some s => Text s | None => Undefined end in
            mkTestResult (i + 1) (tc_input tc) (tc_expected tc) output
              (strictlyEqual output (tc_expected tc)) None
        | inl e =>
            mkTestResult (i + 1) (tc_input tc) (tc_expected tc) Null false
              (Some (messageOf e))
        end in
      let '(results, env2) := runCases problemId code (S i) rest env1 in
      (result :: results, env2)
  end.

(** [executePython]: the executor afterwards, and the response or the
    message of the error thrown. *)
Definition executePython (code : string) (testCases : list TestCase)
    (problemId : Z) (x : Executor) : Executor * (string + Response) :=
  let x := initialize x in
  if negb (loaded x) || negb (truthy_slot (pyodide x)) then
    (x, inl "Python environment not available - Pyodide failed to load")
  else
    match pyodide x with
    | Interpreter env =>
        match runPython code env with
        | (Some e, env1) =>
            (mkExecutor (Interpreter env1) (loaded x),
             inl ("Python execution error: " +:+ messageOf e))
        | (None, env1) =>
            let '(results, env2) := runCases problemId code 0 testCases env1 in
            (mkExecutor (Interpreter env2) (loaded x),
             inr (mkResponse true results 0))
        end
    | _ => (x, inl "Python environment not available - Pyodide failed to load")
    end.

(** *** Notions used to state the properties *)

(** The interpreter before the test case at position [j]: the cases
    before it have run on it, in order. *)
Definition envBefore (problemId : Z) (code : string)
    (testCases : list TestCase) (j : nat) (env : Env) : Env :=
  foldl (fun env tc => (runCase problemId code tc env).2) env
    (take j testCases).

End WithPyodide.

Arguments IsNull {Env}.
Arguments IsUndefined {Env}.
Arguments Interpreter {Env} env.
Arguments NoWindow {Env}.
Arguments LoadThrows {Env}.
Arguments ResolvesTo {Env} v.

(** The result [r] reports what [runCase] gave for the test case [tc] at
    position [i]. *)
Definition reports (i : nat) (tc : TestCase) (out : Thrown + option string)
    (r : TestResult) : Prop :=
  testCase r = S i
  /\ tr_input r = tc_input tc
  /\ tr_expected r = tc_expected tc
  /\ match out with
     | inl e =>
         tr_output r = Null /\ tr_passed r = false
         /\ tr_error r = Some (messageOf e)
     | inr (Some s) =>
         tr_output r = Text s
         /\ (tr_passed r = true <-> s = tc_expected tc)
         /\ tr_error r = None
     | inr None =>
         tr_output r = Undefined /\ tr_passed r = false /\ tr_error r = None
     end.

End PythonExecutor.

(** * Properties of the exam page *)

Module ExamFacts.

Import Exam.

#[local] Arguments Exam.addAlert : simpl never.
#[local] Arguments Exam.terminateExam : simpl never.

Section WithIds.

Variable genId : nat -> string.

Abbreviation addAlert := (addAlert genId).
Abbreviation terminateExam := (terminateExam genId).
Abbreviation step := (step genId).
Abbreviation run := (run genId).

(** *** What [addAlert] touches *)

Lemma addAlert_examTerminated a s :
  examTerminated (addAlert a s) = examTerminated s.
Proof. unfold addAlert. by destruct (includes _ _). Qed.

Lemma addAlert_navigations a s :
  navigations (addAlert a s) = navigations s.
Proof. unfold addAlert. by destruct (includes _ _). Qed.

Lemma addAlert_dialogs a s : dialogs (addAlert a s) = dialogs s.
Proof. unfold addAlert. by destruct (includes _ _). Qed.

Lemma addAlert_nextId a s : nextId (addAlert a s) = S (nextId s).
Proof. unfold addAlert. by destruct (includes _ _). Qed.

Lemma addAlert_alerts a s :
  alerts (addAlert a s) =
  alerts s ++
  [mkAlert (alert_type a) (alert_message a)
     (if includes (alert_type a) immediateStopTypes
      then Some (or_default (alert_severity a) error)
      else alert_severity a)
     (Some (genId (nextId s)))].
Proof. unfold addAlert. by destruct (includes _ _). Qed.

Lemma addAlert_timers a s :
  timers (addAlert a s) =
  timers s ++ (5000, ExpireAlert (genId (nextId s))) ::
    (if includes (alert_type a) immediateStopTypes
     then [(0, DispatchBlur)] else []).
Proof.
  unfold addAlert. destruct (includes _ _); simpl; [|done].
  by rewrite <- app_assoc.
Qed.

(** *** What [terminateExam] does, by the render that created it *)

Lemma terminateExam_skips rd reason s :
  r_examTerminated rd = true -> terminateExam rd reason s = s.
Proof. intros H. unfold Exam.terminateExam. by rewrite H. Qed.

Lemma terminateExam_runs rd reason s :
  r_examTerminated rd = false ->
  let s' := terminateExam rd reason s in
  examTerminated s' = true
  /\ alerts s' = alerts s ++
       [mkAlert "exam_terminated" ("Exam terminated: " +:+ reason)
          (Some error) (Some (genId (nextId s)))]
  /\ dialogs s' = dialogs s ++ ["Exam terminated: " +:+ reason]
  /\ navigations s' = navigations s ++ ["/"]
  /\ timers s' = timers s ++ [(5000, ExpireAlert (genId (nextId s)))].
Proof.
  intros H. unfold Exam.terminateExam. rewrite H.
  cbn -[Exam.addAlert String.append].
  rewrite addAlert_examTerminated, addAlert_alerts, addAlert_timers,
    addAlert_dialogs, addAlert_navigations.
  done.
Qed.

Lemma terminateExam_keeps_terminated rd reason s :
  examTerminated s = true -> examTerminated (terminateExam rd reason s) = true.
Proof.
  intros H. destruct (r_examTerminated rd) eqn:E.
  - by rewrite terminateExam_skips.
  - by apply terminateExam_runs.
Qed.

Lemma terminateExam_timers_prefix rd reason s :
  timers s `prefix_of` timers (terminateExam rd reason s).
Proof.
  destruct (r_examTerminated rd) eqn:E.
  - by rewrite terminateExam_skips.
  - destruct (terminateExam_runs rd reason s E) as (_ & _ & _ & _ & ->).
    by apply prefix_app_r.
Qed.

Lemma addAlert_timers_prefix a s : timers s `prefix_of` timers (addAlert a s).
Proof. rewrite addAlert_timers. by apply prefix_app_r. Qed.

(** *** Invariants of the mounted page *)

(** Tactic for goals about one listener: peel the calls from the outside. *)
Ltac peel lemT lemA :=
  repeat first
    [ apply lemT
    | apply lemA
    | progress cbn
    | match goal with
      | |- context [if ?b then _ else _] => destruct b
      end ]; auto.

Lemma step_keeps_terminated ev p :
  examTerminated (state p) = true ->
  examTerminated (state (step ev p)) = true.
Proof.
  intros H.
  assert (HA : forall a s, examTerminated s = true ->
                           examTerminated (addAlert a s) = true)
    by (intros; by rewrite addAlert_examTerminated).
  pose proof terminateExam_keeps_terminated as HT.
  destruct ev as [h| | |f|e| | | | | | |c m|ty msg|i|]; cbn;
    unfold handleVisibilityChange, handleFocus, handleBlur,
      handleFullscreenChange, handleKeyDown, handleContextMenu, handleCopy,
      handleCut, handlePaste, handleBeforeUnload, countdownTick,
      onStatusChange, onViolation, fireTimer, rerender;
    try solve [peel HT HA].
  destruct (timers (state p) !! i) as [[d [id|]]|]; simpl; auto.
  unfold handleBlur. peel HT HA.
Qed.

Lemma step_listeners ev p :
  ev <> Rerender -> listeners (step ev p) = listeners p.
Proof.
  destruct ev as [h| | |f|e| | | | | | |c m|ty msg|i|]; try done.
  intros _. simpl. unfold fireTimer.
  by destruct (timers (state p) !! i) as [[d [id|]]|].
Qed.

Lemma step_closures_behind ev p :
  closures_behind p -> closures_behind (step ev p).
Proof.
  unfold closures_behind. intros H.
  destruct (decide (ev = Rerender)) as [->|Hne]; [done|].
  rewrite step_listeners by done.
  intros Hl. by apply step_keeps_terminated, H.
Qed.

Lemma run_snoc evs ev p : run (evs ++ [ev]) p = step ev (run evs p).
Proof. unfold Exam.run. by rewrite foldl_app. Qed.

Lemma run_closures_behind evs p :
  closures_behind p -> closures_behind (run evs p).
Proof.
  induction evs as [|ev evs IH] using rev_ind; [done|].
  intros H. rewrite run_snoc. by apply step_closures_behind, IH.
Qed.

Lemma mount_closures_behind : closures_behind mount.
Proof. unfold closures_behind. simpl. discriminate. Qed.

(** *** Pending synthetic blur *)

Lemma step_timers_prefix ev p :
  (forall i, ev <> Timeout i) ->
  timers (state p) `prefix_of` timers (state (step ev p)).
Proof.
  intros Hev.
  assert (HA : forall a s, timers (state p) `prefix_of` timers s ->
                 timers (state p) `prefix_of` timers (addAlert a s))
    by (intros a s Hs; etrans; [exact Hs | apply addAlert_timers_prefix]).
  assert (HT : forall rd reason s, timers (state p) `prefix_of` timers s ->
                 timers (state p) `prefix_of` timers (terminateExam rd reason s))
    by (intros rd reason s Hs; etrans;
        [exact Hs | apply terminateExam_timers_prefix]).
  destruct ev as [h| | |f|e| | | | | | |c m|ty msg|i|]; cbn;
    unfold handleVisibilityChange, handleFocus, handleBlur,
      handleFullscreenChange, handleKeyDown, handleContextMenu, handleCopy,
      handleCut, handlePaste, handleBeforeUnload, countdownTick,
      onStatusChange, onViolation, rerender;
    try solve [peel HT HA].
  by destruct (Hev i).
Qed.

Lemma fire_blur_terminates p i d :
  closures_behind p ->
  timers (state p) !! i = Some (d, DispatchBlur) ->
  examTerminated (state (step (Timeout i) p)) = true.
Proof.
  intros Hinv Hi. simpl. unfold fireTimer. rewrite Hi. simpl.
  unfold handleBlur.
  destruct (r_examTerminated (listeners p)) eqn:E.
  - rewrite terminateExam_skips by done.
    rewrite addAlert_examTerminated. simpl. by apply Hinv.
  - by apply terminateExam_runs.
Qed.

Lemma step_stop_pending ev p :
  closures_behind p -> stop_pending p -> stop_pending (step ev p).
Proof.
  intros Hinv [Ht|[i Hi]].
  { left. by apply step_keeps_terminated. }
  assert (Hcase : (exists j, ev = Timeout j) \/ forall j, ev <> Timeout j)
    by (destruct ev; eauto).
  destruct Hcase as [[j ->]|Hne].
  - destruct (timers (state p) !! j) as [[d [id|]]|] eqn:Ej.
    + right. simpl. unfold fireTimer. rewrite Ej. simpl.
      assert (i <> j) by (intros ->; congruence).
      destruct (decide (i < j)) as [Hlt|Hge].
      * exists i. by rewrite list_lookup_delete_lt.
      * exists (pred i). rewrite list_lookup_delete_ge by lia.
        by replace (S (pred i)) with i by lia.
    + left. by eapply fire_blur_terminates.
    + right. exists i. simpl. unfold fireTimer. by rewrite Ej.
  - right. exists i. eapply prefix_lookup_Some; [exact Hi|].
    by apply step_timers_prefix.
Qed.

Lemma run_stop_pending evs p :
  closures_behind p -> stop_pending p -> stop_pending (run evs p).
Proof.
  induction evs as [|ev evs IH] using rev_ind; [done|].
  intros Hinv Hp. rewrite run_snoc.
  apply step_stop_pending; [by apply run_closures_behind | by apply IH].
Qed.

(** ** The claims about the exam page *)

(** C1 (the code departs from it).  Termination is meant to happen once:
    [terminateExam] returns at once when [examTerminated] is set.  The
    guard reads the value of the render that created the closure, and the
    camera feed keeps the callback of the first render, for which the guard
    never holds.  First run: the window loses focus, the session terminates
    and the page re-renders; the next violation reported by the camera runs
    the whole termination again.  Second run: the camera reports a covered
    camera on two ticks with a re-render in between.  Either way there are
    two [exam_terminated] alerts, two dialogs and two navigations; and
    through the camera callback every call navigates, whatever the state. *)
Theorem terminateExam_repeats_through_camera_callback :
  let covered :=
    CameraViolation "camera_covered" "Camera appears covered or too dark" in
  let p := run [Blur; Rerender] mount in
  let p' := step covered p in
  let q := run [covered; Rerender; covered] mount in
  (examTerminated (state p) = true
   /\ r_examTerminated (listeners p) = true
   /\ navigations (state p) = ["/"]
   /\ navigations (state p') = ["/"; "/"]
   /\ dialogs (state p') =
        ["Exam terminated: Window lost focus";
         "Exam terminated: Camera appears covered or too dark"]
   /\ map alert_type (alerts (state p')) =
        ["blur"; "exam_terminated"; "camera_covered"; "exam_terminated"])
  /\ (navigations (state q) = ["/"; "/"]
      /\ dialogs (state q) =
           ["Exam terminated: Camera appears covered or too dark";
            "Exam terminated: Camera appears covered or too dark"]
      /\ map alert_type (alerts (state q)) =
           ["camera_covered"; "exam_terminated";
            "camera_covered"; "exam_terminated"])
  /\ (forall reason s,
        navigations (terminateExam cameraCallbacks reason s)
        = navigations s ++ ["/"]).
Proof.
  split; [by repeat split|]. split; [by repeat split|].
  intros reason s. by apply terminateExam_runs.
Qed.

(** C6.  A visibility change that hides the document while the session is
    active terminates it within the same listener call, with the reason
    "Left the exam tab (visibility change)" in the termination alert and in
    the dialog, and navigates away. *)
Theorem visibility_change_terminates evs :
  let p := run evs mount in
  examTerminated (state p) = false ->
  let p' := step (VisibilityChange true) p in
  examTerminated (state p') = true
  /\ last (alerts (state p')) =
       Some (mkAlert "exam_terminated"
               "Exam terminated: Left the exam tab (visibility change)"
               (Some error) (Some (genId (S (nextId (state p))))))
  /\ dialogs (state p') =
       dialogs (state p)
       ++ ["Exam terminated: Left the exam tab (visibility change)"]
  /\ navigations (state p') = navigations (state p) ++ ["/"].
Proof.
  intros p Hactive p'.
  assert (Hinv : closures_behind p)
    by apply run_closures_behind, mount_closures_behind.
  clearbody p.
  assert (Hcl : r_examTerminated (listeners p) = false).
  { destruct (r_examTerminated (listeners p)) eqn:E; [|done].
    apply Hinv in E. congruence. }
  subst p'. cbn. unfold handleVisibilityChange.
  edestruct (terminateExam_runs (listeners p)
               "Left the exam tab (visibility change)") as (H1 & H2 & H3 & H4 & _);
    [exact Hcl|].
  rewrite H1, H2, H3, H4, last_snoc.
  rewrite addAlert_nextId, addAlert_dialogs, addAlert_navigations.
  done.
Qed.

(** C8.  An alert of an immediate-stop kind with severity error, submitted
    while the session is active, is appended for display and queues the
    synthetic blur whose listener terminates the session.  Whatever is
    submitted or happens afterwards, the session is then either terminated
    or still has that callback queued, and running it terminates. *)
Theorem immediate_stop_alert_terminates evs a later :
  let p := run evs mount in
  examTerminated (state p) = false ->
  alert_type a ∈ immediateStopTypes ->
  alert_severity a = Some error ->
  let p1 := submit genId a p in
  let p2 := run later p1 in
  alerts (state p1) =
    alerts (state p)
    ++ [mkAlert (alert_type a) (alert_message a) (Some error)
          (Some (genId (nextId (state p))))]
  /\ (examTerminated (state p2) = true
      \/ exists i,
           timers (state p2) !! i = Some (0, DispatchBlur)
           /\ examTerminated (state (step (Timeout i) p2)) = true).
Proof.
  intros p Hactive Hty Hsev p1 p2.
  assert (Hinv : closures_behind p)
    by apply run_closures_behind, mount_closures_behind.
  clearbody p.
  assert (Hstop : includes (alert_type a) immediateStopTypes = true)
    by (by apply bool_decide_eq_true).
  assert (Hinv1 : closures_behind p1).
  { intros Hl. unfold p1, submit in *. cbn in *.
    rewrite addAlert_examTerminated. by apply Hinv. }
  split.
  - unfold p1, submit. cbn. rewrite addAlert_alerts, Hstop, Hsev. done.
  - assert (Hp1 : stop_pending p1).
    { right. exists (S (length (timers (state p)))).
      unfold p1, submit. cbn. rewrite addAlert_timers, Hstop.
      rewrite lookup_app_r by lia.
      by replace (S (length (timers (state p))) - length (timers (state p)))
        with 1 by lia. }
    destruct (run_stop_pending later p1 Hinv1 Hp1) as [Ht|[i Hi]]; [by left|].
    right. exists i. split; [done|].
    eapply fire_blur_terminates; [|exact Hi].
    by apply run_closures_behind.
Qed.

(** C9.  Leaving fullscreen records exactly one alert, of severity warning,
    and nothing else: [examTerminated] keeps its value (an active session
    stays active), no dialog, no navigation, no synthetic blur. *)
Theorem fullscreen_exit_warns_only p :
  let p' := step (FullscreenChange false) p in
  alerts (state p') =
    alerts (state p)
    ++ [mkAlert "fullscreen_exit"
          "Fullscreen mode exited - potential cheating attempt!"
          (Some warning) (Some (genId (nextId (state p))))]
  /\ examTerminated (state p') = examTerminated (state p)
  /\ navigations (state p') = navigations (state p)
  /\ dialogs (state p') = dialogs (state p)
  /\ timers (state p') =
       timers (state p) ++ [(5000, ExpireAlert (genId (nextId (state p))))].
Proof. repeat split. Qed.

End WithIds.

Lemma countdownTick_keeps s :
  examTerminated (countdownTick s) = examTerminated s
  /\ navigations (countdownTick s) = navigations s
  /\ alerts (countdownTick s) = alerts s.
Proof. unfold countdownTick. by destruct (timeLeft s <=? 1)%Z. Qed.

Lemma countdownTick_stays_zero s :
  timeLeft s = 0%Z -> timeLeft (countdownTick s) = 0%Z.
Proof. intros H. unfold countdownTick. by rewrite H. Qed.

(** C10.  When the countdown is at one second or less, the tick shows the
    time's-up dialog and sets the remaining time to 0; it does not
    terminate, navigate or add an alert, and neither does any number of
    further ticks, which keep the remaining time at 0. *)
Theorem countdown_expiry_only_shows_dialog s :
  (timeLeft s <= 1)%Z ->
  let s1 := countdownTick s in
  timeLeft s1 = 0%Z
  /\ dialogs s1 = dialogs s ++ ["Time's up! Your exam has been submitted."]
  /\ examTerminated s1 = examTerminated s
  /\ navigations s1 = navigations s
  /\ alerts s1 = alerts s
  /\ forall n,
       let sn := Nat.iter n countdownTick s1 in
       timeLeft sn = 0%Z
       /\ examTerminated sn = examTerminated s
       /\ navigations sn = navigations s
       /\ alerts sn = alerts s.
Proof.
  intros Hle s1.
  assert (E : s1 =
    setTimeLeft 0 (window_alert "Time's up! Your exam has been submitted." s)).
  { unfold s1, countdownTick. by rewrite (proj2 (Z.leb_le _ _) Hle). }
  rewrite E. do 5 (split; [done|]).
  intros n. cbv zeta. induction n as [|n IH]; [done|].
  rewrite Nat.iter_succ. destruct IH as (H0 & H1 & H2 & H3).
  destruct (countdownTick_keeps
    (Nat.iter n countdownTick
       (setTimeLeft 0
          (window_alert "Time's up! Your exam has been submitted." s))))
    as (K1 & K2 & K3).
  rewrite K1, K2, K3. split; [by apply countdownTick_stays_zero | done].
Qed.

(** Witness for [visibility_change_terminates]: a page that was focused
    once, then hidden. *)
Lemma visibility_change_terminates_witness :
  examTerminated
    (state (step pretty (VisibilityChange true) (run pretty [Focus] mount)))
  = true.
Proof.
  exact (proj1 (visibility_change_terminates pretty [Focus] eq_refl)).
Defined.

(** Witness for [immediate_stop_alert_terminates]: a multiple-faces alert
    followed by a focus event and a fullscreen exit. *)
Lemma immediate_stop_alert_terminates_witness :
  let a := mkAlert "multiple_faces" "Multiple faces detected" (Some error) None in
  let p2 := run pretty [Focus; FullscreenChange false]
              (submit pretty a (run pretty [] mount)) in
  examTerminated (state p2) = true
  \/ exists i,
      timers (state p2) !! i = Some (0, DispatchBlur)
      /\ examTerminated (state (step pretty (Timeout i) p2)) = true.
Proof.
  refine (proj2 (immediate_stop_alert_terminates pretty []
            (mkAlert "multiple_faces" "Multiple faces detected"
               (Some error) None)
            [Focus; FullscreenChange false] eq_refl _ eq_refl)).
  apply list_elem_of_here.
Defined.

(** Witness for [countdown_expiry_only_shows_dialog]: one second left. *)
Lemma countdown_expiry_only_shows_dialog_witness :
  timeLeft (countdownTick (setTimeLeft 1 initialState)) = 0%Z.
Proof.
  refine (proj1 (countdown_expiry_only_shows_dialog
                   (setTimeLeft 1 initialState) _)).
  cbn. lia.
Defined.

End ExamFacts.

(** * Properties of the multi-instance effect *)

Module MultiTabFacts.

Import Exam MultiTab.

Section WithIds.

Variable genId : nat -> string.
Variable broadcastChannel : bool.

Abbreviation openTab := (openTab genId broadcastChannel).
Abbreviation wstep := (wstep genId broadcastChannel).
Abbreviation wrun := (wrun genId broadcastChannel).
Abbreviation holder_and_loser := (holder_and_loser genId).

Lemma open_first idA :
  openTab idA emptyWorld =
  mkWorld (<[KEY := idA]> ∅)
    [mkTab idA mount firstRender true broadcastChannel broadcastChannel].
Proof.
  unfold MultiTab.openTab, multiTabEffect.
  cbn [localStorage tabs emptyWorld]. rewrite lookup_empty.
  cbn -[lookup insert].
  by rewrite bool_decide_eq_false_2 by done.
Qed.

Lemma open_two idA idB :
  truthy idA = true -> idA <> idB ->
  holder_and_loser idA idB (openTab idB (openTab idA emptyWorld)).
Proof.
  intros Htr Hne. rewrite open_first.
  unfold MultiTab.openTab, multiTabEffect. cbn [localStorage tabs].
  rewrite lookup_insert_eq. cbn -[lookup insert]. rewrite Htr.
  rewrite bool_decide_eq_false_2 by congruence. cbn -[lookup insert].
  eexists _, _. split; [reflexivity|].
  split; [apply lookup_insert_eq|]. by repeat split.
Qed.

Lemma wstep_holder_and_loser idA idB ev w :
  keepsTabs ev = true ->
  holder_and_loser idA idB w -> holder_and_loser idA idB (wstep ev w).
Proof.
  intros Hev (a & b & Htabs & Hls & Ha & Hsa & Hra & Hb & Hsb & Hl & Hc & Hp).
  destruct ev as [id|i|i]; [done| |]; cbn.
  - unfold rerenderTab. rewrite Htabs.
    destruct i as [|[|i]]; cbn.
    + rewrite Hsa, Hra. cbn.
      eexists _, _. split; [reflexivity|]. by repeat split.
    + destruct (bool_decide _) eqn:E; cbn.
      * eexists _, _. split; [reflexivity|]. by repeat split.
      * unfold multiTabCleanup. rewrite Hl. cbn.
        unfold multiTabEffect. rewrite Hsb. cbn.
        eexists _, _. split; [reflexivity|]. by repeat split.
    + exists a, b. by repeat split.
  - unfold firePresence. rewrite Htabs.
    destruct i as [|[|i]]; cbn.
    + destruct (presencePending a); [|exists a, b; by repeat split].
      destruct (channelOpen a); cbn.
      * unfold onMessage. rewrite Hc.
        eexists _, _. split; [reflexivity|]. by repeat split.
      * eexists _, _. split; [reflexivity|]. by repeat split.
    + rewrite Hp. exists a, b. by repeat split.
    + exists a, b. by repeat split.
Qed.

Lemma wrun_holder_and_loser idA idB evs w :
  forallb keepsTabs evs = true ->
  holder_and_loser idA idB w -> holder_and_loser idA idB (wrun evs w).
Proof.
  revert w. induction evs as [|ev evs IH]; intros w Hevs Hw; [done|].
  cbn in Hevs. apply andb_prop in Hevs as [Hev Hevs].
  cbn. apply IH; [done|]. by apply wstep_holder_and_loser.
Qed.

(** C5 (as the code has it).  When a second tab opens the exam while the
    first one holds the marker, the second tab finds the foreign owner on
    mount and terminates itself with the storage-lock reason; it neither
    claims the marker nor listens nor announces itself.  The first tab is
    told nothing and stays active, whatever re-renders and presence
    timeouts follow. *)
Theorem second_tab_terminates_itself idA idB later :
  truthy idA = true ->
  idA <> idB ->
  forallb keepsTabs later = true ->
  let w := wrun later (openTab idB (openTab idA emptyWorld)) in
  exists a b,
    tabs w = [a; b]
    /\ instanceId a = idA
    /\ terminated a = false
    /\ alerts (state (page a)) = []
    /\ navigations (state (page a)) = []
    /\ instanceId b = idB
    /\ terminated b = true
    /\ map alert_message (alerts (state (page b))) =
         ["Exam terminated: Multiple exam tabs detected (storage lock)"]
    /\ navigations (state (page b)) = ["/"]
    /\ storageListener b = false
    /\ channelOpen b = false
    /\ presencePending b = false
    /\ localStorage w !! KEY = Some idA.
Proof.
  intros Htr Hne Hlater w.
  destruct (wrun_holder_and_loser idA idB later _ Hlater
              (open_two idA idB Htr Hne))
    as (a & b & Htabs & Hls & Ha & Hsa & _ & Hb & Hsb & Hl & Hc & Hp).
  exists a, b. unfold terminated. rewrite Hsa, Hsb. by repeat split.
Qed.

End WithIds.

(** C5, refuted as stated: with tab "tab-a" opened first and "tab-b"
    second, after every presence timeout and re-render, it is not the case
    that the first tab is terminated and the second one active. *)
Lemma first_tab_not_the_one_terminated :
  let w :=
    wrun pretty true
      [PresenceTimeout 0; PresenceTimeout 1; RerenderTab 0; RerenderTab 1]
      (openTab pretty true "tab-b" (openTab pretty true "tab-a" emptyWorld)) in
  map terminated (tabs w) = [false; true]
  /\ ~ (map terminated (tabs w) = [true; false]).
Proof. vm_compute. split; [reflexivity | discriminate]. Qed.

(** Witness for [second_tab_terminates_itself]. *)
Lemma second_tab_terminates_itself_witness :
  exists a b,
    tabs (wrun pretty true [PresenceTimeout 0; RerenderTab 1]
            (openTab pretty true "tab-b"
               (openTab pretty true "tab-a" emptyWorld))) = [a; b]
    /\ instanceId a = "tab-a"
    /\ terminated a = false
    /\ alerts (state (page a)) = []
    /\ navigations (state (page a)) = []
    /\ instanceId b = "tab-b"
    /\ terminated b = true
    /\ map alert_message (alerts (state (page b))) =
         ["Exam terminated: Multiple exam tabs detected (storage lock)"]
    /\ navigations (state (page b)) = ["/"]
    /\ storageListener b = false
    /\ channelOpen b = false
    /\ presencePending b = false
    /\ localStorage
         (wrun pretty true [PresenceTimeout 0; RerenderTab 1]
            (openTab pretty true "tab-b"
               (openTab pretty true "tab-a" emptyWorld))) !! KEY
       = Some "tab-a".
Proof.
  apply (second_tab_terminates_itself pretty true "tab-a" "tab-b"
           [PresenceTimeout 0; RerenderTab 1]).
  - reflexivity.
  - discriminate.
  - reflexivity.
Defined.

End MultiTabFacts.

(** * Properties of the analysis tick *)

Module CameraFeedFacts.

Import CameraFeed.

(** *** Sustained seconds against the thresholds

    The interval is one second, so the comparisons are comparisons of the
    frame counters. *)

Lemma seconds_eq n : seconds n == inject_Z (Z.of_nat n).
Proof. unfold seconds, analysisIntervalMs. field. Qed.

Lemma Qle_bool_inject a b : Qle_bool (inject_Z a) (inject_Z b) = (a <=? b)%Z.
Proof. unfold Qle_bool. simpl. by rewrite !Z.mul_1_r. Qed.

Lemma seconds_ge_2 n : Qgeb (seconds n) 2 = (2 <=? n)%nat.
Proof.
  unfold Qgeb. rewrite seconds_eq.
  change 2%Q with (inject_Z 2). rewrite Qle_bool_inject.
  apply eq_true_iff_eq. rewrite Z.leb_le, Nat.leb_le. lia.
Qed.

Lemma seconds_ge_5 n : Qgeb (seconds n) 5 = (5 <=? n)%nat.
Proof.
  unfold Qgeb. rewrite seconds_eq.
  change 5%Q with (inject_Z 5). rewrite Qle_bool_inject.
  apply eq_true_iff_eq. rewrite Z.leb_le, Nat.leb_le. lia.
Qed.

Lemma seconds_ge_1_5 n : Qgeb (seconds n) 1.5 = (2 <=? n)%nat.
Proof.
  unfold Qgeb. rewrite seconds_eq.
  apply eq_true_iff_eq. rewrite Qle_bool_iff, Nat.leb_le.
  unfold Qle. simpl. lia.
Qed.

Lemma seconds_lt_start n :
  Qltb (seconds n) startEnforcementSeconds = (n <? 6)%nat.
Proof.
  unfold Qltb, startEnforcementSeconds. rewrite seconds_eq.
  change 6%Q with (inject_Z 6). rewrite Qle_bool_inject.
  apply eq_true_iff_eq. rewrite negb_true_iff, Z.leb_gt, Nat.ltb_lt. lia.
Qed.

(** *** The checks in closed form *)

Lemma darkCheck_eq f r :
  darkCheck (Some f) r =
  let n := if isDark f then consecutiveDarkFramesRef r + 1 else 0 in
  (fires (2 <=? n)%nat covered, setDarkFrames n r).
Proof.
  unfold darkCheck, bind, modify, get, when, emit, ret, fires.
  destruct (isDark f); cbn -[seconds Nat.leb]; rewrite seconds_ge_2;
    by destruct (2 <=? _)%nat.
Qed.

Lemma noFaceCheck_eq ls r :
  noFaceCheck ls r =
  let n := if faceAbsent ls then consecutiveNoFaceRef r + 1 else 0 in
  (fires (5 <=? n)%nat faceMissing, setNoFace n r).
Proof.
  unfold noFaceCheck, bind, modify, get, when, emit, ret, fires.
  destruct (faceAbsent ls); cbn -[seconds Nat.leb]; rewrite seconds_ge_5;
    by destruct (5 <=? _)%nat.
Qed.

Lemma gazeCheck_eq ls r :
  gazeCheck ls r =
  let n := if includes "gaze_away" ls || includes "looking_away" ls
           then consecutiveGazeAwayRef r + 1 else 0 in
  (fires (5 <=? n)%nat
     (mkViolation "gaze_away_prolonged" "Prolonged gaze away from screen"),
   setGazeAway n r).
Proof.
  unfold gazeCheck, bind, modify, get, when, emit, ret, fires.
  destruct (_ || _); cbn -[seconds Nat.leb]; rewrite seconds_ge_5;
    by destruct (5 <=? _)%nat.
Qed.

Lemma occlusionCheck_eq ls r :
  occlusionCheck ls r =
  let n := if some (fun l => includes l occlusionLabels) ls
           then consecutiveOcclusionRef r + 1 else 0 in
  (fires (2 <=? n)%nat
     (mkViolation "face_or_eyes_occluded"
        "Face or eyes are occluded/not visible"),
   setOcclusion n r).
Proof.
  unfold occlusionCheck, bind, modify, get, when, emit, ret, fires.
  destruct (some _ _); cbn -[seconds Nat.leb]; rewrite seconds_ge_2;
    by destruct (2 <=? _)%nat.
Qed.

Lemma blurCheck_eq v r :
  blurCheck (Some v) r =
  let n := if Qltb v 55 then consecutiveBlurFramesRef r + 1 else 0 in
  (fires (2 <=? n)%nat
     (mkViolation "face_blurred_start" "Face too blurred at exam start"),
   setBlurFrames n r).
Proof.
  unfold blurCheck, bind, modify, get, when, emit, ret, fires.
  destruct (Qltb v 55); cbn -[seconds Nat.leb]; rewrite seconds_ge_2;
    by destruct (2 <=? _)%nat.
Qed.

Lemma simpleOcclusionCheck_eq topMean lowMean r :
  simpleOcclusionCheck (Some (topMean, lowMean)) r =
  let n := if muchDarker topMean lowMean 0.5
           then consecutiveOcclusionRef r + 1 else 0 in
  (fires (2 <=? n)%nat
     (mkViolation "eyes_occluded_simple" "Eyes likely occluded/not visible"),
   setOcclusion n r).
Proof.
  unfold simpleOcclusionCheck, bind, modify, get, when, emit, ret, fires.
  destruct (muchDarker _ _ _); cbn -[seconds Nat.leb];
    rewrite seconds_ge_1_5; by destruct (2 <=? _)%nat.
Qed.

Lemma localOcclusionCheck_eq width height x y w h eyeMean lowerMean r :
  faceBoxLargeEnough width height x y w h = true ->
  localOcclusionCheck width height (Face x y w h (Some (eyeMean, lowerMean))) r
  = let n := if muchDarker eyeMean lowerMean 0.45
             then consecutiveOcclusionRef r + 1 else 0 in
    (fires (2 <=? n)%nat
       (mkViolation "eyes_occluded_local" "Eyes likely occluded/not visible"),
     setOcclusion n r).
Proof.
  intros Hbox.
  unfold localOcclusionCheck, bind, modify, get, when, emit, ret, fires.
  rewrite Hbox.
  destruct (muchDarker _ _ _); cbn -[seconds Nat.leb];
    rewrite seconds_ge_1_5; by destruct (2 <=? _)%nat.
Qed.

Lemma startWindowCheck_eq ls v r :
  startWindowCheck ls v r =
  if (startFramesRef r <? 6)%nat then
    let r1 := setStartFrames (startFramesRef r + 1) r in
    if includes "face_covered" ls || faceAbsent ls
    then (Return (Some notVisibleAtStart), r1)
    else blurCheck v r1
  else (Next tt, r).
Proof.
  unfold startWindowCheck, bind, modify, get, when, emit, ret.
  rewrite seconds_lt_start.
  destruct (startFramesRef r <? 6)%nat; [|done].
  by destruct (_ || _).
Qed.

Lemma faceSwitchCheck_eq res r :
  faceSwitchCheck res r =
  match currentFaceId res with
  | None => (Next tt, r)
  | Some currentId =>
      let r1 := if truthy_ref (initialFaceIdRef r) then r
                else setInitialFaceId (Some currentId) r in
      if truthy_ref (lastFaceIdRef r1)
         && negb (bool_decide (Some currentId = lastFaceIdRef r1))
         && negb (bool_decide (Some currentId = initialFaceIdRef r1))
      then (Return (Some faceSwitched), r1)
      else (Next tt, setLastFaceId (Some currentId) r1)
  end.
Proof.
  unfold faceSwitchCheck.
  destruct (currentFaceId res) as [c|]; [|done].
  unfold bind, modify, get, when, emit, ret.
  destruct (truthy_ref (initialFaceIdRef r)); cbn -[bool_decide];
    by destruct (_ && _).
Qed.

(** *** Composition lemmas for the tick monad *)

Lemma bind_Return {A B} (m : M A) (k : A -> M B) r v r' :
  bind m k r = (Return v, r') ->
  m r = (Return v, r')
  \/ exists a r1, m r = (Next a, r1) /\ k a r1 = (Return v, r').
Proof.
  unfold bind. destruct (m r) as [[v1|a] r1]; intros H.
  - left. by simplify_eq.
  - right. by exists a, r1.
Qed.

Lemma bind_Next {A B} (m : M A) (k : A -> M B) r b r' :
  bind m k r = (Next b, r') ->
  exists a r1, m r = (Next a, r1) /\ k a r1 = (Next b, r').
Proof.
  unfold bind. destruct (m r) as [[v1|a] r1]; intros H; [done|].
  by exists a, r1.
Qed.

Section Respects.

Context (R : Refs -> Refs -> Prop) `{!PreOrder R}.

Lemma respects_ret {A} (a : A) : respects R (ret a).
Proof. intros r. reflexivity. Qed.

Lemma respects_emit {A} ty msg : respects R (@emit A ty msg).
Proof. intros r. reflexivity. Qed.

Lemma respects_stop {A} : respects R (@stop A).
Proof. intros r. reflexivity. Qed.

Lemma respects_get : respects R get.
Proof. intros r. reflexivity. Qed.

Lemma respects_modify f : (forall r, R r (f r)) -> respects R (modify f).
Proof. intros H r. apply H. Qed.

Lemma respects_bind {A B} (m : M A) (k : A -> M B) :
  respects R m -> (forall a, respects R (k a)) -> respects R (bind m k).
Proof.
  intros Hm Hk r. unfold bind. specialize (Hm r).
  destruct (m r) as [[v|a] r1]; [done|].
  etrans; [exact Hm | apply Hk].
Qed.

Lemma respects_when b m : respects R m -> respects R (when b m).
Proof. destruct b; [done|]. intros _. apply respects_ret. Qed.

Lemma respects_if {A} (b : bool) (m1 m2 : M A) :
  respects R m1 -> respects R m2 -> respects R (if b then m1 else m2).
Proof. by destruct b. Qed.

End Respects.

Section EmitsOnly.

Context (P : string -> Prop).

Lemma emits_ret {A} (a : A) : emits_only P (ret a).
Proof. intros r v r' H. discriminate. Qed.

Lemma emits_stop {A} : emits_only P (@stop A).
Proof. intros r v r' H. discriminate. Qed.

Lemma emits_get : emits_only P get.
Proof. intros r v r' H. discriminate. Qed.

Lemma emits_modify f : emits_only P (modify f).
Proof. intros r v r' H. discriminate. Qed.

Lemma emits_emit {A} ty msg : P ty -> emits_only P (@emit A ty msg).
Proof. intros H r v r' E. unfold emit in E. by simplify_eq. Qed.

Lemma emits_bind {A B} (m : M A) (k : A -> M B) :
  emits_only P m -> (forall a, emits_only P (k a)) -> emits_only P (bind m k).
Proof.
  intros Hm Hk r v r' E.
  apply bind_Return in E as [E|(a & r1 & _ & E)].
  - by apply (Hm r v r').
  - by apply (Hk a r1 v r').
Qed.

Lemma emits_when b m : emits_only P m -> emits_only P (when b m).
Proof. destruct b; [done|]. intros _. apply emits_ret. Qed.

Lemma emits_if {A} (b : bool) (m1 m2 : M A) :
  emits_only P m1 -> emits_only P m2 -> emits_only P (if b then m1 else m2).
Proof. by destruct b. Qed.

End EmitsOnly.

(** Break a check into its primitive steps. *)
Ltac steps :=
  repeat first
    [ apply respects_bind; try exact _; [|intros ?]
    | apply respects_when; try exact _
    | by apply respects_ret | by apply respects_emit | by apply respects_stop
    | by apply respects_get | apply respects_if
    | apply emits_bind; [|intros ?] | apply emits_when
    | apply emits_ret | apply emits_stop | apply emits_get
    | apply emits_modify | apply emits_if
    | apply emits_emit
    | match goal with
      | |- respects _ (match ?x with _ => _ end) => destruct x
      | |- emits_only _ (match ?x with _ => _ end) => destruct x
      end ].

(** *** What each check leaves alone *)

Section ChecksRespect.

Context (R : Refs -> Refs -> Prop) `{!PreOrder R}.

Hypothesis occlusion_blind : forall n r, R r (setOcclusion n r).
Hypothesis start_blind : forall n r, R r (setStartFrames n r).
Hypothesis blur_blind : forall n r, R r (setBlurFrames n r).
Hypothesis noFace_blind : forall n r, R r (setNoFace n r).
Hypothesis gaze_blind : forall n r, R r (setGazeAway n r).

Ltac blind :=
  steps;
  try solve [apply respects_modify; intros ?;
             repeat match goal with
                    | |- context [if ?b then _ else _] => destruct b
                    end; auto].

Lemma localOcclusionCheck_respects w h d :
  respects R (localOcclusionCheck w h d).
Proof. unfold localOcclusionCheck. blind. Qed.

Lemma simpleOcclusionCheck_respects b : respects R (simpleOcclusionCheck b).
Proof. unfold simpleOcclusionCheck. blind. Qed.

Lemma backgroundCheck_respects ls : respects R (backgroundCheck ls).
Proof. unfold backgroundCheck. blind. Qed.

Lemma immediateChecks_respects ls : respects R (immediateChecks ls).
Proof. unfold immediateChecks. blind. Qed.

Lemma blurCheck_respects v : respects R (blurCheck v).
Proof. unfold blurCheck. blind. Qed.

Lemma startWindowCheck_respects ls v : respects R (startWindowCheck ls v).
Proof.
  unfold startWindowCheck. blind. apply blurCheck_respects.
Qed.

Lemma noFaceCheck_respects ls : respects R (noFaceCheck ls).
Proof. unfold noFaceCheck. blind. Qed.

Lemma gazeCheck_respects ls : respects R (gazeCheck ls).
Proof. unfold gazeCheck. blind. Qed.

Lemma occlusionCheck_respects ls : respects R (occlusionCheck ls).
Proof. unfold occlusionCheck. blind. Qed.

Hypothesis faceSwitch_respects : forall res, respects R (faceSwitchCheck res).

Lemma labelChecks_respects fd t ls res : respects R (labelChecks fd t ls res).
Proof.
  unfold labelChecks, localChecks. blind;
    auto using localOcclusionCheck_respects, simpleOcclusionCheck_respects,
      backgroundCheck_respects, immediateChecks_respects, blurCheck_respects,
      startWindowCheck_respects, noFaceCheck_respects, gazeCheck_respects,
      occlusionCheck_respects.
Qed.

Lemma afterDark_respects fd t :
  respects R (lr <- analyze (t_analysis t) ;; labelChecks fd t lr.1 lr.2).
Proof.
  apply respects_bind; try exact _.
  - unfold analyze. destruct (t_analysis t);
      [by apply respects_stop | by apply respects_ret].
  - intros lr. apply labelChecks_respects.
Qed.

End ChecksRespect.

(** *** What each check can emit *)

Section ChecksEmit.

Context (P : string -> Prop).

Lemma localOcclusionCheck_emits w h d :
  P "eyes_occluded_local" -> emits_only P (localOcclusionCheck w h d).
Proof. intros H. unfold localOcclusionCheck. steps. done. Qed.

Lemma simpleOcclusionCheck_emits b :
  P "eyes_occluded_simple" -> emits_only P (simpleOcclusionCheck b).
Proof. intros H. unfold simpleOcclusionCheck. steps. done. Qed.

Lemma backgroundCheck_emits ls :
  P "background_violation" -> emits_only P (backgroundCheck ls).
Proof. intros H. unfold backgroundCheck. steps. done. Qed.

Lemma immediateChecks_emits ls :
  P "multiple_faces" -> P "phone_detected" ->
  emits_only P (immediateChecks ls).
Proof. intros H1 H2. unfold immediateChecks. steps; done. Qed.

Lemma blurCheck_emits v :
  P "face_blurred_start" -> emits_only P (blurCheck v).
Proof. intros H. unfold blurCheck. steps. done. Qed.

Lemma startWindowCheck_emits ls v :
  P "face_not_visible_at_start" -> P "face_blurred_start" ->
  emits_only P (startWindowCheck ls v).
Proof.
  intros H1 H2. unfold startWindowCheck. steps; [done|].
  by apply blurCheck_emits.
Qed.

Lemma faceSwitchCheck_emits res :
  P "face_switched" -> emits_only P (faceSwitchCheck res).
Proof. intros H. unfold faceSwitchCheck. steps. done. Qed.

Lemma noFaceCheck_emits ls : P "face_missing" -> emits_only P (noFaceCheck ls).
Proof. intros H. unfold noFaceCheck. steps. done. Qed.

Lemma gazeCheck_emits ls :
  P "gaze_away_prolonged" -> emits_only P (gazeCheck ls).
Proof. intros H. unfold gazeCheck. steps. done. Qed.

Lemma occlusionCheck_emits ls :
  P "face_or_eyes_occluded" -> emits_only P (occlusionCheck ls).
Proof. intros H. unfold occlusionCheck. steps. done. Qed.

Lemma labelChecks_emits fd t ls res :
  Forall P labelCheckTypes -> emits_only P (labelChecks fd t ls res).
Proof.
  unfold labelCheckTypes. rewrite !Forall_cons.
  intros (? & ? & ? & ? & ? & ? & ? & ? & ? & ? & ? & _).
  unfold labelChecks, localChecks. steps;
    auto using localOcclusionCheck_emits, simpleOcclusionCheck_emits,
      backgroundCheck_emits, immediateChecks_emits, startWindowCheck_emits,
      blurCheck_emits, faceSwitchCheck_emits, noFaceCheck_emits,
      gazeCheck_emits, occlusionCheck_emits.
Qed.

Lemma afterDark_emits fd t :
  Forall P labelCheckTypes ->
  emits_only P (lr <- analyze (t_analysis t) ;; labelChecks fd t lr.1 lr.2).
Proof.
  intros H. apply emits_bind.
  - unfold analyze. destruct (t_analysis t);
      [apply emits_stop | apply emits_ret].
  - intros lr. by apply labelChecks_emits.
Qed.

End ChecksEmit.

(** *** The relations between references are preorders *)

#[local] Instance same_dark_preorder : PreOrder same_dark.
Proof.
  split; [by intros r | intros a b c; unfold same_dark; congruence].
Qed.

#[local] Instance same_identity_preorder : PreOrder same_identity.
Proof.
  split; [by intros r|].
  intros a b c [H1 H2] [H3 H4]. split; congruence.
Qed.

#[local] Instance same_label_state_preorder : PreOrder same_label_state.
Proof.
  split; [by intros r|].
  intros a b c (?&?&?&?&?&?&?) (?&?&?&?&?&?&?).
  unfold same_label_state. split_and!; congruence.
Qed.

#[local] Instance identity_kept_preorder : PreOrder identity_kept.
Proof.
  split; [by intros r|].
  intros a b c [H1 H2] [H3 H4]. split; [|tauto].
  intros i Hi Ha. apply H3; [done|]. by apply H1.
Qed.

Lemma faceSwitchCheck_same_dark res : respects same_dark (faceSwitchCheck res).
Proof.
  intros r. rewrite faceSwitchCheck_eq. unfold same_dark.
  by repeat case_match.
Qed.

Lemma afterDark_same_dark fd t :
  respects same_dark
    (lr <- analyze (t_analysis t) ;; labelChecks fd t lr.1 lr.2).
Proof.
  apply afterDark_respects; try exact _; try done.
  apply faceSwitchCheck_same_dark.
Qed.

(** *** One tick past the guards *)

Lemma tick_ready fd t r :
  ready t = true -> analysisInFlight r = false ->
  captureAndAnalyze fd t r =
  (match (analysis fd t (setInFlight true r)).1 with
   | Return v => v
   | Next _ => None
   end,
   setInFlight false (analysis fd t (setInFlight true r)).2).
Proof.
  unfold ready, captureAndAnalyze. intros Hr Hf.
  apply andb_prop in Hr as [Hr Hh]. apply andb_prop in Hr as [Hv Hw].
  rewrite Hv, Hf. apply negb_true_iff in Hw, Hh. rewrite Hw, Hh. cbn.
  by destruct (analysis fd t (setInFlight true r)) as [[v|[]] r'].
Qed.

Lemma inFlight_round_trip r :
  analysisInFlight r = false -> setInFlight false (setInFlight true r) = r.
Proof. destruct r. cbn. by intros ->. Qed.

Lemma setInFlight_setDarkFrames b n r :
  setInFlight b (setDarkFrames n r) = setDarkFrames n (setInFlight b r).
Proof. done. Qed.

(** *** Consecutive dark frames *)

Lemma tick_dark_again fd t r :
  ready t = true -> darkFrame t = true ->
  analysisInFlight r = false -> 1 <= consecutiveDarkFramesRef r ->
  captureAndAnalyze fd t r =
  (Some covered, setDarkFrames (consecutiveDarkFramesRef r + 1) r).
Proof.
  intros Hr Hd Hf Hn. rewrite tick_ready by done.
  unfold darkFrame in Hd. unfold analysis, bind.
  destruct (t_stats t) as [f|]; [|done].
  rewrite darkCheck_eq, Hd. cbn -[Nat.leb].
  replace (2 <=? consecutiveDarkFramesRef r + 1)%nat with true
    by (symmetry; apply Nat.leb_le; lia).
  cbn. f_equal. rewrite setInFlight_setDarkFrames.
  by rewrite inFlight_round_trip.
Qed.

Lemma tick_dark_first fd t r :
  ready t = true -> darkFrame t = true ->
  analysisInFlight r = false -> consecutiveDarkFramesRef r = 0 ->
  exists v r',
    captureAndAnalyze fd t r = (v, r')
    /\ v_type <$> v <> Some "camera_covered"
    /\ consecutiveDarkFramesRef r' = 1
    /\ analysisInFlight r' = false.
Proof.
  intros Hr Hd Hf Hn. rewrite tick_ready by done.
  set (rest := (lr <- analyze (t_analysis t) ;; labelChecks fd t lr.1 lr.2)).
  set (r1 := setDarkFrames 1 (setInFlight true r)).
  assert (E0 : analysis fd t (setInFlight true r) = rest r1).
  { unfold darkFrame in Hd. unfold analysis, bind at 1.
    destruct (t_stats t) as [f|]; [|done].
    rewrite darkCheck_eq, Hd. cbn -[bind]. by rewrite Hn. }
  rewrite E0.
  pose proof (afterDark_same_dark fd t r1) as Hkeep. fold rest in Hkeep.
  pose proof (afterDark_emits (fun ty => ty <> "camera_covered") fd t) as Hem.
  fold rest in Hem.
  destruct (rest r1) as [o r'] eqn:E.
  eexists _, _. split; [reflexivity|]. cbn. split_and!.
  - destruct o as [[v|]|[]]; cbn; try done.
    intros [= Hty]. revert Hty. eapply Hem; [|exact E].
    unfold labelCheckTypes. repeat constructor; discriminate.
  - by destruct r'.
  - by destruct r'.
Qed.

Lemma run_dark_again fd ts r :
  Forall (fun t => darkTick t = true) ts ->
  analysisInFlight r = false -> 1 <= consecutiveDarkFramesRef r ->
  runTicks fd ts r =
  (replicate (length ts) (Some covered),
   setDarkFrames (consecutiveDarkFramesRef r + length ts) r).
Proof.
  intros Hts. revert r.
  induction Hts as [|t ts Ht Hts IH]; intros r Hf Hn.
  - cbn. rewrite Nat.add_0_r. by destruct r.
  - apply andb_prop in Ht as [Hr Hd].
    cbn [runTicks]. rewrite tick_dark_again by done.
    rewrite IH; [|by destruct r|destruct r; cbn in *; lia].
    cbn [length replicate]. f_equal.
    replace (consecutiveDarkFramesRef r + S (length ts))
      with (consecutiveDarkFramesRef r + 1 + length ts) by lia.
    by destruct r.
Qed.

Lemma countType_cons ty v vs :
  countType ty (v :: vs) =
  (if bool_decide (v_type <$> v = Some ty) then 1 else 0) + countType ty vs.
Proof.
  unfold countType. rewrite filter_cons.
  by destruct (decide _) as [H|H];
    [rewrite bool_decide_eq_true_2|rewrite bool_decide_eq_false_2].
Qed.

Lemma countType_replicate ty n v :
  v_type v = ty -> countType ty (replicate n (Some v)) = n.
Proof.
  intros <-. induction n as [|n IH]; [done|].
  cbn [replicate]. rewrite countType_cons, IH.
  by rewrite bool_decide_eq_true_2.
Qed.

(** ** The claims about the analysis tick *)

(** C2 (as the code has it).  Over a run of consecutive dark ticks that
    starts with the dark-frame counter at 0, the first tick emits no
    [camera_covered] and every later tick emits one: a run of [n] ticks
    emits [n - 1] of them, not one.  Firing does not reset the counter: it
    stands at [n] after the run. *)
Theorem dark_run_fires_on_every_tick_after_the_first fd ts r :
  Forall (fun t => darkTick t = true) ts ->
  analysisInFlight r = false ->
  consecutiveDarkFramesRef r = 0 ->
  let vs := (runTicks fd ts r).1 in
  let r' := (runTicks fd ts r).2 in
  countType "camera_covered" vs = length ts - 1
  /\ (forall v, vs !! 0 = Some v -> v_type <$> v <> Some "camera_covered")
  /\ (forall k, 1 <= k < length ts -> vs !! k = Some (Some covered))
  /\ consecutiveDarkFramesRef r' = length ts.
Proof.
  intros Hts Hf Hn. destruct Hts as [|t ts Ht Hts].
  { cbn. split_and!; [done|done|intros; lia|done]. }
  apply andb_prop in Ht as [Hr Hd].
  destruct (tick_dark_first fd t r Hr Hd Hf Hn) as (v & r1 & E & Hv & Hd1 & Hf1).
  cbn [runTicks]. rewrite E.
  rewrite (run_dark_again fd ts r1 Hts Hf1) by lia.
  cbn [fst snd length]. split_and!.
  - rewrite countType_cons, countType_replicate by done.
    rewrite bool_decide_eq_false_2 by done. lia.
  - intros v0 [= <-]. done.
  - intros [|k] Hk; [lia|]. cbn. apply lookup_replicate_2. lia.
  - destruct r1; cbn in *. lia.
Qed.

(** *** Ticks that only report a missing face *)

#[local] Arguments darkCheck : simpl never.
#[local] Arguments localOcclusionCheck : simpl never.
#[local] Arguments simpleOcclusionCheck : simpl never.
#[local] Arguments backgroundCheck : simpl never.
#[local] Arguments immediateChecks : simpl never.
#[local] Arguments startWindowCheck : simpl never.
#[local] Arguments blurCheck : simpl never.
#[local] Arguments faceSwitchCheck : simpl never.
#[local] Arguments noFaceCheck : simpl never.
#[local] Arguments gazeCheck : simpl never.
#[local] Arguments occlusionCheck : simpl never.
#[local] Arguments seconds : simpl never.

Lemma darkCheck_bright st r :
  match st with Some f => negb (isDark f) | None => true end = true ->
  exists r', darkCheck st r = (Next tt, r') /\ same_label_state r r'
             /\ analysisInFlight r' = analysisInFlight r.
Proof.
  destruct st as [f|]; intros H.
  - apply negb_true_iff in H. rewrite darkCheck_eq, H. cbn.
    eexists. split; [reflexivity|]. by destruct r.
  - exists r. by split.
Qed.

Lemma local_checks_quiet fd t ls r :
  eyesNotDarker fd t = true ->
  exists r',
    localChecks fd t ls r = (Next tt, r')
    /\ consecutiveGazeAwayRef r' = consecutiveGazeAwayRef r
    /\ startFramesRef r' = startFramesRef r
    /\ consecutiveNoFaceRef r' = consecutiveNoFaceRef r
    /\ initialFaceIdRef r' = initialFaceIdRef r
    /\ lastFaceIdRef r' = lastFaceIdRef r
    /\ analysisInFlight r' = analysisInFlight r.
Proof.
  unfold eyesNotDarker, localChecks. intros H.
  destruct (noEyesLabel ls); [|exists r; by destruct fd].
  destruct fd; cbn -[Nat.leb].
  - destruct (t_detection t) as [| |x y w h [[e l]|]];
      try (exists r; by unfold localOcclusionCheck, bind;
           try destruct (faceBoxLargeEnough _ _ _ _ _ _)).
    destruct (faceBoxLargeEnough (t_videoWidth t) (t_videoHeight t) x y w h)
      eqn:Hbox.
    + unfold bind. rewrite localOcclusionCheck_eq by done.
      cbn in H. apply negb_true_iff in H. rewrite H. cbn.
      eexists. split; [reflexivity|]. by destruct r.
    + exists r. unfold localOcclusionCheck, bind. by rewrite Hbox.
  - destruct (t_bands t) as [[top low]|].
    + unfold bind. cbn. rewrite simpleOcclusionCheck_eq.
      apply negb_true_iff in H. rewrite H. cbn.
      eexists. split; [reflexivity|]. by destruct r.
    + exists r. by split.
Qed.

Lemma backgroundCheck_silent ls r :
  includes "background_motion" ls || includes "animated_background" ls
  || includes "virtual_background" ls = false ->
  backgroundCheck ls r = (Next tt, r).
Proof. intros H. unfold backgroundCheck. by rewrite H. Qed.

Lemma immediateChecks_silent ls r :
  includes "multiple_faces" ls = false ->
  includes "phone_detected" ls || includes "mobile_phone" ls = false ->
  immediateChecks ls r = (Next tt, r).
Proof. intros H1 H2. unfold immediateChecks, bind. by rewrite H1, H2. Qed.

Lemma noOtherFinding_cases ls :
  noOtherFinding ls = true ->
  (includes "background_motion" ls || includes "animated_background" ls
   || includes "virtual_background" ls = false)
  /\ includes "multiple_faces" ls = false
  /\ (includes "phone_detected" ls || includes "mobile_phone" ls = false)
  /\ (includes "gaze_away" ls || includes "looking_away" ls = false)
  /\ some (fun l => includes l occlusionLabels) ls = false.
Proof.
  unfold noOtherFinding. rewrite !andb_true_iff, !negb_true_iff. tauto.
Qed.

(** A tick past the start window whose labels only say that no face is
    there: the no-face counter advances, and [face_missing] is emitted as
    soon as, and as long as, it has reached 5. *)
Lemma tick_absent_face fd t ls r :
  ready t = true -> brightFrame t = true ->
  tickLabels t = Some ls -> faceAbsent ls = true -> noOtherFinding ls = true ->
  tickFaceId t = None -> eyesNotDarker fd t = true ->
  analysisInFlight r = false -> 6 <= startFramesRef r ->
  exists r',
    captureAndAnalyze fd t r =
      (if (5 <=? S (consecutiveNoFaceRef r))%nat then Some faceMissing
       else None, r')
    /\ consecutiveNoFaceRef r' = S (consecutiveNoFaceRef r)
    /\ startFramesRef r' = startFramesRef r
    /\ analysisInFlight r' = false.
Proof.
  intros Hr Hb Hls Habs Hno Hid Heyes Hf Hs.
  apply noOtherFinding_cases in Hno as (Hbg & Hmf & Hph & Hgz & Hoc).
  rewrite tick_ready by done.
  set (r0 := setInFlight true r).
  destruct (darkCheck_bright (t_stats t) r0 Hb)
    as (r1 & E1 & (_ & Hs1 & Hn1 & _) & _).
  unfold tickLabels in Hls. unfold tickFaceId in Hid.
  destruct (t_analysis t) as [|result] eqn:Ea; [done|]. injection Hls as Hls.
  destruct (local_checks_quiet fd t ls r1 Heyes)
    as (r2 & E2 & _ & Hs2 & Hn2 & _).
  remember (5 <=? S (consecutiveNoFaceRef r))%nat as b eqn:Eb.
  assert (E : analysis fd t r0 =
    (if b
     then (Return (Some faceMissing),
           setNoFace (S (consecutiveNoFaceRef r)) r2)
     else (Next tt,
           setOcclusion 0
             (setGazeAway 0 (setNoFace (S (consecutiveNoFaceRef r)) r2))))).
  { unfold analysis, bind. rewrite E1, Ea. cbn. rewrite Hls.
    unfold labelChecks, bind. rewrite E2.
    rewrite backgroundCheck_silent, immediateChecks_silent by done.
    rewrite startWindowCheck_eq.
    replace (startFramesRef r2 <? 6)%nat with false
      by (symmetry; apply Nat.ltb_ge; subst r0; destruct r; cbn in *; lia).
    rewrite faceSwitchCheck_eq, Hid, noFaceCheck_eq, Habs. cbv zeta.
    replace (consecutiveNoFaceRef r2 + 1) with (S (consecutiveNoFaceRef r))
      by (subst r0; destruct r; cbn in *; lia).
    rewrite <- Eb. destruct b; [done|].
    cbn. rewrite gazeCheck_eq, Hgz. cbn.
    rewrite occlusionCheck_eq, Hoc. done. }
  rewrite E.
  destruct b; (eexists; split; [reflexivity|]); cbn;
    (split_and!; [done | by rewrite Hs2, Hs1 | done]).
Qed.

Lemma tick_only_no_face fd t r :
  reportsOnlyNoFace fd t = true ->
  analysisInFlight r = false -> 6 <= startFramesRef r ->
  exists r',
    captureAndAnalyze fd t r =
      (if (5 <=? S (consecutiveNoFaceRef r))%nat then Some faceMissing
       else None, r')
    /\ consecutiveNoFaceRef r' = S (consecutiveNoFaceRef r)
    /\ startFramesRef r' = startFramesRef r
    /\ analysisInFlight r' = false.
Proof.
  unfold reportsOnlyNoFace. rewrite !andb_true_iff, !bool_decide_eq_true.
  intros ((((Hr & Hb) & Hls) & Hid) & Heyes) Hf Hs.
  by apply (tick_absent_face fd t ["no_face"]).
Qed.

Lemma run_only_no_face fd ts r :
  Forall (fun t => reportsOnlyNoFace fd t = true) ts ->
  analysisInFlight r = false -> 6 <= startFramesRef r ->
  length (runTicks fd ts r).1 = length ts
  /\ consecutiveNoFaceRef (runTicks fd ts r).2
     = consecutiveNoFaceRef r + length ts
  /\ forall k v,
       (runTicks fd ts r).1 !! k = Some v ->
       v = if (5 <=? consecutiveNoFaceRef r + S k)%nat
           then Some faceMissing else None.
Proof.
  intros Hts. revert r.
  induction Hts as [|t ts Ht Hts IH]; intros r Hf Hs.
  { cbn. split_and!; [done|lia|done]. }
  destruct (tick_only_no_face fd t r Ht Hf Hs) as (r1 & E & Hn1 & Hs1 & Hf1).
  destruct (IH r1 Hf1 ltac:(lia)) as (IHlen & IHn & IHk).
  cbn [runTicks]. rewrite E.
  destruct (runTicks fd ts r1) as [vs r2]. cbn [fst snd length] in *.
  split_and!; [lia|lia|].
  intros [|k] v Hk; cbn in Hk.
  - injection Hk as <-. by rewrite Nat.add_1_r.
  - apply IHk in Hk. rewrite Hk, Hn1.
    by replace (S (consecutiveNoFaceRef r) + S k)
      with (consecutiveNoFaceRef r + S (S k)) by lia.
Qed.

(** C3 (as the code has it).  Six consecutive ticks past the start window,
    each reporting only [no_face], starting with the no-face counter at 0:
    nothing is emitted on the first four, [face_missing] is emitted on the
    fifth, when the sustained time reaches 5 seconds, and again on the
    sixth, since the counter keeps counting.  Two violations, not one. *)
Theorem six_no_face_ticks_emit_face_missing_twice fd ts r :
  length ts = 6 ->
  Forall (fun t => reportsOnlyNoFace fd t = true) ts ->
  analysisInFlight r = false ->
  6 <= startFramesRef r ->
  consecutiveNoFaceRef r = 0 ->
  let vs := (runTicks fd ts r).1 in
  vs = [None; None; None; None; Some faceMissing; Some faceMissing]
  /\ countType "face_missing" vs = 2
  /\ consecutiveNoFaceRef (runTicks fd ts r).2 = 6.
Proof.
  intros Hlen Hts Hf Hs Hn vs.
  destruct (run_only_no_face fd ts r Hts Hf Hs) as (Hl & Hc & Hk).
  fold vs in Hl, Hk. rewrite Hn, Hlen in *.
  assert (E : vs = [None; None; None; None; Some faceMissing; Some faceMissing]).
  { clearbody vs.
    do 6 (destruct vs as [|? vs]; [done|]). destruct vs; [|done].
    repeat f_equal.
    - by apply (Hk 0).
    - by apply (Hk 1).
    - by apply (Hk 2).
    - by apply (Hk 3).
    - by apply (Hk 4).
    - by apply (Hk 5). }
  rewrite E. by split_and!.
Qed.

(** *** Ticks whose analysis call fails or returns no labels *)

Lemma tick_emits fd t r (P : string -> Prop) :
  emits_only P (analysis fd t) ->
  forall x, (captureAndAnalyze fd t r).1 = Some x -> P (v_type x).
Proof.
  intros Hem x. unfold captureAndAnalyze.
  destruct (negb (t_video t) || analysisInFlight r); [done|].
  destruct ((t_videoWidth t =? 0)%Z || (t_videoHeight t =? 0)%Z); [done|].
  destruct (analysis fd t (setInFlight true r)) as [[v|[]] r'] eqn:E;
    cbn; [|done].
  intros ->. by eapply Hem.
Qed.

Lemma darkCheck_emits (P : string -> Prop) st :
  P "camera_covered" -> emits_only P (darkCheck st).
Proof. intros H. unfold darkCheck. steps. done. Qed.

Lemma never_returns_emits {A} (P : string -> Prop) (m : M A) :
  (forall r, exists a r', m r = (Next a, r')) -> emits_only P m.
Proof. intros H r v r' E. destruct (H r) as (a & r1 & E1). congruence. Qed.

Lemma labelChecks_absent_emits fd t ls res (P : string -> Prop) :
  noOtherFinding ls = true -> faceAbsent ls = true ->
  P "eyes_occluded_local" -> P "eyes_occluded_simple" ->
  P "face_not_visible_at_start" -> P "face_switched" -> P "face_missing" ->
  emits_only P (labelChecks fd t ls res).
Proof.
  intros Hno Habs P1 P2 P3 P4 P5.
  apply noOtherFinding_cases in Hno as (Hbg & Hmf & Hph & Hgz & Hoc).
  unfold labelChecks.
  apply emits_bind; [|intros _].
  { unfold localChecks. steps;
      auto using localOcclusionCheck_emits, simpleOcclusionCheck_emits. }
  apply emits_bind; [|intros _].
  { apply never_returns_emits. intros r. eexists _, _.
    by apply backgroundCheck_silent. }
  apply emits_bind; [|intros _].
  { apply never_returns_emits. intros r. eexists _, _.
    by apply immediateChecks_silent. }
  apply emits_bind; [|intros _].
  { intros r v r'. rewrite startWindowCheck_eq, Habs, orb_true_r.
    destruct (startFramesRef r <? 6)%nat; [|done]. by intros [= <- _]. }
  apply emits_bind; [by apply faceSwitchCheck_emits|intros _].
  apply emits_bind; [by apply noFaceCheck_emits|intros _].
  apply emits_bind; [|intros _].
  { apply never_returns_emits. intros r. eexists _, _.
    by rewrite gazeCheck_eq, Hgz. }
  apply never_returns_emits. intros r. eexists _, _.
  by rewrite occlusionCheck_eq, Hoc.
Qed.

Lemma tick_rejects fd t r :
  ready t = true -> analysisInFlight r = false -> t_analysis t = Rejects ->
  ((captureAndAnalyze fd t r).1 = None
   \/ (captureAndAnalyze fd t r).1 = Some covered)
  /\ same_label_state r (captureAndAnalyze fd t r).2.
Proof.
  intros Hr Hf Ha. rewrite tick_ready by done.
  unfold analysis, bind. rewrite Ha.
  destruct (t_stats t) as [f|].
  - rewrite darkCheck_eq. cbv zeta.
    destruct (2 <=? _)%nat; cbn; (split; [auto|by destruct r]).
  - cbn. split; [auto|by destruct r].
Qed.

Lemma tick_absent_in_start_window fd t ls r :
  ready t = true -> brightFrame t = true ->
  tickLabels t = Some ls -> faceAbsent ls = true -> noOtherFinding ls = true ->
  eyesNotDarker fd t = true ->
  analysisInFlight r = false -> startFramesRef r < 6 ->
  (captureAndAnalyze fd t r).1 = Some notVisibleAtStart.
Proof.
  intros Hr Hb Hls Habs Hno Heyes Hf Hs.
  apply noOtherFinding_cases in Hno as (Hbg & Hmf & Hph & Hgz & Hoc).
  rewrite tick_ready by done.
  set (r0 := setInFlight true r).
  destruct (darkCheck_bright (t_stats t) r0 Hb)
    as (r1 & E1 & (_ & Hs1 & _) & _).
  unfold tickLabels in Hls.
  destruct (t_analysis t) as [|result] eqn:Ea; [done|]. injection Hls as Hls.
  destruct (local_checks_quiet fd t ls r1 Heyes) as (r2 & E2 & _ & Hs2 & _).
  unfold analysis, bind. rewrite E1, Ea. cbn. rewrite Hls.
  unfold labelChecks, bind. rewrite E2.
  rewrite backgroundCheck_silent, immediateChecks_silent by done.
  rewrite startWindowCheck_eq, Habs, orb_true_r.
  replace (startFramesRef r2 <? 6)%nat with true; [done|].
  symmetry. apply Nat.ltb_lt. rewrite Hs2, Hs1. by destruct r.
Qed.

Lemma analysis_absent_emits fd t ls :
  tickLabels t = Some ls -> noOtherFinding ls = true -> faceAbsent ls = true ->
  emits_only (fun ty => ty ∈ absentFaceTypes) (analysis fd t).
Proof.
  intros Hls Hno Habs. unfold tickLabels in Hls.
  destruct (t_analysis t) as [|result] eqn:Ea; [done|]. injection Hls as Hls.
  unfold analysis. rewrite Ea.
  apply emits_bind; [|intros _].
  { apply darkCheck_emits. unfold absentFaceTypes. set_solver. }
  intros r v r' E.
  apply bind_Return in E as [E|(lr & r1 & E1 & E)]; [done|].
  unfold analyze, ret in E1. injection E1 as <- <-. cbn [fst snd] in E.
  rewrite Hls in E.
  eapply (labelChecks_absent_emits fd t ls (detailsOf result));
    [done|done|..|exact E]; unfold absentFaceTypes; set_solver.
Qed.

(** C4 (as the code has it).  A tick whose analysis call fails changes
    nothing but the darkness counter and emits nothing but, possibly,
    [camera_covered].  A tick whose call returns no labels is handled as a
    tick without [face_present]: it can emit only the local violations,
    [face_not_visible_at_start], [face_switched] and [face_missing]; with
    the local checks silent it emits [face_not_visible_at_start] when the
    start window is open, and past the start window it advances the no-face
    counter and emits [face_missing] once that counter has reached 5.
    Whatever the tick emits, the page callback terminates the exam on it. *)
Theorem failed_analysis_is_swallowed_empty_labels_mean_no_face fd t r :
  ready t = true ->
  analysisInFlight r = false ->
  let v := (captureAndAnalyze fd t r).1 in
  let r' := (captureAndAnalyze fd t r).2 in
  (t_analysis t = Rejects ->
     (v = None \/ v = Some covered) /\ same_label_state r r')
  /\ (tickLabels t = Some [] ->
      (forall x, v = Some x -> v_type x ∈ absentFaceTypes)
      /\ (brightFrame t = true -> eyesNotDarker fd t = true ->
          (startFramesRef r < 6 -> v = Some notVisibleAtStart)
          /\ (6 <= startFramesRef r -> tickFaceId t = None ->
              v = (if (5 <=? S (consecutiveNoFaceRef r))%nat
                   then Some faceMissing else None)
              /\ consecutiveNoFaceRef r' = S (consecutiveNoFaceRef r))))
  /\ (forall genId x s,
        v = Some x ->
        Exam.examTerminated
          (Exam.onViolation genId Exam.cameraCallbacks
             (v_type x) (v_message x) s)
        = true).
Proof.
  intros Hr Hf v r'. split_and!.
  - intros Ha. by apply tick_rejects.
  - intros Hls. split.
    + apply (tick_emits fd t r (fun ty => ty ∈ absentFaceTypes)).
      by apply (analysis_absent_emits fd t []).
    + intros Hb Heyes. split.
      * intros Hs. by apply (tick_absent_in_start_window fd t []).
      * intros Hs Hid.
        destruct (tick_absent_face fd t [] r) as (r1 & E & Hn & _); try done.
        subst v r'. rewrite E. done.
  - intros genId x s _. unfold Exam.onViolation.
    by apply ExamFacts.terminateExam_runs.
Qed.

(** *** Face identity *)

Lemma currentFaceId_truthy res c : currentFaceId res = Some c -> truthy c = true.
Proof.
  unfold currentFaceId.
  destruct (truthy_ref (face_id res)) eqn:E1.
  - intros H. rewrite H in E1. exact E1.
  - destruct (truthy_ref (face_signature res)) eqn:E2; [|done].
    intros H. rewrite H in E2. exact E2.
Qed.

Lemma faceSwitchCheck_identity_kept res :
  respects identity_kept (faceSwitchCheck res).
Proof.
  intros r. rewrite faceSwitchCheck_eq.
  destruct (currentFaceId res) as [c|] eqn:Ec; [|reflexivity].
  apply currentFaceId_truthy in Ec.
  split.
  - intros i Hi Hinit. cbv zeta. rewrite Hinit. cbn [truthy_ref]. rewrite Hi.
    by destruct (_ && _).
  - intros [[Hinit Hlast]|(i & Hi & Hinit & Hlast)]; cbv zeta.
    + rewrite Hinit. cbn. rewrite Hlast. cbn.
      right. exists c. by destruct r.
    + rewrite Hinit. cbn [truthy_ref]. rewrite Hi, Hlast, Hinit.
      cbn [truthy_ref]. rewrite Hi. cbn [andb].
      destruct (bool_decide (Some c = Some i)) eqn:E; cbn.
      * apply bool_decide_eq_true in E as [= ->].
        right. exists i. by destruct r.
      * right. exists i. done.
Qed.

Lemma darkCheck_respects (R : Refs -> Refs -> Prop) `{!PreOrder R} st :
  (forall n r, R r (setDarkFrames n r)) -> respects R (darkCheck st).
Proof.
  intros H. unfold darkCheck. steps.
  apply respects_modify. intros r. by destruct (isDark _).
Qed.

Lemma analysis_identity_kept fd t : respects identity_kept (analysis fd t).
Proof.
  unfold analysis. apply respects_bind; try exact _.
  - apply darkCheck_respects; [exact _|]. intros n r. by destruct r.
  - intros _. apply afterDark_respects; try exact _;
      try (intros n r; by destruct r).
    apply faceSwitchCheck_identity_kept.
Qed.

Lemma tick_identity_kept fd t r :
  identity_kept r (captureAndAnalyze fd t r).2.
Proof.
  unfold captureAndAnalyze.
  destruct (negb (t_video t) || analysisInFlight r); [reflexivity|].
  destruct ((t_videoWidth t =? 0)%Z || (t_videoHeight t =? 0)%Z).
  { by destruct r. }
  pose proof (analysis_identity_kept fd t (setInFlight true r)) as H.
  destruct (analysis fd t (setInFlight true r)) as [[v|[]] r'];
    destruct r, r'; exact H.
Qed.

Lemma run_identity_kept fd ts r : identity_kept r (runTicks fd ts r).2.
Proof.
  revert r. induction ts as [|t ts IH]; intros r; [reflexivity|].
  cbn [runTicks].
  pose proof (tick_identity_kept fd t r) as H1.
  destruct (captureAndAnalyze fd t r) as [v r1].
  pose proof (IH r1) as H2. destruct (runTicks fd ts r1) as [vs r2].
  etrans; [exact H1 | exact H2].
Qed.

Lemma run_identity_settled fd ts :
  identity_settled (runTicks fd ts initialRefs).2.
Proof. apply run_identity_kept. by left. Qed.

(** With the identity settled, the switch check fires exactly when a first
    signature was recorded and the current one differs from it. *)
Lemma faceSwitchCheck_decision res c r :
  identity_settled r -> currentFaceId res = Some c ->
  (faceSwitchCheck res r).1 = Return (Some faceSwitched)
  <-> exists i, initialFaceIdRef r = Some i /\ c <> i.
Proof.
  intros Hset Hc. rewrite faceSwitchCheck_eq, Hc. cbv zeta.
  destruct Hset as [[Hinit Hlast]|(i & Hi & Hinit & Hlast)].
  - rewrite Hinit. cbn. rewrite Hlast. cbn.
    split; [done|]. by intros (i & ? & _).
  - rewrite Hinit. cbn [truthy_ref]. rewrite Hi, Hlast, Hinit.
    cbn [truthy_ref]. rewrite Hi. cbn [andb].
    destruct (bool_decide (Some c = Some i)) eqn:E; cbn.
    + apply bool_decide_eq_true in E as [= ->].
      split; [done|]. by intros (j & [= <-] & Hne).
    + apply bool_decide_eq_false in E.
      split; [|done]. intros _. exists i. split; [done|]. congruence.
Qed.

Lemma bind_stage {A B} (P : string -> Prop) (R : Refs -> Refs -> Prop)
    (m : M A) (k : A -> M B) r v r' :
  emits_only P m -> respects R m -> ~ P (v_type v) ->
  bind m k r = (Return (Some v), r') ->
  exists a r1, R r r1 /\ k a r1 = (Return (Some v), r').
Proof.
  intros Hem Hre Hv E.
  apply bind_Return in E as [E|(a & r1 & E1 & E)].
  - destruct Hv. by eapply Hem.
  - exists a, r1. split; [|done]. specialize (Hre r). by rewrite E1 in Hre.
Qed.

Lemma localChecks_emits (P : string -> Prop) fd t ls :
  P "eyes_occluded_local" -> P "eyes_occluded_simple" ->
  emits_only P (localChecks fd t ls).
Proof.
  intros H1 H2. unfold localChecks. steps;
    auto using localOcclusionCheck_emits, simpleOcclusionCheck_emits.
Qed.

Lemma localChecks_same_identity fd t ls :
  respects same_identity (localChecks fd t ls).
Proof.
  unfold localChecks. steps;
    [apply localOcclusionCheck_respects|apply simpleOcclusionCheck_respects];
    try exact _; intros n r; by destruct r.
Qed.

(** A tick emits [face_switched] only when a first signature had been
    recorded before the tick and the signature of the tick differs from
    it. *)
Lemma tick_face_switched fd t r x :
  identity_settled r ->
  (captureAndAnalyze fd t r).1 = Some x -> v_type x = "face_switched" ->
  exists i c,
    initialFaceIdRef r = Some i /\ tickFaceId t = Some c /\ c <> i.
Proof.
  intros Hset. unfold captureAndAnalyze.
  destruct (negb (t_video t) || analysisInFlight r); [done|].
  destruct ((t_videoWidth t =? 0)%Z || (t_videoHeight t =? 0)%Z); [done|].
  destruct (analysis fd t (setInFlight true r)) as [[v|[]] r'] eqn:E;
    cbn; [|done].
  intros -> Hty.
  assert (Hnot : ~ (fun ty => ty <> "face_switched") (v_type x)) by tauto.
  assert (Hset0 : same_identity r (setInFlight true r)) by (by destruct r).
  unfold analysis in E.
  eapply (bind_stage (fun ty => ty <> "face_switched") same_identity) in E as (_ & r1 & H1 & E);
    [| by apply darkCheck_emits
     | apply (darkCheck_respects same_identity); intros n r0; by destruct r0
     | exact Hnot].
  apply bind_Return in E as [E|(lr & r2 & E2 & E)].
  { unfold analyze in E. by destruct (t_analysis t). }
  unfold tickFaceId. unfold analyze in E2.
  destruct (t_analysis t) as [|result]; [done|].
  unfold ret in E2. injection E2 as <- <-. cbn [fst snd] in E.
  unfold labelChecks in E.
  eapply (bind_stage (fun ty => ty <> "face_switched") same_identity) in E as (_ & r3 & H3 & E);
    [| by apply localChecks_emits | apply localChecks_same_identity
     | exact Hnot].
  eapply (bind_stage (fun ty => ty <> "face_switched") same_identity) in E as (_ & r4 & H4 & E);
    [| by apply backgroundCheck_emits
     | apply (backgroundCheck_respects same_identity) | exact Hnot].
  eapply (bind_stage (fun ty => ty <> "face_switched") same_identity) in E as (_ & r5 & H5 & E);
    [| by apply immediateChecks_emits
     | apply (immediateChecks_respects same_identity) | exact Hnot].
  eapply (bind_stage (fun ty => ty <> "face_switched") same_identity) in E as (_ & r6 & H6 & E);
    [| by apply startWindowCheck_emits
     | apply (startWindowCheck_respects same_identity);
       intros n r0; by destruct r0
     | exact Hnot].
  assert (Hsame : same_identity r r6).
  { etrans; [exact Hset0|]. etrans; [exact H1|]. etrans; [exact H3|].
    etrans; [exact H4|]. etrans; [exact H5|]. exact H6. }
  destruct Hsame as [Hi Hl].
  assert (Hset6 : identity_settled r6).
  { unfold identity_settled. rewrite Hi, Hl. exact Hset. }
  apply bind_Return in E as [E|(_ & r7 & _ & E)].
  - destruct (currentFaceId (detailsOf result)) as [c|] eqn:Ec.
    + destruct (faceSwitchCheck_decision (detailsOf result) c r6 Hset6 Ec)
        as [Hfire _].
      destruct Hfire as (i & Hinit & Hne).
      * rewrite E. cbn. rewrite faceSwitchCheck_eq, Ec in E. cbv zeta in E.
        destruct (_ && _) in E; [|done]. by injection E as <- _.
      * exists i, c. by rewrite <- Hi.
    + rewrite faceSwitchCheck_eq, Ec in E. done.
  - exfalso. revert E.
    assert (Hem : emits_only (fun ty => ty <> "face_switched")
              (noFaceCheck (labelsOf result) ;;;
               gazeCheck (labelsOf result) ;;;
               occlusionCheck (labelsOf result))).
    { apply emits_bind; [by apply noFaceCheck_emits|intros _].
      apply emits_bind; [by apply gazeCheck_emits|intros _].
      by apply occlusionCheck_emits. }
    intros E. by apply Hem in E.
Qed.

(** The tick is its part before the identity comparison, followed by the
    comparison and the three counters after it. *)
Lemma analysis_split fd t r :
  analysis fd t r =
  (lr <- beforeFaceSwitch fd t ;;
   faceSwitchCheck lr.2 ;;;
   noFaceCheck lr.1 ;;;
   gazeCheck lr.1 ;;;
   occlusionCheck lr.1) r.
Proof.
  unfold analysis, beforeFaceSwitch, labelChecks, bind, ret.
  destruct (darkCheck (t_stats t) r) as [[?|[]] r1]; [done|].
  destruct (analyze (t_analysis t) r1) as [[?|lr] r2]; [done|].
  cbn [fst snd].
  destruct (localChecks fd t lr.1 r2) as [[?|[]] r3]; [done|].
  destruct (backgroundCheck lr.1 r3) as [[?|[]] r4]; [done|].
  destruct (immediateChecks lr.1 r4) as [[?|[]] r5]; [done|].
  by destruct (startWindowCheck lr.1 (t_varLap t) r5) as [[?|[]] r6].
Qed.

Lemma beforeFaceSwitch_same_identity fd t :
  respects same_identity (beforeFaceSwitch fd t).
Proof.
  unfold beforeFaceSwitch.
  apply respects_bind; try exact _.
  { apply darkCheck_respects; [exact _|]. intros n r. by destruct r. }
  intros _. apply respects_bind; try exact _.
  { unfold analyze. destruct (t_analysis t);
      [apply respects_stop|apply respects_ret]; exact _. }
  intros lr. apply respects_bind; try exact _.
  { apply localChecks_same_identity. }
  intros _. apply respects_bind; try exact _.
  { apply (backgroundCheck_respects same_identity). }
  intros _. apply respects_bind; try exact _.
  { apply (immediateChecks_respects same_identity). }
  intros _. apply respects_bind; try exact _.
  { apply (startWindowCheck_respects same_identity);
      intros n r; by destruct r. }
  intros _. apply respects_ret. exact _.
Qed.

Lemma beforeFaceSwitch_emits fd t :
  emits_only (fun ty => ty <> "face_switched") (beforeFaceSwitch fd t).
Proof.
  unfold beforeFaceSwitch.
  apply emits_bind; [by apply darkCheck_emits|intros _].
  apply emits_bind.
  { unfold analyze. intros r v r'. by destruct (t_analysis t). }
  intros lr.
  apply emits_bind; [by apply localChecks_emits|intros _].
  apply emits_bind; [by apply backgroundCheck_emits|intros _].
  apply emits_bind; [by apply immediateChecks_emits|intros _].
  apply emits_bind; [by apply startWindowCheck_emits|intros _].
  by intros r v r'.
Qed.

Lemma beforeFaceSwitch_Next fd t r lr r' :
  beforeFaceSwitch fd t r = (Next lr, r') ->
  exists result,
    t_analysis t = Resolves result
    /\ lr = (labelsOf result, detailsOf result).
Proof.
  unfold beforeFaceSwitch. intros E.
  apply bind_Next in E as (_ & r1 & _ & E).
  apply bind_Next in E as (lr0 & r2 & Ea & E).
  unfold analyze in Ea. destruct (t_analysis t) as [|result]; [done|].
  injection Ea as <- <-. exists result. split; [done|].
  apply bind_Next in E as (_ & r3 & _ & E).
  apply bind_Next in E as (_ & r4 & _ & E).
  apply bind_Next in E as (_ & r5 & _ & E).
  apply bind_Next in E as (_ & r6 & _ & E).
  by injection E as <- _.
Qed.

(** The decision of the identity comparison, in any state. *)
Lemma faceSwitchCheck_fires res r :
  (faceSwitchCheck res r).1 = Return (Some faceSwitched)
  <-> exists c,
        currentFaceId res = Some c
        /\ truthy_ref (initialFaceIdRef r) = true
        /\ truthy_ref (lastFaceIdRef r) = true
        /\ Some c <> lastFaceIdRef r
        /\ Some c <> initialFaceIdRef r.
Proof.
  rewrite faceSwitchCheck_eq.
  destruct (currentFaceId res) as [c|]; [|split; [done|by intros (? & ? & _)]].
  cbv zeta. destruct (truthy_ref (initialFaceIdRef r)) eqn:Hi.
  - destruct (truthy_ref (lastFaceIdRef r)) eqn:Hl; cbn [andb].
    + destruct (bool_decide (Some c = lastFaceIdRef r)) eqn:E1; cbn [negb andb].
      * apply bool_decide_eq_true in E1.
        split; [done|]. by intros (? & [= <-] & _ & _ & ? & _).
      * apply bool_decide_eq_false in E1.
        destruct (bool_decide (Some c = initialFaceIdRef r)) eqn:E2; cbn [negb].
        -- apply bool_decide_eq_true in E2.
           split; [done|]. by intros (? & [= <-] & _ & _ & _ & ?).
        -- apply bool_decide_eq_false in E2.
           split; [|done]. intros _. by exists c.
    + split; [done|]. by intros (? & _ & _ & ? & _).
  - cbn. rewrite (bool_decide_eq_true_2 (Some c = Some c)) by done.
    rewrite andb_false_r.
    split; [done|]. by intros (? & _ & ? & _).
Qed.

(** A tick emits [face_switched] exactly when it reaches the identity
    comparison with a signature that differs from a recorded last and a
    recorded first one. *)
Lemma tick_face_switched_exactly fd t r :
  (captureAndAnalyze fd t r).1 = Some faceSwitched
  <-> reachesFaceSwitch fd t r = true
      /\ exists c,
           tickFaceId t = Some c
           /\ truthy_ref (initialFaceIdRef r) = true
           /\ truthy_ref (lastFaceIdRef r) = true
           /\ Some c <> lastFaceIdRef r
           /\ Some c <> initialFaceIdRef r.
Proof.
  unfold reachesFaceSwitch.
  destruct (ready t) eqn:Hr; cycle 1.
  { split; [|by intros [? _]]. intros E. exfalso. revert E.
    unfold captureAndAnalyze, ready in *.
    destruct (t_video t); cbn in *; [|done].
    destruct (analysisInFlight r); [done|].
    apply andb_false_iff in Hr as [Hr|Hr]; apply negb_false_iff in Hr;
      rewrite Hr, ?orb_true_r; done. }
  destruct (analysisInFlight r) eqn:Hf.
  { split; [|by intros [? _]].
    unfold captureAndAnalyze. by rewrite Hf, orb_true_r. }
  rewrite tick_ready by done. cbn [andb negb fst].
  set (r0 := setInFlight true r).
  assert (H0 : same_identity r r0) by (by destruct r).
  rewrite analysis_split. unfold bind at 1.
  pose proof (beforeFaceSwitch_same_identity fd t r0) as Hsame.
  pose proof (beforeFaceSwitch_emits fd t r0) as Hem.
  destruct (beforeFaceSwitch fd t r0) as [[v|lr] r6] eqn:E.
  - cbn [fst]. split; [|by intros [? _]]. intros ->.
    by destruct (Hem faceSwitched r6 eq_refl).
  - cbn [fst snd] in *.
    destruct (beforeFaceSwitch_Next _ _ _ _ _ E) as (result & Ea & ->).
    unfold tickFaceId. rewrite Ea. cbn [fst snd].
    destruct H0 as [Hi0 Hl0]. destruct Hsame as [Hi Hl].
    rewrite Hi0 in Hi. rewrite Hl0 in Hl.
    rewrite <- Hi, <- Hl.
    rewrite <- (faceSwitchCheck_fires (detailsOf result) r6).
    unfold bind at 1.
    destruct (faceSwitchCheck (detailsOf result) r6) as [[v|[]] r7] eqn:E7;
      cbn [fst].
    + split; [intros ->; by split|]. by intros [_ [= ->]].
    + split; [|by intros [_ ?]]. intros E8. exfalso.
      assert (Hem' : emits_only (fun ty => ty <> "face_switched")
                (noFaceCheck (labelsOf result) ;;;
                 gazeCheck (labelsOf result) ;;;
                 occlusionCheck (labelsOf result))).
      { apply emits_bind; [by apply noFaceCheck_emits|intros _].
        apply emits_bind; [by apply gazeCheck_emits|intros _].
        by apply occlusionCheck_emits. }
      destruct ((noFaceCheck (labelsOf result) ;;;
                 gazeCheck (labelsOf result) ;;;
                 occlusionCheck (labelsOf result)) r7) as [[v|[]] r8] eqn:E9;
        [|done].
      cbn in E8. subst v. by destruct (Hem' _ _ _ E9).
Qed.

(** C7 (as the code has it).  In every state the analysis loop reaches:
    the last signature equals the first one; a recorded first signature is
    never overwritten by a tick; a tick emits [face_switched] only if a
    first signature had been recorded and the tick's signature differs from
    it; the identity comparison fires exactly in that case; and a tick
    emits [face_switched] exactly when it reaches the comparison (no
    earlier check ends the tick) with a signature that differs from the
    recorded first one.  So for a tick that reaches the comparison, a
    signature that differs from the first one (and thereby from the last
    one) is enough to fire. *)
Theorem face_identity_is_write_once_and_compared_with_first fd ts t res c :
  let r := (runTicks fd ts initialRefs).2 in
  let r' := (captureAndAnalyze fd t r).2 in
  lastFaceIdRef r = initialFaceIdRef r
  /\ (forall i, initialFaceIdRef r = Some i -> initialFaceIdRef r' = Some i)
  /\ ((captureAndAnalyze fd t r).1 = Some faceSwitched ->
      exists i cur,
        initialFaceIdRef r = Some i /\ tickFaceId t = Some cur /\ cur <> i)
  /\ (currentFaceId res = Some c ->
      ((faceSwitchCheck res r).1 = Return (Some faceSwitched)
       <-> exists i, initialFaceIdRef r = Some i /\ c <> i))
  /\ ((captureAndAnalyze fd t r).1 = Some faceSwitched
      <-> reachesFaceSwitch fd t r = true
          /\ exists i cur,
               initialFaceIdRef r = Some i /\ tickFaceId t = Some cur
               /\ cur <> i).
Proof.
  intros r r'.
  pose proof (run_identity_settled fd ts) as Hset. fold r in Hset.
  clearbody r. split_and!.
  - by destruct Hset as [[-> ->]|(i & _ & -> & ->)].
  - intros i Hinit.
    destruct (tick_identity_kept fd t r) as [Hkeep _]. apply Hkeep; [|done].
    destruct Hset as [[Hn _]|(j & Hj & Hinit' & _)]; congruence.
  - intros E. by apply (tick_face_switched fd t r faceSwitched).
  - intros Hc. by apply faceSwitchCheck_decision.
  - rewrite tick_face_switched_exactly.
    destruct Hset as [[Hinit Hlast]|(i & Hi & Hinit & Hlast)].
    + rewrite Hinit, Hlast.
      split; [by intros (_ & ? & _ & ? & _)|by intros (_ & ? & ? & ? & _)].
    + rewrite Hinit, Hlast. cbn [truthy_ref]. rewrite Hi. split.
      * intros (Hreach & cur & Hcur & _ & _ & Hne & _).
        split; [done|]. exists i, cur. split_and!; [done|done|congruence].
      * intros (Hreach & j & cur & [= <-] & Hcur & Hne).
        split; [done|]. exists cur. split_and!; try done; congruence.
Qed.

(** ** Concrete runs *)

(** C2, refuted as stated: three consecutive dark ticks from the initial
    references emit two [camera_covered] violations, not one, and the
    counter stands at 3 afterwards instead of having been reset. *)
Lemma three_dark_ticks_emit_camera_covered_twice :
  let out :=
    runTicks false
      (replicate 3 (sampleTick darkStats (labelled ["face_present"])))
      initialRefs in
  countType "camera_covered" out.1 = 2
  /\ countType "camera_covered" out.1 <> 1
  /\ consecutiveDarkFramesRef out.2 = 3.
Proof. vm_compute. split_and!; [reflexivity|discriminate|reflexivity]. Qed.

(** Witness for [dark_run_fires_on_every_tick_after_the_first]. *)
Lemma dark_run_fires_on_every_tick_after_the_first_witness :
  countType "camera_covered"
    (runTicks false
       (replicate 3 (sampleTick darkStats (labelled ["face_present"])))
       initialRefs).1
  = 2.
Proof.
  refine (proj1 (dark_run_fires_on_every_tick_after_the_first false
                   (replicate 3 (sampleTick darkStats (labelled ["face_present"])))
                   initialRefs _ eq_refl eq_refl)).
  repeat constructor.
Defined.

(** C3, refuted as stated: six ticks reporting [no_face] after the start
    window emit [face_missing] on the fifth and on the sixth tick. *)
Lemma six_no_face_ticks_do_not_emit_exactly_one :
  let out :=
    runTicks false
      (replicate 6 (sampleTick brightStats (labelled ["no_face"])))
      afterStartWindow in
  out.1 = [None; None; None; None; Some faceMissing; Some faceMissing]
  /\ countType "face_missing" out.1 <> 1.
Proof. vm_compute. split; [reflexivity|discriminate]. Qed.

(** Witness for [six_no_face_ticks_emit_face_missing_twice]. *)
Lemma six_no_face_ticks_emit_face_missing_twice_witness :
  countType "face_missing"
    (runTicks false
       (replicate 6 (sampleTick brightStats (labelled ["no_face"])))
       afterStartWindow).1
  = 2.
Proof.
  refine (proj1 (proj2 (six_no_face_ticks_emit_face_missing_twice false
                   (replicate 6 (sampleTick brightStats (labelled ["no_face"])))
                   afterStartWindow eq_refl _ eq_refl _ eq_refl))).
  - repeat constructor.
  - cbn. lia.
Defined.

(** C4, refuted as stated: on the first tick of a session an empty
    response, with a bright frame and nothing else observed, emits
    [face_not_visible_at_start], and the page callback terminates the exam
    on it; past the start window five empty responses in a row emit
    [face_missing]. *)
Lemma empty_response_emits_and_terminates :
  (captureAndAnalyze false (sampleTick brightStats (Resolves None))
     initialRefs).1
  = Some notVisibleAtStart
  /\ Exam.examTerminated
       (Exam.state
          (Exam.step pretty
             (Exam.CameraViolation (v_type notVisibleAtStart)
                (v_message notVisibleAtStart))
             Exam.mount))
     = true
  /\ (runTicks false (replicate 5 (sampleTick brightStats (Resolves None)))
        afterStartWindow).1
     = [None; None; None; None; Some faceMissing].
Proof. vm_compute. by split_and!. Qed.

(** Witness for [failed_analysis_is_swallowed_empty_labels_mean_no_face]. *)
Lemma failed_analysis_is_swallowed_empty_labels_mean_no_face_witness :
  (captureAndAnalyze false (sampleTick brightStats (Resolves None))
     initialRefs).1
  = Some notVisibleAtStart.
Proof.
  refine (proj1 (proj2 (proj1 (proj2
            (failed_analysis_is_swallowed_empty_labels_mean_no_face false
               (sampleTick brightStats (Resolves None)) initialRefs
               eq_refl eq_refl)) eq_refl) eq_refl eq_refl) _).
  cbn. lia.
Defined.

(** C7, refuted as stated: after a tick with signature "A", a tick with
    signature "B" (different from the last and from the first signature)
    emits [face_switched]; whenever a last and a first signature are
    recorded, a current signature different from both makes the identity
    comparison fire; and every tick that reaches the comparison with such a
    signature emits [face_switched]. *)
Lemma signature_differing_from_both_fires :
  (runTicks false
     [sampleTick brightStats (identified "A");
      sampleTick brightStats (identified "B")] initialRefs).1
  = [None; Some faceSwitched]
  /\ ~ (exists r cur,
          truthy_ref (lastFaceIdRef r) = true
          /\ truthy_ref (initialFaceIdRef r) = true
          /\ truthy cur = true
          /\ Some cur <> lastFaceIdRef r
          /\ Some cur <> initialFaceIdRef r
          /\ (faceSwitchCheck (mkResult None (Some cur) None) r).1
             <> Return (Some faceSwitched))
  /\ ~ (exists fd t r cur,
          reachesFaceSwitch fd t r = true
          /\ tickFaceId t = Some cur
          /\ truthy_ref (lastFaceIdRef r) = true
          /\ truthy_ref (initialFaceIdRef r) = true
          /\ Some cur <> lastFaceIdRef r
          /\ Some cur <> initialFaceIdRef r
          /\ (captureAndAnalyze fd t r).1 <> Some faceSwitched).
Proof.
  split_and!; [by vm_compute| |].
  - intros (r & cur & Hl & Hi & Hc & Hnl & Hni & Hno). apply Hno.
    rewrite faceSwitchCheck_eq. unfold currentFaceId. cbn [face_id truthy_ref].
    rewrite Hc. cbv zeta. rewrite Hi, Hl.
    by rewrite !bool_decide_eq_false_2.
  - intros (fd & t & r & cur & Hreach & Hcur & Hl & Hi & Hnl & Hni & Hno).
    apply Hno. apply tick_face_switched_exactly. split; [done|]. by exists cur.
Qed.

End CameraFeedFacts.

(** * Further properties of the exam page *)

Module ExamMore.

Import Exam.

#[local] Arguments Exam.addAlert : simpl never.
#[local] Arguments Exam.terminateExam : simpl never.

Section WithIds.

Variable genId : nat -> string.

Abbreviation addAlert := (addAlert genId).
Abbreviation terminateExam := (terminateExam genId).
Abbreviation step := (step genId).
Abbreviation run := (run genId).

(** X1.  TERMINATED is absorbing: whatever happens to the page afterwards,
    [examTerminated] stays set. *)
Theorem terminated_is_absorbing evs p :
  examTerminated (state p) = true ->
  examTerminated (state (run evs p)) = true.
Proof.
  induction evs as [|ev evs IH] using rev_ind; [done|].
  intros H. rewrite ExamFacts.run_snoc.
  by apply ExamFacts.step_keeps_terminated, IH.
Qed.

(** *** Keys outside the prohibited ones *)

Lemma handleKeyDown_other_key rd e s :
  prohibitedKey e = false -> handleKeyDown genId rd e s = s.
Proof.
  unfold prohibitedKey. rewrite !orb_false_iff. intros [[H1 H2] H3].
  unfold handleKeyDown. by rewrite H1, H2, H3.
Qed.

(** *** Expiry of a displayed alert *)

(** X4.  The timeout queued by [addAlert] removes from the display every alert
    carrying the identifier it drew: the alert just added and, should the
    identifier have been drawn before, the older ones too.  With a fresh
    identifier the display is back to what it was. *)
Theorem alert_expiry_removes_the_alert a p :
  let id := genId (nextId (state p)) in
  let p1 := submit genId a p in
  let i := length (timers (state p)) in
  let p2 := step (Timeout i) p1 in
  timers (state p1) !! i = Some (5000, ExpireAlert id)
  /\ alerts (state p2)
     = filter (fun al => alert_id al <> Some id) (alerts (state p))
  /\ (Forall (fun al => alert_id al <> Some id) (alerts (state p)) ->
      alerts (state p2) = alerts (state p)).
Proof.
  intros id p1 i p2.
  assert (Hi : timers (state p1) !! i = Some (5000, ExpireAlert id)).
  { unfold p1, submit, i. cbn. rewrite ExamFacts.addAlert_timers.
    rewrite lookup_app_r by lia. by rewrite Nat.sub_diag. }
  assert (Ha : alerts (state p2)
               = filter (fun al => alert_id al <> Some id) (alerts (state p))).
  { unfold p2. cbn. unfold fireTimer. rewrite Hi. cbn.
    unfold p1, submit. cbn. rewrite ExamFacts.addAlert_alerts.
    rewrite filter_app, filter_cons_False by (cbn; intros H; by apply H).
    by rewrite filter_nil, app_nil_r. }
  split_and!; [done|done|].
  intros Hfresh. rewrite Ha. clear -Hfresh.
  induction Hfresh as [|al als Hal _ IH]; [done|].
  by rewrite filter_cons_True, IH.
Qed.

(** *** Keys *)

Lemma key_tests_exclusive k :
  (String.eqb k "t" || String.eqb k "n" || String.eqb k "w" = true ->
   String.eqb k "F12" = false
   /\ String.eqb (toLowerCase k) "c" || String.eqb (toLowerCase k) "v"
      || String.eqb (toLowerCase k) "x" = false)
  /\ (String.eqb k "F12" = true ->
      String.eqb (toLowerCase k) "c" || String.eqb (toLowerCase k) "v"
      || String.eqb (toLowerCase k) "x" = false).
Proof.
  split.
  - rewrite !orb_true_iff, !String.eqb_eq. by intros [[->| ->]| ->].
  - rewrite String.eqb_eq. by intros ->.
Qed.

Lemma terminateExam_after_alert rd a reason s :
  r_examTerminated rd = false ->
  let s' := terminateExam rd reason (addAlert a s) in
  navigations s' = navigations s ++ ["/"]
  /\ length (dialogs s') = length (dialogs s) + 1
  /\ examTerminated s' = true.
Proof.
  intros Hrd.
  destruct (ExamFacts.terminateExam_runs genId rd reason (addAlert a s) Hrd)
    as (H1 & _ & H3 & H4 & _).
  cbv zeta. rewrite H1, H3, H4, length_app.
  by rewrite ExamFacts.addAlert_navigations, ExamFacts.addAlert_dialogs.
Qed.

(** X5.  A key press terminates at most once, and exactly when the closure is
    one of an active render and the key is a prohibited one: Ctrl/Cmd with
    [t], [n] or [w] (as typed, lower case), [F12], or Ctrl/Cmd with [c],
    [v] or [x] in either case.  With Shift or Caps Lock the browser reports
    [T], [N], [W]: those presses change nothing. *)
Theorem keydown_terminates_once_on_prohibited_keys rd e s :
  let s' := handleKeyDown genId rd e s in
  let fires := negb (r_examTerminated rd) && prohibitedKey e in
  navigations s' = navigations s ++ (if fires then ["/"] else [])
  /\ length (dialogs s') = length (dialogs s) + (if fires then 1 else 0)
  /\ examTerminated s' = examTerminated s || fires
  /\ (key e ∈ ["T"; "N"; "W"] -> s' = s).
Proof.
  cbv zeta.
  assert (Hupper : key e ∈ ["T"; "N"; "W"] -> prohibitedKey e = false).
  { rewrite !elem_of_cons, elem_of_nil. unfold prohibitedKey.
    intros [->|[->|[->|[]]]]; by destruct (ctrlKey e), (metaKey e). }
  split_and!; [| | |intros H; by apply handleKeyDown_other_key, Hupper].
  all: destruct (r_examTerminated rd) eqn:Hrd; cbn [negb andb].
  all: unfold handleKeyDown, prohibitedKey.
  all: destruct (key_tests_exclusive (key e)) as [Hx1 Hx2].
  all: destruct (String.eqb (key e) "t" || String.eqb (key e) "n"
                 || String.eqb (key e) "w") eqn:E1;
    [destruct (Hx1 eq_refl) as [F2 F3]; rewrite ?F2, ?F3|].
  all: destruct (String.eqb (key e) "F12") eqn:E2;
    try congruence; try rewrite (Hx2 eq_refl).
  all: try destruct (String.eqb (toLowerCase (key e)) "c"
                     || String.eqb (toLowerCase (key e)) "v"
                     || String.eqb (toLowerCase (key e)) "x") eqn:E3;
    try congruence.
  all: destruct (ctrlKey e || metaKey e); cbn [orb andb];
    rewrite ?ExamFacts.terminateExam_skips by done;
    rewrite ?ExamFacts.addAlert_navigations, ?ExamFacts.addAlert_dialogs,
      ?ExamFacts.addAlert_examTerminated, ?app_nil_r, ?Nat.add_0_r,
      ?orb_false_r;
    try done;
    try (by apply terminateExam_after_alert);
    try (rewrite orb_true_r; by apply terminateExam_after_alert).
Qed.

End WithIds.

(** *** The countdown after its end *)

(** X6.  From [t >= 1] seconds left, [n] ticks leave [max 0 (t - n)] seconds;
    the time's-up dialog is opened on the tick that reaches zero and again
    on every later tick, [n - t + 1] times in all. *)
Theorem countdown_after_ticks s n :
  (1 <= timeLeft s)%Z ->
  let sn := Nat.iter n countdownTick s in
  timeLeft sn = Z.max 0 (timeLeft s - Z.of_nat n)
  /\ dialogs sn =
       dialogs s
       ++ replicate (Z.to_nat (Z.of_nat n - timeLeft s + 1))
            "Time's up! Your exam has been submitted.".
Proof.
  intros Ht. cbv zeta. induction n as [|n [IH1 IH2]].
  - change (Nat.iter 0 countdownTick s) with s. split; [lia|].
    replace (Z.to_nat (Z.of_nat 0 - timeLeft s + 1)) with 0 by lia.
    by rewrite app_nil_r.
  - rewrite Nat.iter_succ.
    set (sp := Nat.iter n countdownTick s) in *. clearbody sp.
    unfold countdownTick. rewrite IH1.
    destruct (Z.leb_spec (Z.max 0 (timeLeft s - Z.of_nat n)) 1) as [Hle|Hgt];
      cbn.
    + split; [lia|]. rewrite IH2.
      replace (Z.to_nat (Z.of_nat (S n) - timeLeft s + 1))
        with (S (Z.to_nat (Z.of_nat n - timeLeft s + 1))) by lia.
      by rewrite replicate_S_end, app_assoc.
    + split; [lia|]. rewrite IH2.
      by replace (Z.to_nat (Z.of_nat (S n) - timeLeft s + 1))
        with (Z.to_nat (Z.of_nat n - timeLeft s + 1)) by lia.
Qed.

(** *** The displayed clock *)

Abbreviation twoDigits n := (padStart 2 "0" (pretty n)).

Lemma twoDigits_distinct_below_100 :
  NoDup ((fun k => twoDigits (Z.of_nat k)) <$> seq 0 100).
Proof. apply (bool_decide_unpack _). vm_compute. exact I. Qed.

Lemma twoDigits_length_below_100 :
  Forall (fun k => String.length (twoDigits (Z.of_nat k)) = 2) (seq 0 100).
Proof. apply (bool_decide_unpack _). vm_compute. exact I. Qed.

Lemma twoDigits_length n :
  (0 <= n < 100)%Z -> String.length (twoDigits n) = 2.
Proof.
  intros Hn. pose proof twoDigits_length_below_100 as H.
  rewrite Forall_forall in H.
  specialize (H (Z.to_nat n)). rewrite Z2Nat.id in H by lia.
  apply H, elem_of_seq. lia.
Qed.

Lemma twoDigits_inj a b :
  (0 <= a < 100)%Z -> (0 <= b < 100)%Z -> twoDigits a = twoDigits b -> a = b.
Proof.
  intros Ha Hb E.
  assert (Z.to_nat a = Z.to_nat b); [|lia].
  eapply (NoDup_lookup _ _ _ _ twoDigits_distinct_below_100).
  - rewrite list_lookup_fmap, lookup_seq_lt by lia. cbn.
    rewrite Z2Nat.id by lia. reflexivity.
  - rewrite list_lookup_fmap, lookup_seq_lt by lia. cbn.
    rewrite Z2Nat.id by lia. by rewrite E.
Qed.

Lemma append_length a b :
  String.length (a +:+ b) = String.length a + String.length b.
Proof. induction a as [|c a IH]; simpl; [done|]. f_equal. exact IH. Qed.

Lemma append_split a a' b b' :
  String.length a = String.length a' ->
  a +:+ b = a' +:+ b' -> a = a' /\ b = b'.
Proof.
  revert a'. induction a as [|c a IH]; intros [|c' a'] L E; simpl in *;
    try discriminate; [done|].
  injection E as -> E. destruct (IH a') as [-> ->]; auto.
Qed.

Lemma clock_fields s :
  (0 <= s < 360000)%Z ->
  (0 <= s / 3600 < 100)%Z
  /\ (0 <= Z.rem s 3600 / 60 < 60)%Z
  /\ (0 <= Z.rem s 60 < 60)%Z
  /\ s = (3600 * (s / 3600) + 60 * (Z.rem s 3600 / 60) + Z.rem s 60)%Z.
Proof.
  intros Hs. rewrite !Z.rem_mod_nonneg by lia.
  pose proof (Z.div_mod s 3600). pose proof (Z.mod_pos_bound s 3600).
  pose proof (Z.div_mod (s mod 3600) 60).
  pose proof (Z.mod_pos_bound (s mod 3600) 60).
  pose proof (Z.mod_pos_bound s 60).
  assert ((s mod 3600) mod 60 = s mod 60)%Z.
  { apply Z.mod_mod_divide. exists 60%Z. lia. }
  lia.
Qed.

(** X7.  Below one hundred hours the clock shown is eight characters long,
    [hh:mm:ss], and two different numbers of seconds are never shown as the
    same clock. *)
Theorem formatTime_is_a_clock s :
  (0 <= s < 360000)%Z ->
  String.length (formatTime s) = 8
  /\ forall s',
       (0 <= s' < 360000)%Z -> formatTime s' = formatTime s -> s' = s.
Proof.
  intros Hs. destruct (clock_fields s Hs) as (Hh & Hm & Hc & Es).
  split.
  - unfold formatTime. by rewrite !append_length, !twoDigits_length by lia.
  - intros s' Hs' E. destruct (clock_fields s' Hs') as (Hh' & Hm' & Hc' & Es').
    unfold formatTime in E.
    apply append_split in E as [E1 E];
      [|by rewrite !twoDigits_length by lia].
    apply (append_split ":" ":") in E as [_ E]; [|done].
    apply append_split in E as [E2 E];
      [|by rewrite !twoDigits_length by lia].
    apply (append_split ":" ":") in E as [_ E3]; [|done].
    apply twoDigits_inj in E1, E2, E3; lia.
Qed.

(** *** Witnesses *)

(** Witness for [terminated_is_absorbing]: a page terminated by a blur,
    then re-rendered, focused and ticked. *)
Lemma terminated_is_absorbing_witness :
  examTerminated
    (state (run pretty [Rerender; Focus; Countdown]
              (run pretty [Blur] mount)))
  = true.
Proof.
  exact (terminated_is_absorbing pretty [Rerender; Focus; Countdown]
           (run pretty [Blur] mount) eq_refl).
Defined.

(** Witness for [countdown_after_ticks]: three seconds left and five
    ticks. *)
Lemma countdown_after_ticks_witness :
  timeLeft (Nat.iter 5 countdownTick (setTimeLeft 3 initialState)) = 0%Z.
Proof.
  refine (proj1 (countdown_after_ticks (setTimeLeft 3 initialState) 5 _)).
  cbn. lia.
Defined.

(** Witness for [formatTime_is_a_clock]: one second before the hour. *)
Lemma formatTime_is_a_clock_witness :
  String.length (formatTime 3599) = 8.
Proof.
  refine (proj1 (formatTime_is_a_clock 3599 _)). lia.
Defined.

End ExamMore.

(** * Further properties of the multi-tab detection *)

Module SessionFacts.
Import Exam MultiTab Session.

#[local] Arguments Exam.addAlert : simpl never.
#[local] Arguments Exam.terminateExam : simpl never.

Section WithIds.

Variable genId : nat -> string.
Variable broadcastChannel : bool.

Abbreviation openTab := (openTab genId broadcastChannel).
Abbreviation rerenderTab := (rerenderTab genId broadcastChannel).
Abbreviation firePresence := (firePresence genId).
Abbreviation sstep := (sstep genId broadcastChannel).
Abbreviation srun := (srun genId broadcastChannel).

Lemma others_unchanged i f ts :
  (forall j t, ts !! j = Some t -> j <> i -> f t = t) -> others i f ts = ts.
Proof.
  intros H. apply list_eq. intros j. unfold others.
  rewrite list_lookup_imap.
  destruct (ts !! j) as [t|] eqn:E; [|done]. cbn.
  destruct (decide (j = i)); [done|]. f_equal. by eapply H.
Qed.

Lemma two_listeners w i j a b :
  consistent w -> tabs w !! i = Some a -> tabs w !! j = Some b ->
  storageListener a = true -> storageListener b = true -> i = j.
Proof.
  intros (Hnd & Hok & _) Ha Hb La Lb.
  rewrite Forall_lookup in Hok.
  destruct (Hok _ _ Ha) as (_ & _ & Ma & _), (Hok _ _ Hb) as (_ & _ & Mb & _).
  specialize (Ma La). specialize (Mb Lb).
  eapply NoDup_lookup; [exact Hnd| |].
  - rewrite list_lookup_fmap, Ha. reflexivity.
  - rewrite list_lookup_fmap, Hb. cbn. congruence.
Qed.

(** *** What each event does in a consistent world *)

Lemma openTab_spec id w :
  consistent w -> fresh id w ->
  (localStorage w !! KEY = None
   /\ openTab id w =
      mkWorld (<[KEY := id]> (localStorage w))
        (tabs w ++ [mkTab id mount firstRender true broadcastChannel
                      broadcastChannel]))
  \/ (exists m, localStorage w !! KEY = Some m
      /\ openTab id w =
         mkWorld (localStorage w)
           (tabs w ++ [mkTab id (mkPage (lockedOut genId) firstRender)
                         firstRender false false false])).
Proof.
  intros (Hnd & Hok & Hm) [Htr Hfr].
  unfold MultiTab.openTab, multiTabEffect.
  destruct (localStorage w !! KEY) as [m|] eqn:E.
  - right. exists m. split; [done|].
    destruct (Hm m eq_refl) as (t & Ht & Hid & _).
    rewrite Forall_forall in Hok. destruct (Hok t Ht) as (Htm & _).
    assert (m <> id).
    { intros ->. apply Hfr. rewrite <- Hid. by apply list_elem_of_fmap_2. }
    cbn -[lookup insert]. rewrite <- Hid, Htm, Hid.
    rewrite bool_decide_eq_false_2 by congruence. cbn -[lookup insert].
    reflexivity.
  - left. split; [done|]. cbn -[lookup insert].
    rewrite bool_decide_eq_false_2 by done.
    cbn -[lookup insert]. f_equal.
    apply others_unchanged. intros j t Hj Hne.
    apply lookup_app_Some in Hj as [Hj|[Hge Hj]].
    + unfold onStorage.
      destruct (storageListener t) eqn:L; [|done].
      rewrite Forall_lookup in Hok.
      destruct (Hok _ _ Hj) as (_ & _ & Mt & _). specialize (Mt L). congruence.
    + apply list_lookup_singleton_Some in Hj as [Hj _]. lia.
Qed.

Lemma rerenderTab_spec i t w :
  consistent w -> tabs w !! i = Some t ->
  let p := rerender (page t) in
  rerenderTab i w =
  if terminated t && negb (r_examTerminated (effectRender t))
  then mkWorld
         (if storageListener t then delete KEY (localStorage w)
          else localStorage w)
         (<[i := mkTab (instanceId t) p (listeners p) false false false]>
            (tabs w))
  else mkWorld (localStorage w)
         (<[i := mkTab (instanceId t) p (effectRender t) (storageListener t)
                   (channelOpen t) (presencePending t)]> (tabs w)).
Proof.
  intros (Hnd & Hok & Hm) Ht p.
  rewrite Forall_lookup in Hok.
  destruct (Hok _ _ Ht) as (Htr & Hact & Hown & Hch & Heff).
  unfold MultiTab.rerenderTab. rewrite Ht.
  cbn [instanceId page effectRender storageListener channelOpen
       presencePending].
  change (r_examTerminated (listeners (rerender (page t))))
    with (terminated t).
  destruct (terminated t) eqn:T, (r_examTerminated (effectRender t)) eqn:R;
    cbn [andb negb].
  - by rewrite bool_decide_eq_true_2.
  - rewrite bool_decide_eq_false_2 by done.
    unfold multiTabCleanup, multiTabEffect.
    cbn [instanceId page effectRender storageListener channelOpen
         presencePending].
    destruct (storageListener t) eqn:L.
    + rewrite bool_decide_eq_true_2 by auto.
      cbn [deliverStorage localStorage tabs instanceId page].
      change (r_examTerminated (listeners (rerender (page t))))
        with (terminated t). rewrite T.
      cbn [deliverStorage]. f_equal.
      rewrite others_unchanged; [by rewrite list_insert_insert_eq|].
      intros j u _ _. unfold onStorage. cbn.
      by destruct (storageListener u); rewrite ?andb_false_r.
    + cbn [deliverStorage localStorage tabs instanceId page].
      change (r_examTerminated (listeners (rerender (page t))))
        with (terminated t). rewrite T.
      cbn [deliverStorage]. by rewrite list_insert_insert_eq.
  - destruct (Heff eq_refl). congruence.
  - by rewrite bool_decide_eq_true_2.
Qed.

Lemma firePresence_spec i t w :
  consistent w -> tabs w !! i = Some t ->
  firePresence i w =
  if presencePending t
  then mkWorld (localStorage w)
         (<[i := mkTab (instanceId t) (page t) (effectRender t)
                   (storageListener t) (channelOpen t) false]> (tabs w))
  else w.
Proof.
  intros Hw Ht. unfold MultiTab.firePresence. rewrite Ht.
  destruct (presencePending t); [|done]. f_equal.
  destruct (channelOpen t) eqn:C; [|done].
  apply others_unchanged. intros j u Hj Hne.
  apply list_lookup_insert_Some in Hj as [[E _]|[_ Hj]]; [congruence|].
  unfold onMessage. destruct (channelOpen u) eqn:Cu; [|done].
  exfalso. apply Hne.
  destruct Hw as (Hnd & Hok & Hm). pose proof Hok as Hok'.
  rewrite Forall_lookup in Hok.
  destruct (Hok _ _ Ht) as (_ & _ & _ & Ht4 & _).
  destruct (Hok _ _ Hj) as (_ & _ & _ & Hu4 & _).
  by eapply (two_listeners w j i u t); auto.
Qed.

(** *** The invariant is kept *)

Lemma consistent_update w i t t' :
  consistent w -> tabs w !! i = Some t ->
  instanceId t' = instanceId t ->
  storageListener t' = storageListener t ->
  tabOk (localStorage w) t' ->
  consistent (mkWorld (localStorage w) (<[i := t']> (tabs w))).
Proof.
  intros (Hnd & Hok & Hm) Ht Hid Hl Hok'.
  assert (Hi : i < length (tabs w)) by by eapply lookup_lt_Some.
  split_and!; cbn [localStorage tabs].
  - rewrite list_fmap_insert, Hid, list_insert_id; [done|].
    by rewrite list_lookup_fmap, Ht.
  - by apply Forall_insert.
  - intros m Hmk. destruct (Hm m Hmk) as (u & Hu & Hum & Hul).
    apply list_elem_of_lookup in Hu as [j Hj].
    destruct (decide (j = i)) as [->|Hne].
    + exists t'. split; [|split].
      * eapply list_elem_of_lookup_2. by apply list_lookup_insert_eq.
      * congruence.
      * congruence.
    + exists u. split; [|done].
      eapply list_elem_of_lookup_2. by rewrite list_lookup_insert_ne.
Qed.

Lemma consistent_release w i t t' :
  consistent w -> tabs w !! i = Some t ->
  storageListener t = true ->
  instanceId t' = instanceId t ->
  storageListener t' = false ->
  tabOk (delete KEY (localStorage w)) t' ->
  consistent (mkWorld (delete KEY (localStorage w)) (<[i := t']> (tabs w))).
Proof.
  intros Hw Ht Hl Hid Hl' Hok'. pose proof Hw as (Hnd & Hok & Hm).
  split_and!; cbn [localStorage tabs].
  - rewrite list_fmap_insert, Hid, list_insert_id; [done|].
    by rewrite list_lookup_fmap, Ht.
  - apply Forall_lookup. intros j u Hj.
    apply list_lookup_insert_Some in Hj as [[_ [<- _]]|[Hne Hj]]; [done|].
    rewrite Forall_lookup in Hok.
    destruct (Hok _ _ Hj) as (H1 & H2 & H3 & H4 & H5).
    assert (Lu : storageListener u = false).
    { destruct (storageListener u) eqn:Lu; [|done].
      exfalso. apply Hne. by eapply two_listeners. }
    unfold tabOk. rewrite Lu in *. by split_and!.
  - intros m. by rewrite lookup_delete_eq.
Qed.

Lemma lockedOut_terminated : examTerminated (lockedOut genId) = true.
Proof.
  unfold lockedOut.
  by destruct (ExamFacts.terminateExam_runs genId firstRender
                 "Multiple exam tabs detected (storage lock)" initialState
                 eq_refl) as (_ & _ & _ & H & _).
Qed.

Lemma openTab_consistent id w :
  consistent w -> fresh id w -> consistent (openTab id w).
Proof.
  intros Hw Hfr. pose proof Hw as (Hnd & Hok & Hm).
  pose proof Hfr as [Htr Hnew].
  destruct (openTab_spec id w Hw Hfr) as [[E ->]|(m & E & ->)];
    split_and!; cbn [localStorage tabs].
  - rewrite fmap_app. apply NoDup_app. split_and!; [done| |by apply NoDup_singleton].
    intros x Hx Hx'. apply list_elem_of_singleton in Hx' as ->. by apply Hnew.
  - apply Forall_app. split.
    + eapply Forall_impl; [exact Hok|]. intros t (H1 & H2 & H3 & H4 & H5).
      assert (Lt : storageListener t = false).
      { destruct (storageListener t); [|done].
        specialize (H3 eq_refl). congruence. }
      unfold tabOk. rewrite Lt in *. split_and!; auto; done.
    + apply Forall_singleton. unfold tabOk. cbn [instanceId storageListener].
      split_and!; try done. intros _. apply lookup_insert_eq.
  - intros m. rewrite lookup_insert_eq. intros [= <-].
    eexists. split; [apply elem_of_app; right; apply list_elem_of_here|done].
  - rewrite fmap_app. apply NoDup_app. split_and!; [done| |by apply NoDup_singleton].
    intros x Hx Hx'. apply list_elem_of_singleton in Hx' as ->. by apply Hnew.
  - apply Forall_app. split; [done|].
    apply Forall_singleton. unfold tabOk, terminated.
    cbn [instanceId storageListener channelOpen effectRender page state].
    rewrite lockedOut_terminated. by split_and!.
  - intros m' Hm'. destruct (Hm m' Hm') as (t & Ht & Hid & Hl).
    exists t. split; [|done]. apply elem_of_app. by left.
Qed.

Lemma sstep_consistent ev w :
  consistent w ->
  (forall id, ev = Browser (OpenTab id) -> fresh id w) ->
  consistent (sstep ev w).
Proof.
  intros Hw Hfr. pose proof Hw as (Hnd & Hok & Hm).
  rewrite Forall_lookup in Hok.
  assert (Hrer : forall i, consistent (rerenderTab i w)).
  { intros i. destruct (tabs w !! i) as [t|] eqn:Ht;
      [|by unfold MultiTab.rerenderTab; rewrite Ht].
    rewrite (rerenderTab_spec i t w Hw Ht). cbv zeta.
    destruct (Hok _ _ Ht) as (H1 & H2 & H3 & H4 & H5).
    destruct (terminated t) eqn:T, (r_examTerminated (effectRender t)) eqn:R;
      cbn [andb negb].
    2: destruct (storageListener t) eqn:L.
    2: by apply (consistent_release w i t); unfold tabOk, terminated; cbn;
         fold (terminated t); rewrite ?T.
    all: apply (consistent_update w i t); try done.
    all: unfold tabOk, terminated;
      cbn [instanceId storageListener channelOpen effectRender page state
           rerender];
      fold (terminated t); rewrite ?T, ?R, ?L; by split_and!. }
  destruct ev as [[id|i|i]|i ev]; cbn [Session.sstep wstep].
  - by apply openTab_consistent, Hfr.
  - apply Hrer.
  - destruct (tabs w !! i) as [t|] eqn:Ht;
      [|by unfold MultiTab.firePresence; rewrite Ht].
    rewrite (firePresence_spec i t w Hw Ht).
    destruct (presencePending t); [|done].
    apply (consistent_update w i t); try done. exact (Hok _ _ Ht).
  - unfold inTab.
    destruct (decide (ev = Rerender)) as [->|Hev]; [apply Hrer|].
    destruct (tabs w !! i) as [t|] eqn:Ht; [|by destruct ev].
    enough (consistent
              (mkWorld (localStorage w)
                 (<[i := mkTab (instanceId t) (step genId ev (page t))
                           (effectRender t) (storageListener t)
                           (channelOpen t) (presencePending t)]> (tabs w))))
      by by destruct ev.
    apply (consistent_update w i t); try done.
    destruct (Hok _ _ Ht) as (H1 & H2 & H3 & H4 & H5).
    assert (Hmono : terminated t = true ->
                    examTerminated (state (step genId ev (page t))) = true)
      by apply ExamFacts.step_keeps_terminated.
    unfold tabOk, terminated in *.
    cbn [instanceId storageListener channelOpen effectRender page].
    split_and!; try done.
    + intros Hf. apply H2.
      destruct (examTerminated (state (page t))); [|done].
      specialize (Hmono eq_refl). congruence.
    + intros Hr. destruct (H5 Hr). auto.
Qed.

(** *** An event changes the acting tab only *)

Lemma sstep_elsewhere ev w i :
  consistent w ->
  (forall id, ev = Browser (OpenTab id) -> fresh id w) ->
  i <> actor ev w ->
  tabs (sstep ev w) !! i = tabs w !! i.
Proof.
  intros Hw Hfr Hi.
  assert (Hrer : forall j, i <> j -> tabs (rerenderTab j w) !! i = tabs w !! i).
  { intros j Hj. destruct (tabs w !! j) as [t|] eqn:Ht;
      [|by unfold MultiTab.rerenderTab; rewrite Ht].
    rewrite (rerenderTab_spec j t w Hw Ht). cbv zeta.
    by destruct (_ && _); cbn [tabs]; rewrite list_lookup_insert_ne. }
  destruct ev as [[id|j|j]|j ev]; cbn [Session.sstep wstep actor] in *.
  - destruct (openTab_spec id w Hw (Hfr _ eq_refl)) as [[E ->]|(m & E & ->)];
      cbn [tabs].
    all: destruct (decide (i < length (tabs w))).
    all: try by rewrite lookup_app_l.
    all: rewrite !lookup_ge_None_2; [done|lia|rewrite length_app; cbn; lia].
  - by apply Hrer.
  - destruct (tabs w !! j) as [t|] eqn:Ht;
      [|by unfold MultiTab.firePresence; rewrite Ht].
    rewrite (firePresence_spec j t w Hw Ht).
    destruct (presencePending t); [|done].
    cbn [tabs]. by rewrite list_lookup_insert_ne.
  - unfold inTab.
    destruct (decide (ev = Rerender)) as [->|Hev]; [by apply Hrer|].
    destruct (tabs w !! j) as [t|] eqn:Ht; [|by destruct ev].
    destruct ev; try done; cbn [tabs]; by rewrite list_lookup_insert_ne.
Qed.

Lemma sstep_ids ev w :
  consistent w ->
  (forall id, ev = Browser (OpenTab id) -> fresh id w) ->
  instanceId <$> tabs (sstep ev w)
  = (instanceId <$> tabs w) ++ openedIds [ev].
Proof.
  intros Hw Hfr.
  assert (Hins : forall j t t',
             tabs w !! j = Some t -> instanceId t' = instanceId t ->
             instanceId <$> <[j := t']> (tabs w) = instanceId <$> tabs w).
  { intros j t t' Ht Hid. rewrite list_fmap_insert, Hid.
    apply list_insert_id. by rewrite list_lookup_fmap, Ht. }
  assert (Hrer : forall j,
             instanceId <$> tabs (rerenderTab j w) = instanceId <$> tabs w).
  { intros j. destruct (tabs w !! j) as [t|] eqn:Ht;
      [|by unfold MultiTab.rerenderTab; rewrite Ht].
    rewrite (rerenderTab_spec j t w Hw Ht). cbv zeta.
    by destruct (_ && _); cbn [tabs]; apply (Hins j t). }
  destruct ev as [[id|j|j]|j ev]; cbn [Session.sstep wstep openedIds omap];
    rewrite ?app_nil_r.
  - by destruct (openTab_spec id w Hw (Hfr _ eq_refl))
      as [[E ->]|(m & E & ->)]; cbn [tabs]; rewrite fmap_app.
  - apply Hrer.
  - destruct (tabs w !! j) as [t|] eqn:Ht;
      [|by unfold MultiTab.firePresence; rewrite Ht].
    rewrite (firePresence_spec j t w Hw Ht).
    destruct (presencePending t); [|done]. by apply (Hins j t).
  - unfold inTab.
    destruct (decide (ev = Rerender)) as [->|Hev]; [by apply Hrer|].
    destruct (tabs w !! j) as [t|] eqn:Ht; [|by destruct ev].
    destruct ev; try done; cbn [tabs]; by apply (Hins j t).
Qed.

(** *** Sessions *)

Lemma srun_snoc evs ev w : srun (evs ++ [ev]) w = sstep ev (srun evs w).
Proof. unfold Session.srun. by rewrite foldl_app. Qed.

Lemma openedIds_snoc evs ev : openedIds (evs ++ [ev]) = openedIds evs ++ openedIds [ev].
Proof. unfold openedIds. by rewrite omap_app. Qed.

Lemma emptyWorld_consistent : consistent emptyWorld.
Proof.
  split_and!; cbn; [constructor|constructor|].
  intros m. by rewrite lookup_empty.
Qed.

Lemma srun_consistent evs :
  NoDup (openedIds evs) ->
  Forall (fun id => truthy id = true) (openedIds evs) ->
  consistent (srun evs emptyWorld)
  /\ instanceId <$> tabs (srun evs emptyWorld) = openedIds evs.
Proof.
  induction evs as [|ev evs IH] using rev_ind; intros Hnd Htr.
  - split; [apply emptyWorld_consistent|done].
  - rewrite openedIds_snoc in Hnd, Htr.
    apply NoDup_app in Hnd as (Hnd1 & Hnd2 & _).
    apply Forall_app in Htr as [Htr1 Htr2].
    destruct (IH Hnd1 Htr1) as [Hw Hids].
    assert (Hfr : forall id, ev = Browser (OpenTab id) ->
                             fresh id (srun evs emptyWorld)).
    { intros id ->. split.
      - by apply (Forall_singleton (fun id => truthy id = true)) in Htr2.
      - rewrite Hids. intros Hin. apply (Hnd2 _ Hin). apply list_elem_of_here. }
    rewrite srun_snoc, openedIds_snoc. split.
    + by apply sstep_consistent.
    + by rewrite sstep_ids, Hids.
Qed.

(** *** The marker and the active tab *)

(** Pairwise distinct identifiers, none of them the empty string. *)
Abbreviation distinctIds ids :=
  (NoDup ids /\ Forall (fun id => truthy id = true) ids).

(** X8.  Mutual exclusion.  When the tabs opened carry pairwise distinct,
    non-empty instance identifiers, then whatever happens in the tabs and in
    whatever order, at most one tab is not terminated, and it is the tab the
    marker in [localStorage] names. *)
Theorem at_most_one_tab_is_active evs :
  distinctIds (openedIds evs) ->
  let w := srun evs emptyWorld in
  forall i j a b,
    tabs w !! i = Some a -> tabs w !! j = Some b ->
    terminated a = false -> terminated b = false ->
    i = j /\ localStorage w !! KEY = Some (instanceId a).
Proof.
  intros [Hnd Htr] w i j a b Ha Hb Ta Tb.
  destruct (srun_consistent evs Hnd Htr) as [Hw _]. fold w in Hw.
  pose proof Hw as (_ & Hok & _). rewrite Forall_lookup in Hok.
  destruct (Hok _ _ Ha) as (_ & La & Ma & _).
  destruct (Hok _ _ Hb) as (_ & Lb & _).
  split; [by eapply two_listeners; eauto|auto].
Qed.

(** X9.  The marker is set exactly while some tab has its [storage] listener
    registered, and it names that tab; the effect run that registered the
    listener belongs to a render that saw the exam active. *)
Theorem marker_names_the_listening_tab evs :
  distinctIds (openedIds evs) ->
  let w := srun evs emptyWorld in
  forall m,
    localStorage w !! KEY = Some m
    <-> exists i t,
          tabs w !! i = Some t /\ instanceId t = m
          /\ storageListener t = true
          /\ r_examTerminated (effectRender t) = false.
Proof.
  intros [Hnd Htr] w m.
  destruct (srun_consistent evs Hnd Htr) as [Hw _]. fold w in Hw.
  pose proof Hw as (_ & Hok & Hm). rewrite Forall_lookup in Hok.
  split.
  - intros E. destruct (Hm m E) as (t & Ht & Hid & L).
    apply list_elem_of_lookup in Ht as [i Ht]. exists i, t.
    split_and!; try done.
    destruct (Hok _ _ Ht) as (_ & _ & _ & _ & H5).
    destruct (r_examTerminated (effectRender t)); [|done].
    destruct (H5 eq_refl). congruence.
  - intros (i & t & Ht & <- & L & _).
    destruct (Hok _ _ Ht) as (_ & _ & H3 & _). auto.
Qed.

(** X10.  No event changes a tab other than the one it happens in: the
    [storage] event of a newly written marker and the presence message
    never find a tab whose listener would terminate it, since a second tab
    stops at the lock check before it writes or announces anything. *)
Theorem tabs_do_not_reach_each_other evs ev :
  distinctIds (openedIds (evs ++ [ev])) ->
  let w := srun evs emptyWorld in
  forall i, i <> actor ev w -> tabs (sstep ev w) !! i = tabs w !! i.
Proof.
  intros [Hnd Htr] w i Hi. rewrite openedIds_snoc in Hnd, Htr.
  apply NoDup_app in Hnd as (Hnd1 & Hnd2 & _).
  apply Forall_app in Htr as [Htr1 Htr2].
  destruct (srun_consistent evs Hnd1 Htr1) as [Hw Hids]. fold w in Hw, Hids.
  apply sstep_elsewhere; [done| |done].
  intros id ->. split.
  - by apply (Forall_singleton (fun id => truthy id = true)) in Htr2.
  - rewrite Hids. intros Hin. apply (Hnd2 _ Hin). apply list_elem_of_here.
Qed.

(** X11.  The tab holding the marker keeps it after its own termination until
    it re-renders: a tab opened in between is locked out although no tab is
    active any more; the re-render removes the marker, and the tab opened
    next takes it and stays active. *)
Theorem marker_is_released_by_the_rerender evs i t id :
  distinctIds (openedIds evs ++ [id]) ->
  let w := srun evs emptyWorld in
  tabs w !! i = Some t ->
  storageListener t = true ->
  terminated t = true ->
  let early := sstep (Browser (OpenTab id)) w in
  let released := sstep (InTab i Rerender) w in
  let late := sstep (Browser (OpenTab id)) released in
  localStorage early !! KEY = Some (instanceId t)
  /\ (exists t', last (tabs early) = Some t'
       /\ instanceId t' = id /\ terminated t' = true)
  /\ localStorage released !! KEY = None
  /\ localStorage late !! KEY = Some id
  /\ (exists t', last (tabs late) = Some t'
       /\ instanceId t' = id /\ terminated t' = false).
Proof.
  intros [Hnd Htr] w Ht L T early released late.
  apply NoDup_app in Hnd as (Hnd1 & Hnd2 & _).
  apply Forall_app in Htr as [Htr1 Htr2].
  apply (Forall_singleton (fun id => truthy id = true)) in Htr2.
  destruct (srun_consistent evs Hnd1 Htr1) as [Hw Hids]. fold w in Hw, Hids.
  assert (Hfr : fresh id w).
  { split; [done|]. rewrite Hids. intros Hin. apply (Hnd2 _ Hin).
    apply list_elem_of_here. }
  pose proof Hw as (_ & Hok & _). rewrite Forall_lookup in Hok.
  destruct (Hok _ _ Ht) as (_ & _ & H3 & _ & H5).
  assert (R : r_examTerminated (effectRender t) = false).
  { destruct (r_examTerminated (effectRender t)); [|done].
    destruct (H5 eq_refl). congruence. }
  assert (Hrel : consistent released /\ fresh id released
                 /\ localStorage released !! KEY = None).
  { split_and!.
    - by apply sstep_consistent.
    - split; [done|]. unfold released. rewrite sstep_ids by done.
      cbn. rewrite app_nil_r. apply Hfr.
    - unfold released. cbn [Session.sstep inTab].
      rewrite (rerenderTab_spec i t w Hw Ht). cbv zeta.
      rewrite T, R, L. cbn. apply lookup_delete_eq. }
  destruct Hrel as (Hw' & Hfr' & E').
  split_and!.
  - unfold early. cbn [Session.sstep wstep].
    destruct (openTab_spec id w Hw Hfr) as [[E ->]|(m & E & ->)]; cbn; auto.
    rewrite (H3 L) in E. done.
  - unfold early. cbn [Session.sstep wstep].
    destruct (openTab_spec id w Hw Hfr) as [[E ->]|(m & E & ->)]; cbn [tabs].
    + rewrite (H3 L) in E. done.
    + eexists. split; [apply last_snoc|]. split; [done|].
      apply lockedOut_terminated.
  - done.
  - unfold late. cbn [Session.sstep wstep].
    destruct (openTab_spec id released Hw' Hfr') as [[E ->]|(m & E & ->)];
      [|congruence].
    cbn. apply lookup_insert_eq.
  - unfold late. cbn [Session.sstep wstep].
    destruct (openTab_spec id released Hw' Hfr') as [[E ->]|(m & E & ->)];
      [|congruence].
    cbn [tabs]. eexists. split; [apply last_snoc|]. done.
Qed.

End WithIds.

(** *** Witnesses *)

(** Witness for [at_most_one_tab_is_active]: two tabs, then a focus event
    in the first. *)
Lemma at_most_one_tab_is_active_witness :
  localStorage
    (Session.srun pretty true
       [Browser (OpenTab "tab-a"); Browser (OpenTab "tab-b"); InTab 0 Focus]
       emptyWorld) !! KEY
  = Some "tab-a".
Proof.
  refine (proj2 (at_most_one_tab_is_active pretty true
            [Browser (OpenTab "tab-a"); Browser (OpenTab "tab-b");
             InTab 0 Focus] _ 0 0 _ _ eq_refl eq_refl eq_refl eq_refl)).
  split; [apply (bool_decide_unpack _); vm_compute; exact I|].
  by repeat constructor.
Defined.

(** Witness for [marker_names_the_listening_tab]: one tab, terminated by a
    blur and not yet re-rendered. *)
Lemma marker_names_the_listening_tab_witness :
  let w := Session.srun pretty true
             [Browser (OpenTab "tab-a"); InTab 0 Blur] emptyWorld in
  localStorage w !! KEY = Some "tab-a"
  <-> exists i t,
        tabs w !! i = Some t /\ instanceId t = "tab-a"
        /\ storageListener t = true
        /\ r_examTerminated (effectRender t) = false.
Proof.
  refine (marker_names_the_listening_tab pretty true
            [Browser (OpenTab "tab-a"); InTab 0 Blur] _ "tab-a").
  split; [apply (bool_decide_unpack _); vm_compute; exact I|].
  by repeat constructor.
Defined.

(** Witness for [tabs_do_not_reach_each_other]: the first tab when a
    second one opens. *)
Lemma tabs_do_not_reach_each_other_witness :
  let w := Session.srun pretty true [Browser (OpenTab "tab-a")] emptyWorld in
  tabs (Session.sstep pretty true (Browser (OpenTab "tab-b")) w) !! 0
  = tabs w !! 0.
Proof.
  refine (tabs_do_not_reach_each_other pretty true
            [Browser (OpenTab "tab-a")] (Browser (OpenTab "tab-b")) _ 0 _).
  - split; [apply (bool_decide_unpack _); vm_compute; exact I|].
    by repeat constructor.
  - discriminate.
Defined.

(** Witness for [marker_is_released_by_the_rerender]: the only tab is
    terminated by a blur and re-renders, then a second tab opens. *)
Lemma marker_is_released_by_the_rerender_witness :
  let w := Session.srun pretty true
             [Browser (OpenTab "tab-a"); InTab 0 Blur] emptyWorld in
  localStorage
    (Session.sstep pretty true (Browser (OpenTab "tab-b"))
       (Session.sstep pretty true (InTab 0 Rerender) w)) !! KEY
  = Some "tab-b".
Proof.
  refine (proj1 (proj2 (proj2 (proj2
            (marker_is_released_by_the_rerender pretty true
               [Browser (OpenTab "tab-a"); InTab 0 Blur] 0 _ "tab-b" _
               eq_refl eq_refl eq_refl))))).
  split; [apply (bool_decide_unpack _); vm_compute; exact I|].
  by repeat constructor.
Defined.

End SessionFacts.

(** * Further properties of the camera feed *)

Module CameraRunsFacts.
Import CameraFeed CameraRuns CameraFeedFacts.

(** *** Rules for triples *)

Lemma triple_bind {A B} P (m : M A) (k : A -> M B) Qm Q :
  triple P m Qm ->
  (forall v r, Qm (Return v) r -> Q (Return v) r) ->
  (forall a, triple (Qm (Next a)) (k a) Q) ->
  triple P (bind m k) Q.
Proof.
  intros Hm Hret Hk r Hr. specialize (Hm r Hr). unfold bind.
  destruct (m r) as [[v|a] r1]; cbn in *; [by apply Hret|].
  by apply Hk.
Qed.

Lemma triple_weaken {A} (P P' : Refs -> Prop) (m : M A) (Q Q' : Outcome A -> Refs -> Prop) :
  triple P' m Q' -> (forall r, P r -> P' r) -> (forall o r, Q' o r -> Q o r) ->
  triple P m Q.
Proof. intros H HP HQ r Hr. apply HQ, H, HP, Hr. Qed.

Lemma stage {A} (I : Refs -> Prop) (E : string -> Prop)
    (R : Refs -> Refs -> Prop) (m : M A) :
  respects R m -> emits_only E m -> never_stops m ->
  (forall r r', R r r' -> I r -> I r') ->
  triple I m (fun o r' => I r' /\ emitting E o).
Proof.
  intros HR HE HN HI r Hr. split; [by eapply HI; [apply HR|]|].
  destruct (m r) as [[[v|]|a] r'] eqn:Em; cbn; [|by eapply HN|done].
  by eapply HE.
Qed.

(** *** No check but the analysis call ends a tick silently *)

Lemma never_stops_ret {A} (a : A) : never_stops (ret a).
Proof. by intros r r'. Qed.

Lemma never_stops_emit {A} ty msg : never_stops (@emit A ty msg).
Proof. by intros r r'. Qed.

Lemma never_stops_get : never_stops get.
Proof. by intros r r'. Qed.

Lemma never_stops_modify f : never_stops (modify f).
Proof. by intros r r'. Qed.

Lemma never_stops_bind {A B} (m : M A) (k : A -> M B) :
  never_stops m -> (forall a, never_stops (k a)) -> never_stops (bind m k).
Proof.
  intros Hm Hk r r' E. apply bind_Return in E as [E|(a & r1 & _ & E)].
  - by eapply Hm.
  - by eapply Hk.
Qed.

Lemma never_stops_when b m : never_stops m -> never_stops (when b m).
Proof. destruct b; [done|]. intros _. apply never_stops_ret. Qed.

Ltac nostop :=
  repeat first
    [ apply never_stops_bind; [|intros ?] | apply never_stops_when
    | apply never_stops_ret | apply never_stops_emit | apply never_stops_get
    | apply never_stops_modify
    | match goal with
      | |- never_stops (match ?x with _ => _ end) => destruct x
      | |- never_stops (if ?x then _ else _) => destruct x
      end ].

Lemma darkCheck_never_stops st : never_stops (darkCheck st).
Proof. unfold darkCheck. nostop. Qed.

Lemma localChecks_never_stops fd t ls : never_stops (localChecks fd t ls).
Proof.
  unfold localChecks, localOcclusionCheck, simpleOcclusionCheck. nostop.
Qed.

Lemma backgroundCheck_never_stops ls : never_stops (backgroundCheck ls).
Proof. unfold backgroundCheck. nostop. Qed.

Lemma immediateChecks_never_stops ls : never_stops (immediateChecks ls).
Proof. unfold immediateChecks. nostop. Qed.

Lemma startWindowCheck_never_stops ls v : never_stops (startWindowCheck ls v).
Proof. unfold startWindowCheck, blurCheck. nostop. Qed.

Lemma faceSwitchCheck_never_stops res : never_stops (faceSwitchCheck res).
Proof. unfold faceSwitchCheck. nostop. Qed.

Lemma noFaceCheck_never_stops ls : never_stops (noFaceCheck ls).
Proof. unfold noFaceCheck. nostop. Qed.

Lemma gazeCheck_never_stops ls : never_stops (gazeCheck ls).
Proof. unfold gazeCheck. nostop. Qed.

Lemma occlusionCheck_never_stops ls : never_stops (occlusionCheck ls).
Proof. unfold occlusionCheck. nostop. Qed.

(** *** Counters a check leaves alone *)

#[local] Instance keeps_preorder {A} (f : Refs -> A) : PreOrder (keeps f).
Proof.
  split; [by intros r | intros a b c; unfold keeps; congruence].
Qed.

Ltac notin :=
  rewrite ?elem_of_cons, ?elem_of_nil; intuition discriminate.

Lemma darkCheck_stage (I : Refs -> Prop) (E : string -> Prop)
    (R : Refs -> Refs -> Prop) `{!PreOrder R} st :
  (forall n r, R r (setDarkFrames n r)) ->
  (forall r r', R r r' -> I r -> I r') ->
  E "camera_covered" ->
  triple I (darkCheck st) (fun o r' => I r' /\ emitting E o).
Proof.
  intros HR HI HE.
  apply (stage I E R); [by apply darkCheck_respects|by apply darkCheck_emits
                        |apply darkCheck_never_stops|done].
Qed.

Lemma localChecks_respects (R : Refs -> Refs -> Prop) `{!PreOrder R} fd t ls :
  (forall n r, R r (setOcclusion n r)) -> respects R (localChecks fd t ls).
Proof.
  intros H. unfold localChecks. steps;
    [by apply localOcclusionCheck_respects
    |by apply simpleOcclusionCheck_respects].
Qed.

Lemma faceSwitchCheck_keeps {A} (f : Refs -> A) res :
  (forall o r, f (setInitialFaceId o r) = f r) ->
  (forall o r, f (setLastFaceId o r) = f r) ->
  respects (keeps f) (faceSwitchCheck res).
Proof.
  intros H1 H2 r. rewrite faceSwitchCheck_eq. unfold keeps.
  repeat case_match; cbn [snd]; by rewrite ?H2, ?H1.
Qed.

(** A check keeps a counter it does not assign. *)
Ltac keeps_counter :=
  lazymatch goal with
  | |- respects _ (localChecks _ _ _) =>
      apply localChecks_respects; [exact _|by intros ? []]
  | |- respects _ (faceSwitchCheck _) =>
      apply faceSwitchCheck_keeps; by intros ? []
  | |- respects _ (backgroundCheck _) =>
      apply backgroundCheck_respects; exact _
  | |- respects _ (immediateChecks _) =>
      apply immediateChecks_respects; exact _
  | |- respects _ (darkCheck _) =>
      apply darkCheck_respects; [exact _|by intros ? []]
  | |- respects _ (startWindowCheck _ _) =>
      apply startWindowCheck_respects;
        [exact _|by intros ? []|by intros ? []]
  | |- respects _ (noFaceCheck _) =>
      apply noFaceCheck_respects; [exact _|by intros ? []]
  | |- respects _ (gazeCheck _) =>
      apply gazeCheck_respects; [exact _|by intros ? []]
  | |- respects _ (occlusionCheck _) =>
      apply occlusionCheck_respects; [exact _|by intros ? []]
  | |- respects _ (blurCheck _) =>
      apply blurCheck_respects; [exact _|by intros ? []]
  end.

Lemma kept {A} (f : Refs -> A) c r r' : keeps f r r' -> f r = c -> f r' = c.
Proof. unfold keeps. congruence. Qed.

Lemma chain_end {A} (I : Refs -> Prop) (E : string -> Prop)
    (R : Refs -> Refs -> Prop) (m : M A) (Q : Outcome A -> Refs -> Prop) :
  respects R m -> emits_only E m -> never_stops m ->
  (forall r r', R r r' -> I r -> I r') ->
  (forall x r, I r -> E (v_type x) -> Q (Return (Some x)) r) ->
  (forall a r, I r -> Q (Next a) r) ->
  triple I m Q.
Proof.
  intros HR HE HN HI Hx Ha r Hr.
  destruct (stage I E R m HR HE HN HI r Hr) as [H1 H2].
  destruct (m r) as [[[x|]|a] r']; cbn in *; [by apply Hx|done|by apply Ha].
Qed.

Lemma chain {A B} (I : Refs -> Prop) (E : string -> Prop)
    (R : Refs -> Refs -> Prop) (m : M A) (k : A -> M B)
    (Q : Outcome B -> Refs -> Prop) :
  respects R m -> emits_only E m -> never_stops m ->
  (forall r r', R r r' -> I r -> I r') ->
  (forall x r, I r -> E (v_type x) -> Q (Return (Some x)) r) ->
  (forall a, triple I (k a) Q) ->
  triple I (bind m k) Q.
Proof.
  intros HR HE HN HI Hx Hk.
  eapply triple_bind; [by apply (stage I E R)| |intros a].
  - intros [x|] r [H1 H2]; [by apply Hx|done].
  - intros r [Hr _]. by apply Hk.
Qed.

Lemma everything_related {A} (m : M A) : respects (fun _ _ => True) m.
Proof. by intros r. Qed.

(** *** The local heuristics need the label check to have counted *)

Lemma localChecks_from_zero fd t ls :
  triple (fun r => consecutiveOcclusionRef r = 0) (localChecks fd t ls)
    (fun o _ => o = Next tt).
Proof.
  intros r Hr. unfold localChecks, bind, when.
  destruct (noEyesLabel ls); [|by destruct fd].
  destruct fd; cbn [andb negb].
  - unfold ret.
    destruct (t_detection t) as [| |x y w h [[e l]|]]; try done.
    + destruct (faceBoxLargeEnough (t_videoWidth t) (t_videoHeight t) x y w h)
        eqn:Hbox.
      * rewrite localOcclusionCheck_eq, Hr by done. cbv zeta.
        by destruct (muchDarker e l 0.45).
      * unfold localOcclusionCheck. by rewrite Hbox.
    + unfold localOcclusionCheck. by destruct (faceBoxLargeEnough _ _ _ _ _ _).
  - unfold ret. destruct (t_bands t) as [[top low]|]; [|done].
    rewrite simpleOcclusionCheck_eq, Hr. cbv zeta.
    by destruct (muchDarker top low 0.5).
Qed.

(** What the label checks give when started with the occlusion counter at
    zero: no violation of a local type, and the counter back at zero at the
    end of a tick without occlusion label. *)
Abbreviation fromZero ls :=
  (fun (o : Outcome unit) r' =>
     match o with
     | Return (Some v) => v_type v ∉ localOcclusionTypes
     | Return None => False
     | Next _ => hasOcclusion ls = false -> consecutiveOcclusionRef r' = 0
     end).

Lemma labelChecks_from_zero fd t ls res :
  triple (fun r => consecutiveOcclusionRef r = 0) (labelChecks fd t ls res)
    (fromZero ls).
Proof.
  unfold labelChecks.
  eapply triple_bind;
    [apply localChecks_from_zero|intros ? ? ?; discriminate|intros ?].
  eapply triple_weaken with (P' := fun _ => True);
    [|done|intros o r H; exact H].
  assert (Hx : forall x (r : Refs),
             True -> v_type x ∉ localOcclusionTypes ->
             fromZero ls (Return (Some x)) r) by (by intros).
  apply (chain _ (fun ty => ty ∉ localOcclusionTypes) (fun _ _ => True));
    [done|apply backgroundCheck_emits; unfold localOcclusionTypes; notin
    |apply backgroundCheck_never_stops|done|done|intros _].
  apply (chain _ (fun ty => ty ∉ localOcclusionTypes) (fun _ _ => True));
    [done|apply immediateChecks_emits; unfold localOcclusionTypes; notin
    |apply immediateChecks_never_stops|done|done|intros _].
  apply (chain _ (fun ty => ty ∉ localOcclusionTypes) (fun _ _ => True));
    [done|apply startWindowCheck_emits; unfold localOcclusionTypes; notin
    |apply startWindowCheck_never_stops|done|done|intros _].
  apply (chain _ (fun ty => ty ∉ localOcclusionTypes) (fun _ _ => True));
    [done|apply faceSwitchCheck_emits; unfold localOcclusionTypes; notin
    |apply faceSwitchCheck_never_stops|done|done|intros _].
  apply (chain _ (fun ty => ty ∉ localOcclusionTypes) (fun _ _ => True));
    [done|apply noFaceCheck_emits; unfold localOcclusionTypes; notin
    |apply noFaceCheck_never_stops|done|done|intros _].
  apply (chain _ (fun ty => ty ∉ localOcclusionTypes) (fun _ _ => True));
    [done|apply gazeCheck_emits; unfold localOcclusionTypes; notin
    |apply gazeCheck_never_stops|done|done|intros _].
  intros r _. rewrite occlusionCheck_eq. fold (hasOcclusion ls). cbv zeta.
  unfold fires. cbn [fst snd].
  destruct (hasOcclusion ls); [|done].
  destruct (2 <=? _)%nat; cbn; [unfold localOcclusionTypes; notin|done].
Qed.

Lemma analysis_from_zero fd t :
  triple (fun r => consecutiveOcclusionRef r = 0) (analysis fd t)
    (fun o r' =>
       match o with
       | Return (Some v) => v_type v ∉ localOcclusionTypes
       | _ => noOcclusionLabel t = true -> consecutiveOcclusionRef r' = 0
       end).
Proof.
  unfold analysis.
  apply (chain _ (fun ty => ty ∉ localOcclusionTypes) (keeps consecutiveOcclusionRef));
    [apply darkCheck_respects; [exact _|intros n r; by destruct r]
    |apply darkCheck_emits; unfold localOcclusionTypes; notin
    |apply darkCheck_never_stops
    |unfold keeps; intros r r' -> H; exact H
    |by intros
    |intros _].
  unfold noOcclusionLabel, tickLabels, analyze.
  destruct (t_analysis t) as [|result].
  - intros r Hr. cbn. by intros _.
  - intros r Hr. unfold bind, ret. cbn [fst snd].
    pose proof (labelChecks_from_zero fd t (labelsOf result)
                  (detailsOf result) r Hr) as H.
    destruct (labelChecks _ _ _ _ r) as [[[v|]|[]] r']; cbn in *; try done.
    rewrite negb_true_iff. exact H.
Qed.

Lemma tick_from_zero fd t r :
  consecutiveOcclusionRef r = 0 ->
  match (captureAndAnalyze fd t r).1 with
  | Some x => v_type x ∉ localOcclusionTypes
  | None =>
      noOcclusionLabel t = true ->
      consecutiveOcclusionRef (captureAndAnalyze fd t r).2 = 0
  end.
Proof.
  intros Hr. unfold captureAndAnalyze.
  destruct (negb (t_video t) || analysisInFlight r); [by intros _|].
  destruct ((t_videoWidth t =? 0)%Z || (t_videoHeight t =? 0)%Z);
    [by intros _|].
  pose proof (analysis_from_zero fd t (setInFlight true r) Hr) as H.
  destruct (analysis fd t (setInFlight true r)) as [[[v|]|[]] r'];
    cbn in *; [done|auto..].
Qed.

(** X12.  As long as no tick carried an occlusion label and none emitted a
    violation, the two local eye-occlusion heuristics do not fire, however
    many frames in a row show a dark eye band: the label check at the end of
    every tick puts the counter they share back to zero. *)
Theorem local_occlusion_heuristics_never_fire_first fd ts t :
  Forall (fun t => noOcclusionLabel t = true) ts ->
  Forall (fun v => v = None) (runTicks fd ts initialRefs).1 ->
  forall x,
    (captureAndAnalyze fd t (runTicks fd ts initialRefs).2).1 = Some x ->
    v_type x ∉ localOcclusionTypes.
Proof.
  intros Hts Hquiet x Hx.
  assert (Hrun : forall r,
             consecutiveOcclusionRef r = 0 ->
             Forall (fun v => v = None) (runTicks fd ts r).1 ->
             consecutiveOcclusionRef (runTicks fd ts r).2 = 0).
  { clear Hquiet Hx. induction Hts as [|t0 ts Ht0 Hts IH]; intros r Hr Hq;
      [done|].
    cbn [runTicks] in *.
    pose proof (tick_from_zero fd t0 r Hr) as H0.
    destruct (captureAndAnalyze fd t0 r) as [v r1].
    specialize (IH r1). destruct (runTicks fd ts r1) as [vs r2].
    cbn [fst snd] in *. apply Forall_cons in Hq as [-> Hq]. by apply IH; auto. }
  pose proof (tick_from_zero fd t _ (Hrun initialRefs eq_refl Hquiet)) as H.
  by rewrite Hx in H.
Qed.

(** *** The start window *)

(** Past the start window: the window counter stays and no start-window
    violation is emitted. *)
Lemma labelChecks_window_closed fd t ls res c :
  6 <= c ->
  triple (fun r => startFramesRef r = c) (labelChecks fd t ls res)
    (fun o r' =>
       startFramesRef r' = c
       /\ match o with
          | Return (Some x) => v_type x ∉ startWindowTypes
          | _ => True
          end).
Proof.
  intros Hc. unfold labelChecks.
  apply (chain _ (fun ty => ty ∉ startWindowTypes) (keeps startFramesRef));
    [keeps_counter|apply localChecks_emits; unfold startWindowTypes; notin
    |apply localChecks_never_stops|apply kept|done|intros _].
  apply (chain _ (fun ty => ty ∉ startWindowTypes) (keeps startFramesRef));
    [keeps_counter|apply backgroundCheck_emits; unfold startWindowTypes; notin
    |apply backgroundCheck_never_stops|apply kept|done|intros _].
  apply (chain _ (fun ty => ty ∉ startWindowTypes) (keeps startFramesRef));
    [keeps_counter|apply immediateChecks_emits; unfold startWindowTypes; notin
    |apply immediateChecks_never_stops|apply kept|done|intros _].
  eapply triple_bind with
    (Qm := fun o r' => o = Next tt /\ startFramesRef r' = c).
  { intros r Hr. rewrite startWindowCheck_eq.
    by replace (startFramesRef r <? 6)%nat with false
      by (symmetry; apply Nat.ltb_ge; lia). }
  { by intros v r [? _]. }
  intros ?.
  eapply triple_weaken with (P' := fun r => startFramesRef r = c);
    [|by intros r [_ ?]|intros o r H; exact H].
  apply (chain _ (fun ty => ty ∉ startWindowTypes) (keeps startFramesRef));
    [keeps_counter|apply faceSwitchCheck_emits; unfold startWindowTypes; notin
    |apply faceSwitchCheck_never_stops|apply kept|done|intros _].
  apply (chain _ (fun ty => ty ∉ startWindowTypes) (keeps startFramesRef));
    [keeps_counter|apply noFaceCheck_emits; unfold startWindowTypes; notin
    |apply noFaceCheck_never_stops|apply kept|done|intros _].
  apply (chain _ (fun ty => ty ∉ startWindowTypes) (keeps startFramesRef));
    [keeps_counter|apply gazeCheck_emits; unfold startWindowTypes; notin
    |apply gazeCheck_never_stops|apply kept|done|intros _].
  apply (chain_end _ (fun ty => ty ∉ startWindowTypes) (keeps startFramesRef));
    [keeps_counter|apply occlusionCheck_emits; unfold startWindowTypes; notin
    |apply occlusionCheck_never_stops|apply kept|done|done].
Qed.

(** Inside the start window: the window counter advances by at most one
    and [face_missing] is not emitted. *)
Lemma noFaceCheck_present ls :
  faceAbsent ls = false ->
  emits_only (fun ty => ty <> "face_missing") (noFaceCheck ls).
Proof.
  intros H. apply never_returns_emits. intros r. eexists _, _.
  by rewrite noFaceCheck_eq, H.
Qed.

Lemma labelChecks_window_open fd t ls res c :
  c < 6 ->
  triple (fun r => startFramesRef r = c) (labelChecks fd t ls res)
    (fun o r' =>
       (startFramesRef r' = c \/ startFramesRef r' = S c)
       /\ match o with
          | Return (Some x) => v_type x <> "face_missing"
          | _ => True
          end).
Proof.
  intros Hc. unfold labelChecks.
  apply (chain _ (fun ty => ty <> "face_missing") (keeps startFramesRef));
    [keeps_counter|by apply localChecks_emits
    |apply localChecks_never_stops|apply kept|by auto|intros _].
  apply (chain _ (fun ty => ty <> "face_missing") (keeps startFramesRef));
    [keeps_counter|by apply backgroundCheck_emits
    |apply backgroundCheck_never_stops|apply kept|by auto|intros _].
  apply (chain _ (fun ty => ty <> "face_missing") (keeps startFramesRef));
    [keeps_counter|by apply immediateChecks_emits
    |apply immediateChecks_never_stops|apply kept|by auto|intros _].
  eapply triple_bind with
    (Qm := fun o r' =>
             startFramesRef r' = S c
             /\ match o with
                | Return (Some x) => v_type x <> "face_missing"
                | Return None => False
                | Next _ => faceAbsent ls = false
                end).
  { intros r Hr. rewrite startWindowCheck_eq.
    replace (startFramesRef r <? 6)%nat with true
      by (symmetry; apply Nat.ltb_lt; lia).
    cbv zeta.
    destruct (includes "face_covered" ls || faceAbsent ls) eqn:Habs.
    - cbn. split; [lia|done].
    - apply orb_false_elim in Habs as [_ Habs].
      set (r1 := setStartFrames (startFramesRef r + 1) r).
      assert (H1 : startFramesRef r1 = S c) by (cbn; lia).
      assert (Hblur : triple (fun r => startFramesRef r = S c)
                        (blurCheck (t_varLap t))
                        (fun o r' => startFramesRef r' = S c
                                     /\ emitting (fun ty => ty <> "face_missing") o)).
      { apply (stage _ _ (keeps startFramesRef));
          [keeps_counter|by apply blurCheck_emits
          |unfold blurCheck; nostop|apply kept]. }
      destruct (Hblur r1 H1) as [H2 H3].
      split; [done|].
      by destruct (blurCheck (t_varLap t) r1) as [[[x|]|[]] r']. }
  { intros [x|] r [H1 H2]; [auto|done]. }
  intros ?. destruct (faceAbsent ls) eqn:Habs; [by intros r [_ ?]|].
  eapply triple_weaken with (P' := fun r => startFramesRef r = S c);
    [|by intros r [? _]|intros o r H; exact H].
  apply (chain _ (fun ty => ty <> "face_missing") (keeps startFramesRef));
    [keeps_counter|by apply faceSwitchCheck_emits
    |apply faceSwitchCheck_never_stops|apply kept|by auto|intros _].
  apply (chain _ (fun ty => ty <> "face_missing") (keeps startFramesRef));
    [keeps_counter|by apply noFaceCheck_present
    |apply noFaceCheck_never_stops|apply kept|by auto|intros _].
  apply (chain _ (fun ty => ty <> "face_missing") (keeps startFramesRef));
    [keeps_counter|by apply gazeCheck_emits
    |apply gazeCheck_never_stops|apply kept|by auto|intros _].
  apply (chain_end _ (fun ty => ty <> "face_missing") (keeps startFramesRef));
    [keeps_counter|by apply occlusionCheck_emits
    |apply occlusionCheck_never_stops|apply kept|by auto|by auto].
Qed.

Lemma analysis_window fd t c :
  triple (fun r => startFramesRef r = c) (analysis fd t)
    (fun o r' =>
       (startFramesRef r' = c \/ (c < 6 /\ startFramesRef r' = S c))
       /\ match o with
          | Return (Some x) =>
              (v_type x = "face_missing" -> 6 <= c)
              /\ (v_type x ∈ startWindowTypes -> c < 6)
          | _ => True
          end).
Proof.
  unfold analysis.
  apply (chain _ (fun ty => ty = "camera_covered") (keeps startFramesRef));
    [keeps_counter|by apply darkCheck_emits|apply darkCheck_never_stops
    |apply kept| |intros _].
  { intros x r Hr Hx. split; [by left|]. rewrite Hx.
    split; [done|unfold startWindowTypes; notin]. }
  unfold analyze. destruct (t_analysis t) as [|result].
  { intros r Hr. cbn. split; [by left|done]. }
  intros r Hr. unfold bind, ret. cbn [fst snd].
  destruct (decide (c < 6)) as [Hc|Hc].
  - pose proof (labelChecks_window_open fd t (labelsOf result)
                  (detailsOf result) c Hc r Hr) as [H1 H2].
    split; [destruct H1; auto|].
    by destruct (labelChecks _ _ _ _ r) as [[[x|]|[]] r'].
  - pose proof (labelChecks_window_closed fd t (labelsOf result)
                  (detailsOf result) c ltac:(lia) r Hr) as [H1 H2].
    split; [by left|].
    destruct (labelChecks _ _ _ _ r) as [[[x|]|[]] r']; cbn in *; try done.
    split; [lia|done].
Qed.

(** X13.  A tick moves the start-window counter by at most one step, and only
    while it is below 6, so the window never reopens.  The start-window
    violations are emitted only while the window is open and
    [face_missing] only once it is closed: while it is open, a missing face
    ends the tick as [face_not_visible_at_start] before the no-face counter
    is reached, and a present face puts that counter back to zero. *)
Theorem start_window_and_no_face_check_take_turns fd t r :
  let out := captureAndAnalyze fd t r in
  (startFramesRef out.2 = startFramesRef r
   \/ (startFramesRef r < 6 /\ startFramesRef out.2 = S (startFramesRef r)))
  /\ forall x,
       out.1 = Some x ->
       (v_type x = "face_missing" -> 6 <= startFramesRef r)
       /\ (v_type x ∈ startWindowTypes -> startFramesRef r < 6).
Proof.
  cbv zeta. unfold captureAndAnalyze.
  destruct (negb (t_video t) || analysisInFlight r); [by split; [left|]|].
  destruct ((t_videoWidth t =? 0)%Z || (t_videoHeight t =? 0)%Z);
    [by split; [left|]|].
  pose proof (analysis_window fd t (startFramesRef r) (setInFlight true r)
                eq_refl) as [H1 H2].
  destruct (analysis fd t (setInFlight true r)) as [[[x|]|[]] r'];
    cbn in *; (split; [done|]); try done.
  by intros ? [= <-].
Qed.

(** *** The covered camera *)

Lemma after_dark_check fd t r1 :
  let out := (lr <- analyze (t_analysis t) ;; labelChecks fd t lr.1 lr.2) r1 in
  consecutiveDarkFramesRef out.2 = consecutiveDarkFramesRef r1
  /\ forall x, out.1 = Return (Some x) -> v_type x <> "camera_covered".
Proof.
  cbv zeta. split; [apply afterDark_same_dark|].
  intros x Hx.
  destruct ((lr <- analyze (t_analysis t) ;; labelChecks fd t lr.1 lr.2) r1)
    as [o r'] eqn:E.
  cbn in Hx. subst o.
  eapply (afterDark_emits (fun ty => ty <> "camera_covered"));
    [unfold labelCheckTypes; by repeat constructor|exact E].
Qed.

(** X14.  [camera_covered] is emitted exactly by a tick that gets past the guards
    and reads a dark frame when the dark-frame counter already stands at 1
    or more.  The counter is touched only by such ticks: a tick stopped by a
    guard, or whose frame cannot be read, neither counts nor resets, so two
    dark frames separated by skipped ticks count as consecutive; whatever
    the analysis returns or throws later in the tick does not change it. *)
Theorem camera_covered_exactly_on_a_second_dark_frame fd t r :
  let out := captureAndAnalyze fd t r in
  ((exists x, out.1 = Some x /\ v_type x = "camera_covered")
   <-> counted t r = true /\ darkFrame t = true
       /\ 1 <= consecutiveDarkFramesRef r)
  /\ consecutiveDarkFramesRef out.2 =
     (if counted t r then
        match t_stats t with
        | Some f => if isDark f then consecutiveDarkFramesRef r + 1 else 0
        | None => consecutiveDarkFramesRef r
        end
      else consecutiveDarkFramesRef r).
Proof.
  cbv zeta. unfold counted.
  destruct (ready t) eqn:Hr; cbn [andb].
  2: { assert (E : (captureAndAnalyze fd t r).1 = None
                   /\ consecutiveDarkFramesRef (captureAndAnalyze fd t r).2
                      = consecutiveDarkFramesRef r).
       { unfold ready in Hr. unfold captureAndAnalyze.
         destruct (t_video t), (analysisInFlight r); cbn in *; try done.
         by destruct (t_videoWidth t =? 0)%Z, (t_videoHeight t =? 0)%Z. }
       destruct E as [E1 E2]. rewrite E1, E2.
       split; [|done]. split; [by intros (x & ? & _)|by intros (? & _)]. }
  destruct (analysisInFlight r) eqn:Hf; cbn [negb].
  { unfold captureAndAnalyze. rewrite Hf, orb_true_r. cbn.
    split; [|done]. split; [by intros (x & ? & _)|by intros (? & _)]. }
  rewrite tick_ready by done. cbn [fst snd].
  set (rest := lr <- analyze (t_analysis t) ;; labelChecks fd t lr.1 lr.2).
  set (r0 := setInFlight true r).
  assert (E : analysis fd t r0 =
              match t_stats t with
              | Some f =>
                  let n := if isDark f then consecutiveDarkFramesRef r + 1
                           else 0 in
                  if (2 <=? n)%nat
                  then (Return (Some covered), setDarkFrames n r0)
                  else rest (setDarkFrames n r0)
              | None => rest r0
              end).
  { unfold analysis, bind at 1. destruct (t_stats t) as [f|]; [|done].
    rewrite darkCheck_eq. cbv zeta. unfold fires.
    change (consecutiveDarkFramesRef r0) with (consecutiveDarkFramesRef r).
    by destruct (2 <=? _)%nat. }
  rewrite E. clear E. unfold darkFrame.
  assert (Hrest : forall r1,
             consecutiveDarkFramesRef (setInFlight false (rest r1).2)
             = consecutiveDarkFramesRef r1
             /\ ~ exists x,
                   match (rest r1).1 with Return v => v | Next _ => None end
                   = Some x /\ v_type x = "camera_covered").
  { intros r1. destruct (after_dark_check fd t r1) as [H1 H2].
    cbv zeta in H1, H2. fold rest in H1, H2.
    destruct (rest r1) as [[v|[]] r']; cbn in *.
    - split; [by destruct r'|]. intros (x & -> & Hx).
      by destruct (H2 x eq_refl).
    - split; [by destruct r'|]. by intros (x & ? & _). }
  destruct (t_stats t) as [f|].
  - cbv zeta. destruct (isDark f) eqn:Hd.
    + destruct (Nat.leb_spec 2 (consecutiveDarkFramesRef r + 1)) as [Hn|Hn];
        cbn [fst snd].
      * split; [|done]. split; [intros _; split_and!; [done|done|lia]|].
        intros _. by exists covered.
      * destruct (Hrest (setDarkFrames (consecutiveDarkFramesRef r + 1) r0))
          as [H1 H2].
        split; [|exact H1]. split; [done|lia].
    + cbn [Nat.leb]. destruct (Hrest (setDarkFrames 0 r0)) as [H1 H2].
      split; [|exact H1]. split; [done|by intros (_ & ? & _)].
  - destruct (Hrest r0) as [H1 H2].
    split; [|exact H1]. split; [done|by intros (_ & ? & _)].
Qed.

(** *** One frame counted twice *)

#[local] Arguments darkCheck : simpl never.
#[local] Arguments backgroundCheck : simpl never.
#[local] Arguments immediateChecks : simpl never.
#[local] Arguments startWindowCheck : simpl never.
#[local] Arguments faceSwitchCheck : simpl never.
#[local] Arguments noFaceCheck : simpl never.
#[local] Arguments gazeCheck : simpl never.
#[local] Arguments occlusionCheck : simpl never.
#[local] Arguments seconds : simpl never.

Lemma localChecks_at_zero fd t ls r :
  consecutiveOcclusionRef r = 0 -> noEyesLabel ls = true ->
  localChecks fd t ls r =
  (Next tt, setOcclusion (if eyesDarker fd t then 1 else 0) r).
Proof.
  intros Hr Hno.
  assert (Hsame : setOcclusion 0 r = r) by (destruct r; cbn in *; by subst).
  unfold localChecks, eyesDarker, bind, when. rewrite Hno.
  destruct fd; cbn [andb negb].
  - unfold ret.
    destruct (t_detection t) as [| |x y w h [[e l]|]];
      try (by rewrite Hsame).
    + destruct (faceBoxLargeEnough (t_videoWidth t) (t_videoHeight t) x y w h)
        eqn:Hbox; cbn [andb].
      * rewrite localOcclusionCheck_eq, Hr by done. cbv zeta.
        by destruct (muchDarker e l 0.45).
      * unfold localOcclusionCheck. by rewrite Hbox, Hsame.
    + unfold localOcclusionCheck.
      by destruct (faceBoxLargeEnough _ _ _ _ _ _); rewrite Hsame.
  - unfold ret. destruct (t_bands t) as [[top low]|]; [|by rewrite Hsame].
    rewrite simpleOcclusionCheck_eq, Hr. cbv zeta.
    by destruct (muchDarker top low 0.5).
Qed.

Lemma onlyOcclusionFinding_cases ls :
  onlyOcclusionFinding ls = true ->
  (includes "background_motion" ls || includes "animated_background" ls
   || includes "virtual_background" ls = false)
  /\ includes "multiple_faces" ls = false
  /\ (includes "phone_detected" ls || includes "mobile_phone" ls = false)
  /\ (includes "gaze_away" ls || includes "looking_away" ls = false)
  /\ faceAbsent ls = false
  /\ noEyesLabel ls = true
  /\ hasOcclusion ls = true.
Proof.
  unfold onlyOcclusionFinding. rewrite !andb_true_iff, !negb_true_iff. tauto.
Qed.

(** X15.  The local heuristics and the label check count on the same counter, in
    the same tick.  Without a [FaceDetector] the band comparison runs (its
    ratio 0.5 is a power of two, so the rational comparison decides as the
    one on doubles does): a single frame on which it and the labels both
    find an occlusion, with the counter at zero before, is reported as two
    seconds of occlusion.  With or without a [FaceDetector], when the local
    comparison does not count the frame, the same labels leave the counter
    at 1 and nothing is emitted. *)
Theorem one_frame_can_count_as_two_seconds_of_occlusion t ls r :
  counted t r = true ->
  brightFrame t = true ->
  tickLabels t = Some ls ->
  onlyOcclusionFinding ls = true ->
  tickFaceId t = None ->
  6 <= startFramesRef r ->
  consecutiveOcclusionRef r = 0 ->
  (let out := captureAndAnalyze false t r in
   out.1 = (if eyesDarker false t then Some occluded else None)
   /\ consecutiveOcclusionRef out.2 = (if eyesDarker false t then 2 else 1))
  /\ (forall fd,
        eyesNotDarker fd t = true ->
        let out := captureAndAnalyze fd t r in
        out.1 = None /\ consecutiveOcclusionRef out.2 = 1).
Proof.
  intros Hc Hb Hls Hon Hid Hs Hocc.
  apply andb_prop in Hc as [Hr Hf]. apply negb_true_iff in Hf.
  apply onlyOcclusionFinding_cases in Hon
    as (Hbg & Hmf & Hph & Hgz & Habs & Hne & Hoc).
  assert (G : forall fd,
             let k := if eyesDarker fd t then 1 else 0 in
             analysis fd t (setInFlight true r) =
             (fires (2 <=? k + 1)%nat occluded,
              setOcclusion (k + 1)
                (setGazeAway 0
                   (setNoFace 0
                      (setOcclusion k
                         (darkCheck (t_stats t) (setInFlight true r)).2))))).
  { intros fd k. set (r0 := setInFlight true r).
    destruct (darkCheck_bright (t_stats t) r0 Hb)
      as (r1 & E1 & (_ & Hs1 & _ & _ & _ & _ & Ho1) & _).
    unfold tickLabels in Hls. unfold tickFaceId in Hid.
    destruct (t_analysis t) as [|result] eqn:Ea; [done|].
    injection Hls as Hls.
    assert (Ho1' : consecutiveOcclusionRef r1 = 0) by (by rewrite Ho1).
    unfold analysis, bind. rewrite E1, Ea. cbn. rewrite Hls.
    unfold labelChecks, bind. rewrite localChecks_at_zero by done. fold k.
    rewrite backgroundCheck_silent, immediateChecks_silent by done.
    rewrite startWindowCheck_eq.
    replace (startFramesRef (setOcclusion k r1) <? 6)%nat with false
      by (symmetry; apply Nat.ltb_ge; cbn; rewrite Hs1; by destruct r).
    rewrite faceSwitchCheck_eq, Hid, noFaceCheck_eq, Habs. cbn.
    rewrite gazeCheck_eq, Hgz. cbn.
    rewrite occlusionCheck_eq. fold (hasOcclusion ls). rewrite Hoc. done. }
  split.
  - cbv zeta. rewrite tick_ready by done. specialize (G false).
    cbv zeta in G. rewrite G. by destruct (eyesDarker false t).
  - intros fd Hnot. cbv zeta. rewrite tick_ready by done.
    specialize (G fd). cbv zeta in G. rewrite G.
    replace (eyesDarker fd t) with false; [done|].
    unfold eyesNotDarker in Hnot. unfold eyesDarker.
    destruct fd.
    + destruct (t_detection t) as [| |x y w h [[e l]|]]; try done.
      by apply negb_true_iff in Hnot.
    + destruct (t_bands t) as [[top low]|]; [|done].
      by apply negb_true_iff in Hnot.
Qed.

(** *** Labels that stop on a single frame *)

(** X16.  On a tick past the guards whose frame is not dark and whose local
    comparison finds nothing, a background label is reported before a
    second face, and a second face before a phone, on that very frame and
    whatever the counters hold; the tick ends there, so none of the label
    counters and neither identity reference is updated on it. *)
Theorem single_frame_labels_fire_in_source_order fd t ls r :
  counted t r = true ->
  brightFrame t = true ->
  eyesNotDarker fd t = true ->
  tickLabels t = Some ls ->
  backgroundLabel ls || includes "multiple_faces" ls || phoneLabel ls = true ->
  let out := captureAndAnalyze fd t r in
  out.1 = Some (if backgroundLabel ls then backgroundViolation
                else if includes "multiple_faces" ls then multipleFaces
                else phoneDetected)
  /\ consecutiveGazeAwayRef out.2 = consecutiveGazeAwayRef r
  /\ startFramesRef out.2 = startFramesRef r
  /\ consecutiveNoFaceRef out.2 = consecutiveNoFaceRef r
  /\ initialFaceIdRef out.2 = initialFaceIdRef r
  /\ lastFaceIdRef out.2 = lastFaceIdRef r.
Proof.
  intros Hc Hb Heyes Hls Hany.
  apply andb_prop in Hc as [Hr Hf]. apply negb_true_iff in Hf.
  cbv zeta. rewrite tick_ready by done.
  set (r0 := setInFlight true r).
  destruct (darkCheck_bright (t_stats t) r0 Hb)
    as (r1 & E1 & (Hg1 & Hs1 & Hn1 & _ & Hi1 & Hl1 & _) & _).
  unfold tickLabels in Hls.
  destruct (t_analysis t) as [|result] eqn:Ea; [done|]. injection Hls as Hls.
  destruct (local_checks_quiet fd t ls r1 Heyes)
    as (r2 & E2 & Hg2 & Hs2 & Hn2 & Hi2 & Hl2 & _).
  assert (E : analysis fd t r0 =
    (Return (Some (if backgroundLabel ls then backgroundViolation
                   else if includes "multiple_faces" ls then multipleFaces
                   else phoneDetected)), r2)).
  { unfold analysis, bind. rewrite E1, Ea. cbn. rewrite Hls.
    unfold labelChecks, bind. rewrite E2.
    unfold backgroundCheck, immediateChecks, bind, when.
    fold (backgroundLabel ls) (phoneLabel ls).
    destruct (backgroundLabel ls); [done|].
    destruct (includes "multiple_faces" ls); [done|].
    cbn in Hany. by rewrite Hany. }
  rewrite E. cbn.
  rewrite Hg2, Hs2, Hn2, Hi2, Hl2, Hg1, Hs1, Hn1, Hi1, Hl1.
  by destruct r.
Qed.

(** *** Five seconds means five frames *)

Lemma labelChecks_gaze fd t ls res c :
  triple (fun r => consecutiveGazeAwayRef r = c) (labelChecks fd t ls res)
    (fun o r' =>
       consecutiveGazeAwayRef r' <= c + (if gazeLabel ls then 1 else 0)
       /\ match o with
          | Return (Some x) =>
              v_type x = "gaze_away_prolonged" ->
              gazeLabel ls = true /\ 4 <= c
          | _ => True
          end).
Proof.
  unfold labelChecks.
  assert (Hx : forall x (r : Refs),
             consecutiveGazeAwayRef r = c ->
             v_type x <> "gaze_away_prolonged" ->
             consecutiveGazeAwayRef r <= c + (if gazeLabel ls then 1 else 0)
             /\ (v_type x = "gaze_away_prolonged" ->
                 gazeLabel ls = true /\ 4 <= c))
    by (intros x r -> ?; split; [lia|done]).
  apply (chain _ (fun ty => ty <> "gaze_away_prolonged")
           (keeps consecutiveGazeAwayRef));
    [keeps_counter|by apply localChecks_emits
    |apply localChecks_never_stops|apply kept|exact Hx|intros _].
  apply (chain _ (fun ty => ty <> "gaze_away_prolonged")
           (keeps consecutiveGazeAwayRef));
    [keeps_counter|by apply backgroundCheck_emits
    |apply backgroundCheck_never_stops|apply kept|exact Hx|intros _].
  apply (chain _ (fun ty => ty <> "gaze_away_prolonged")
           (keeps consecutiveGazeAwayRef));
    [keeps_counter|by apply immediateChecks_emits
    |apply immediateChecks_never_stops|apply kept|exact Hx|intros _].
  apply (chain _ (fun ty => ty <> "gaze_away_prolonged")
           (keeps consecutiveGazeAwayRef));
    [keeps_counter|by apply startWindowCheck_emits
    |apply startWindowCheck_never_stops|apply kept|exact Hx|intros _].
  apply (chain _ (fun ty => ty <> "gaze_away_prolonged")
           (keeps consecutiveGazeAwayRef));
    [keeps_counter|by apply faceSwitchCheck_emits
    |apply faceSwitchCheck_never_stops|apply kept|exact Hx|intros _].
  apply (chain _ (fun ty => ty <> "gaze_away_prolonged")
           (keeps consecutiveGazeAwayRef));
    [keeps_counter|by apply noFaceCheck_emits
    |apply noFaceCheck_never_stops|apply kept|exact Hx|intros _].
  set (n := if gazeLabel ls then c + 1 else 0).
  eapply triple_bind with
    (Qm := fun o r' =>
             consecutiveGazeAwayRef r' = n
             /\ match o with
                | Return (Some x) => 5 <= n
                | Return None => False
                | Next _ => True
                end).
  { intros r Hr. rewrite gazeCheck_eq. fold (gazeLabel ls). rewrite Hr.
    fold n. cbv zeta. unfold fires.
    destruct (Nat.leb_spec 5 n); cbn; by split. }
  { intros [x|] r [H1 H2]; [|done]. split.
    - rewrite H1. unfold n. destruct (gazeLabel ls); lia.
    - intros _. unfold n in H2. destruct (gazeLabel ls); [split; [done|lia]|lia]. }
  intros ?.
  eapply triple_weaken with (P' := fun r => consecutiveGazeAwayRef r = n);
    [|by intros r [? _]|intros o r H; exact H].
  apply (chain_end _ (fun ty => ty <> "gaze_away_prolonged")
           (keeps consecutiveGazeAwayRef));
    [keeps_counter|by apply occlusionCheck_emits
    |apply occlusionCheck_never_stops|apply kept| |].
  - intros x r -> Hx'. split; [unfold n; destruct (gazeLabel ls); lia|done].
  - intros ? r ->. split; [unfold n; destruct (gazeLabel ls); lia|done].
Qed.

Lemma labelChecks_no_face fd t ls res c :
  triple (fun r => consecutiveNoFaceRef r = c) (labelChecks fd t ls res)
    (fun o r' =>
       consecutiveNoFaceRef r' <= c + (if faceAbsent ls then 1 else 0)
       /\ match o with
          | Return (Some x) =>
              v_type x = "face_missing" -> faceAbsent ls = true /\ 4 <= c
          | _ => True
          end).
Proof.
  unfold labelChecks.
  assert (Hx : forall x (r : Refs),
             consecutiveNoFaceRef r = c ->
             v_type x <> "face_missing" ->
             consecutiveNoFaceRef r <= c + (if faceAbsent ls then 1 else 0)
             /\ (v_type x = "face_missing" -> faceAbsent ls = true /\ 4 <= c))
    by (intros x r -> ?; split; [lia|done]).
  apply (chain _ (fun ty => ty <> "face_missing")
           (keeps consecutiveNoFaceRef));
    [keeps_counter|by apply localChecks_emits
    |apply localChecks_never_stops|apply kept|exact Hx|intros _].
  apply (chain _ (fun ty => ty <> "face_missing")
           (keeps consecutiveNoFaceRef));
    [keeps_counter|by apply backgroundCheck_emits
    |apply backgroundCheck_never_stops|apply kept|exact Hx|intros _].
  apply (chain _ (fun ty => ty <> "face_missing")
           (keeps consecutiveNoFaceRef));
    [keeps_counter|by apply immediateChecks_emits
    |apply immediateChecks_never_stops|apply kept|exact Hx|intros _].
  apply (chain _ (fun ty => ty <> "face_missing")
           (keeps consecutiveNoFaceRef));
    [keeps_counter|by apply startWindowCheck_emits
    |apply startWindowCheck_never_stops|apply kept|exact Hx|intros _].
  apply (chain _ (fun ty => ty <> "face_missing")
           (keeps consecutiveNoFaceRef));
    [keeps_counter|by apply faceSwitchCheck_emits
    |apply faceSwitchCheck_never_stops|apply kept|exact Hx|intros _].
  set (n := if faceAbsent ls then c + 1 else 0).
  assert (Hn : n <= c + (if faceAbsent ls then 1 else 0))
    by (unfold n; destruct (faceAbsent ls); lia).
  eapply triple_bind with
    (Qm := fun o r' =>
             consecutiveNoFaceRef r' = n
             /\ match o with
                | Return (Some x) => 5 <= n
                | Return None => False
                | Next _ => True
                end).
  { intros r Hr. rewrite noFaceCheck_eq, Hr. fold n. cbv zeta. unfold fires.
    destruct (Nat.leb_spec 5 n); cbn; by split. }
  { intros [x|] r [H1 H2]; [|done]. split; [by rewrite H1|].
    intros _. unfold n in H2. destruct (faceAbsent ls); [split; [done|lia]|lia]. }
  intros ?.
  eapply triple_weaken with (P' := fun r => consecutiveNoFaceRef r = n);
    [|by intros r [? _]|intros o r H; exact H].
  assert (Hx' : forall x (r : Refs),
             consecutiveNoFaceRef r = n ->
             v_type x <> "face_missing" ->
             consecutiveNoFaceRef r <= c + (if faceAbsent ls then 1 else 0)
             /\ (v_type x = "face_missing" -> faceAbsent ls = true /\ 4 <= c))
    by (intros x r -> ?; split; [done|done]).
  apply (chain _ (fun ty => ty <> "face_missing")
           (keeps consecutiveNoFaceRef));
    [keeps_counter|by apply gazeCheck_emits
    |apply gazeCheck_never_stops|apply kept|exact Hx'|intros _].
  apply (chain_end _ (fun ty => ty <> "face_missing")
           (keeps consecutiveNoFaceRef));
    [keeps_counter|by apply occlusionCheck_emits
    |apply occlusionCheck_never_stops|apply kept|exact Hx'|].
  intros ? r ->. by split.
Qed.

Section Sustained.

(** A counter [f] of consecutive frames, the label test [label] that
    advances it and the type [ty] of the violation raised once it stands
    at 5. *)
Variable f : Refs -> nat.
Variable label : list string -> bool.
Variable tickHas : Tick -> bool.
Variable ty : string.

Hypothesis tickHas_eq :
  forall t,
    tickHas t = match tickLabels t with Some ls => label ls | None => false end.
Hypothesis f_dark : forall n r, f (setDarkFrames n r) = f r.
Hypothesis f_inFlight : forall b r, f (setInFlight b r) = f r.
Hypothesis ty_not_covered : ty <> "camera_covered".
Hypothesis labelChecks_f :
  forall fd t ls res c,
    triple (fun r => f r = c) (labelChecks fd t ls res)
      (fun o r' =>
         f r' <= c + (if label ls then 1 else 0)
         /\ match o with
            | Return (Some x) => v_type x = ty -> label ls = true /\ 4 <= c
            | _ => True
            end).

Lemma analysis_sustained fd t c :
  triple (fun r => f r = c) (analysis fd t)
    (fun o r' =>
       f r' <= c + (if tickHas t then 1 else 0)
       /\ match o with
          | Return (Some x) => v_type x = ty -> tickHas t = true /\ 4 <= c
          | _ => True
          end).
Proof.
  unfold analysis.
  apply (chain _ (fun ty' => ty' = "camera_covered") (keeps f));
    [apply darkCheck_respects; [exact _|intros n r; apply f_dark]
    |by apply darkCheck_emits|apply darkCheck_never_stops|apply kept
    | |intros _].
  { intros x r -> Hx. split; [lia|]. intros Hty. congruence. }
  rewrite tickHas_eq. unfold tickLabels, analyze.
  destruct (t_analysis t) as [|result].
  - intros r Hr. cbn. rewrite Hr. split; [lia|done].
  - intros r Hr. unfold bind, ret. cbn [fst snd].
    apply (labelChecks_f fd t (labelsOf result) (detailsOf result) c r Hr).
Qed.

Lemma tick_sustained fd t r :
  let out := captureAndAnalyze fd t r in
  f out.2 <= f r + (if tickHas t then 1 else 0)
  /\ forall x,
       out.1 = Some x -> v_type x = ty -> tickHas t = true /\ 4 <= f r.
Proof.
  cbv zeta. unfold captureAndAnalyze.
  destruct (negb (t_video t) || analysisInFlight r);
    [cbn [fst snd]; split; [destruct (tickHas t); lia|done]|].
  destruct ((t_videoWidth t =? 0)%Z || (t_videoHeight t =? 0)%Z);
    [cbn [fst snd]; rewrite !f_inFlight;
     split; [destruct (tickHas t); lia|done]|].
  destruct (analysis_sustained fd t (f r) (setInFlight true r)
              (f_inFlight true r)) as [H1 H2].
  destruct (analysis fd t (setInFlight true r)) as [[[x|]|[]] r'];
    cbn [fst snd] in *; rewrite f_inFlight; (split; [done|]); try done.
  by intros ? [= <-].
Qed.

Lemma run_sustained fd ts r :
  f (runTicks fd ts r).2 <= f r + countTicks tickHas ts.
Proof.
  revert r. induction ts as [|t ts IH]; intros r; [cbn; lia|].
  cbn [runTicks].
  destruct (tick_sustained fd t r) as [H1 _]. cbv zeta in H1.
  destruct (captureAndAnalyze fd t r) as [v r1].
  specialize (IH r1). destruct (runTicks fd ts r1) as [vs r2].
  cbn [fst snd] in *. unfold countTicks in *. cbn [List.filter].
  destruct (tickHas t); cbn [length]; lia.
Qed.

Lemma session_sustained fd ts t r x :
  f r = 0 ->
  (captureAndAnalyze fd t (runTicks fd ts r).2).1 = Some x ->
  v_type x = ty ->
  5 <= countTicks tickHas (ts ++ [t]).
Proof.
  intros Hr Hx Hty.
  destruct (tick_sustained fd t (runTicks fd ts r).2) as [_ H].
  destruct (H x Hx Hty) as [Ht Hc].
  pose proof (run_sustained fd ts r) as Hrun.
  unfold countTicks in *. rewrite List.filter_app, length_app.
  cbn [List.filter]. rewrite Ht. cbn [length]. lia.
Qed.

End Sustained.

(** X17.  The two violations for a state lasting five seconds are never raised
    on fewer than five frames showing it: when a tick of a session emits
    [gaze_away_prolonged], at least five ticks so far, this one included,
    carried a gaze-away label, and when it emits [face_missing], at least
    five ticks carried labels without a present face.  A single glitch
    frame cannot raise either. *)
Theorem sustained_violations_need_five_frames fd ts t x :
  (captureAndAnalyze fd t (runTicks fd ts initialRefs).2).1 = Some x ->
  (v_type x = "gaze_away_prolonged" ->
   gazeTick t = true /\ 5 <= countTicks gazeTick (ts ++ [t]))
  /\ (v_type x = "face_missing" ->
      absentTick t = true /\ 5 <= countTicks absentTick (ts ++ [t])).
Proof.
  intros Hx. split; intros Hty.
  - split.
    + by eapply (tick_sustained consecutiveGazeAwayRef gazeLabel gazeTick
                   "gaze_away_prolonged");
        [done|by intros ? []|by intros ? []|done|apply labelChecks_gaze
        |exact Hx|].
    + by eapply (session_sustained consecutiveGazeAwayRef gazeLabel gazeTick
                   "gaze_away_prolonged");
        [done|by intros ? []|by intros ? []|done|apply labelChecks_gaze
        | |exact Hx|].
  - split.
    + by eapply (tick_sustained consecutiveNoFaceRef faceAbsent absentTick
                   "face_missing");
        [done|by intros ? []|by intros ? []|done|apply labelChecks_no_face
        |exact Hx|].
    + by eapply (session_sustained consecutiveNoFaceRef faceAbsent absentTick
                   "face_missing");
        [done|by intros ? []|by intros ? []|done|apply labelChecks_no_face
        | |exact Hx|].
Qed.

(** *** Witnesses *)

(** Witness for [local_occlusion_heuristics_never_fire_first]: a first tick
    with the face present, then a tick without labels. *)
Lemma local_occlusion_heuristics_never_fire_first_witness :
  (captureAndAnalyze false (sampleTick brightStats (labelled []))
     (runTicks false [sampleTick brightStats (labelled ["face_present"])]
        initialRefs).2).1
  = Some notVisibleAtStart
  /\ v_type notVisibleAtStart ∉ localOcclusionTypes.
Proof.
  split; [vm_compute; reflexivity|].
  refine (local_occlusion_heuristics_never_fire_first false
            [sampleTick brightStats (labelled ["face_present"])]
            (sampleTick brightStats (labelled [])) _ _ notVisibleAtStart _).
  - by repeat constructor.
  - vm_compute. by repeat constructor.
  - vm_compute. reflexivity.
Defined.

(** Witness for [one_frame_can_count_as_two_seconds_of_occlusion]: a mask
    label on a frame whose upper band is much darker than the lower one. *)
Lemma one_frame_can_count_as_two_seconds_of_occlusion_witness :
  (captureAndAnalyze false
     (mkTick true 640 480 (Some brightStats)
        (labelled ["face_present"; "mask"]) NoFaces (Some (10, 100)%Q)
        (Some 200%Q))
     afterStartWindow).1
  = Some occluded.
Proof.
  refine (proj1 (proj1 (one_frame_can_count_as_two_seconds_of_occlusion
            (mkTick true 640 480 (Some brightStats)
               (labelled ["face_present"; "mask"]) NoFaces
               (Some (10, 100)%Q) (Some 200%Q))
            ["face_present"; "mask"] afterStartWindow _ _ _ _ _ _ _)));
    vm_compute; first [reflexivity | by repeat constructor].
Defined.

(** Witness for [single_frame_labels_fire_in_source_order]: a second face
    and a phone on the first frame. *)
Lemma single_frame_labels_fire_in_source_order_witness :
  (captureAndAnalyze false
     (sampleTick brightStats
        (labelled ["face_present"; "multiple_faces"; "phone_detected"]))
     initialRefs).1
  = Some multipleFaces.
Proof.
  refine (proj1 (single_frame_labels_fire_in_source_order false
            (sampleTick brightStats
               (labelled ["face_present"; "multiple_faces"; "phone_detected"]))
            ["face_present"; "multiple_faces"; "phone_detected"]
            initialRefs _ _ _ _ _));
    vm_compute; reflexivity.
Defined.

(** Witness for [sustained_violations_need_five_frames]: five ticks in a
    row with a gaze-away label. *)
Lemma sustained_violations_need_five_frames_witness :
  5 <= countTicks gazeTick
         (replicate 4
            (sampleTick brightStats (labelled ["face_present"; "gaze_away"]))
          ++ [sampleTick brightStats (labelled ["face_present"; "gaze_away"])]).
Proof.
  refine (proj2 (proj1 (sustained_violations_need_five_frames false
            (replicate 4
               (sampleTick brightStats
                  (labelled ["face_present"; "gaze_away"])))
            (sampleTick brightStats (labelled ["face_present"; "gaze_away"]))
            gazeAway _) eq_refl)).
  vm_compute. reflexivity.
Defined.

End CameraRunsFacts.

(** * Invariants of the exam page *)

Module ExamInvariants.
Import Exam.

#[local] Arguments Exam.addAlert : simpl never.
#[local] Arguments Exam.terminateExam : simpl never.

Section WithIds.

Variable genId : nat -> string.

Abbreviation addAlert := (addAlert genId).
Abbreviation terminateExam := (terminateExam genId).
Abbreviation step := (step genId).
Abbreviation run := (run genId).

(** *** A rule for invariants of the page state *)

Section Invariant.

Variable I : State -> Prop.

Hypothesis I_addAlert : forall a s, I s -> I (addAlert a s).
Hypothesis I_terminateExam :
  forall rd reason s, I s -> I (terminateExam rd reason s).
Hypothesis I_setTabSwitches : forall n s, I s -> I (setTabSwitches n s).
Hypothesis I_setCameraStatus : forall c s, I s -> I (setCameraStatus c s).
Hypothesis I_setMicStatus : forall m s, I s -> I (setMicStatus m s).
Hypothesis I_countdownTick : forall s, I s -> I (countdownTick s).
Hypothesis I_expire :
  forall i d id s,
    timers s !! i = Some (d, ExpireAlert id) -> I s ->
    I (setAlerts (filter (fun a => alert_id a ≠ Some id))
         (setTimers (delete i (timers s)) s)).
Hypothesis I_dequeue_blur :
  forall i d s,
    timers s !! i = Some (d, DispatchBlur) -> I s ->
    I (setTimers (delete i (timers s)) s).

Lemma step_invariant ev p : I (state p) -> I (state (step ev p)).
Proof.
  intros Hp.
  destruct ev as [h| | |f|e| | | | | | |c m|ty msg|i|]; cbn [Exam.step state];
    unfold handleVisibilityChange, handleFocus, handleBlur,
      handleFullscreenChange, handleKeyDown, handleContextMenu, handleCopy,
      handleCut, handlePaste, handleBeforeUnload, onStatusChange, onViolation;
    repeat match goal with
           | |- context [if ?b then _ else _] => destruct b
           end;
    auto 10.
  unfold fireTimer.
  destruct (timers (state p) !! i) as [[d [id|]]|] eqn:E; [| |done].
  - cbn. by eapply I_expire.
  - cbn. unfold handleBlur. eauto.
Qed.

Lemma run_invariant evs p : I (state p) -> I (state (run evs p)).
Proof.
  intros Hp. induction evs as [|ev evs IH] using rev_ind; [done|].
  rewrite ExamFacts.run_snoc. by apply step_invariant.
Qed.

End Invariant.

(** *** Displayed alerts expire *)

Lemma expires_more_timers s s' a :
  timers s `prefix_of` timers s' -> expires s a -> expires s' a.
Proof.
  intros [k Hk] (id & d & Hid & Hin). exists id, d. split; [done|].
  rewrite Hk. apply elem_of_app. by left.
Qed.

Lemma elem_of_delete_other {A} (l : list A) i j x :
  l !! j = Some x -> j <> i -> x ∈ delete i l.
Proof.
  intros Hj Hne. destruct (decide (j < i)).
  - eapply list_elem_of_lookup_2. by rewrite list_lookup_delete_lt.
  - eapply (list_elem_of_lookup_2 _ (pred j)).
    rewrite list_lookup_delete_ge by lia.
    by replace (S (pred j)) with j by lia.
Qed.

Lemma addAlert_expiring a s :
  Forall (expires s) (alerts s) ->
  Forall (expires (addAlert a s)) (alerts (addAlert a s)).
Proof.
  intros H. rewrite ExamFacts.addAlert_alerts. apply Forall_app. split.
  - eapply Forall_impl; [exact H|]. intros b.
    apply expires_more_timers, ExamFacts.addAlert_timers_prefix.
  - apply Forall_singleton. exists (genId (nextId s)), 5000.
    split; [done|]. rewrite ExamFacts.addAlert_timers.
    apply elem_of_app. right. apply list_elem_of_here.
Qed.

Lemma terminateExam_expiring rd reason s :
  Forall (expires s) (alerts s) ->
  Forall (expires (terminateExam rd reason s))
    (alerts (terminateExam rd reason s)).
Proof.
  intros H. destruct (r_examTerminated rd) eqn:E.
  - by rewrite ExamFacts.terminateExam_skips.
  - unfold Exam.terminateExam. rewrite E.
    by apply (addAlert_expiring _ (setExamTerminated true s)).
Qed.

(** X18.  Whatever happened since the page was mounted, every alert on display
    carries an identifier whose expiry timeout is still pending: no alert
    stays on display for good. *)
Theorem every_displayed_alert_expires evs :
  let s := state (run evs mount) in
  Forall (expires s) (alerts s).
Proof.
  cbv zeta.
  apply (run_invariant (fun s => Forall (expires s) (alerts s))); try done.
  - apply addAlert_expiring.
  - apply terminateExam_expiring.
  - intros s H. unfold countdownTick. by destruct (timeLeft s <=? 1)%Z.
  - intros i d id s Hi H. cbn.
    apply Forall_forall. intros a Ha.
    apply list_elem_of_filter in Ha as [Hne Ha].
    rewrite Forall_forall in H. destruct (H a Ha) as (id' & d' & Hid & Hin).
    exists id', d'. split; [done|]. cbn.
    apply list_elem_of_lookup in Hin as [j Hj].
    eapply elem_of_delete_other; [exact Hj|].
    intros ->. rewrite Hi in Hj. congruence.
  - intros i d s Hi H. cbn.
    eapply Forall_impl; [exact H|]. intros a (id' & d' & Hid & Hin).
    exists id', d'. split; [done|]. cbn.
    apply list_elem_of_lookup in Hin as [j Hj].
    eapply elem_of_delete_other; [exact Hj|].
    intros ->. rewrite Hi in Hj. congruence.
Qed.

End WithIds.
End ExamInvariants.

(** * Properties of the whole exam page *)

Module MountedFacts.

Import Exam MultiTab Mounted.

#[local] Arguments Exam.addAlert : simpl never.
#[local] Arguments Exam.terminateExam : simpl never.

Section WithIds.

Variable genId : nat -> string.
Variable broadcastChannel : bool.

Abbreviation addAlert := (addAlert genId).
Abbreviation terminateExam := (terminateExam genId).
Abbreviation step := (step genId).
Abbreviation pstep := (pstep genId broadcastChannel).
Abbreviation prun := (prun genId broadcastChannel).
Abbreviation mountPage := (mountPage genId broadcastChannel).
Abbreviation rerenderPage := (rerenderPage genId broadcastChannel).

Lemma prun_snoc evs ev m : prun (evs ++ [ev]) m = pstep ev (prun evs m).
Proof. unfold Mounted.prun. by rewrite foldl_app. Qed.

(** *** What the multi-instance effect does to the page *)

Lemma multiTabEffect_page rd t ls :
  let out := multiTabEffect genId broadcastChannel rd t ls in
  instanceId out.1.1 = instanceId t
  /\ listeners (page out.1.1) = listeners (page t)
  /\ effectRender out.1.1 = rd
  /\ (state (page out.1.1) = state (page t)
      \/ r_examTerminated rd = false
         /\ lockFree (instanceId t) ls = false
         /\ state (page out.1.1)
            = terminateExam rd "Multiple exam tabs detected (storage lock)"
                (state (page t))).
Proof.
  cbv zeta. unfold multiTabEffect, lockFree.
  destruct (r_examTerminated rd) eqn:Hrd; [by split_and!; try left|].
  destruct (truthy_ref (ls !! KEY)
            && negb (bool_decide (ls !! KEY = Some (instanceId t)))) eqn:E;
    cbn; split_and!; try done; [by right|by left].
Qed.

Lemma multiTabCleanup_page t ls :
  let out := multiTabCleanup t ls in
  instanceId out.1.1 = instanceId t
  /\ page out.1.1 = page t
  /\ effectRender out.1.1 = effectRender t.
Proof.
  cbv zeta. unfold multiTabCleanup.
  destruct (storageListener t); [|done].
  by destruct (bool_decide _).
Qed.

(** A re-render leaves the state of the page as it is, unless the effect
    runs again for a render that does not see the termination. *)
Lemma rerenderPage_state m :
  pageState (rerenderPage m) = pageState m
  \/ examTerminated (pageState m) = false
     /\ r_examTerminated (effectRender (tab m)) = true
     /\ pageState (rerenderPage m)
        = terminateExam (snapshot (pageState m))
            "Multiple exam tabs detected (storage lock)" (pageState m).
Proof.
  unfold Mounted.rerenderPage, pageState. cbn [listeners rerender effectRender].
  destruct (bool_decide _) eqn:E; [by left|].
  apply bool_decide_eq_false in E.
  set (t := mkTab _ _ _ _ _ _).
  pose proof (multiTabCleanup_page t (storage m)) as H1.
  destruct (multiTabCleanup t (storage m)) as [[t1 ls1] e1].
  cbn [fst] in H1. destruct H1 as (_ & Hp1 & _).
  pose proof (multiTabEffect_page (snapshot (state (page (tab m)))) t1 ls1)
    as H2.
  destruct (multiTabEffect _ _ _ t1 ls1) as [[t2 ls2] e2].
  cbn [fst tab] in *. destruct H2 as (_ & _ & _ & [H2|(Hrd & _ & H2)]).
  - left. by rewrite H2, Hp1.
  - right. rewrite H2, Hp1. cbn in Hrd, E |- *. split_and!; try done.
    rewrite Hrd in E. by destruct (r_examTerminated (effectRender (tab m))).
Qed.

(** *** A rule for invariants of the page state, for every event *)

Section Invariant.

Variable I : State -> Prop.

Hypothesis I_addAlert : forall a s, I s -> I (addAlert a s).
Hypothesis I_terminateExam :
  forall rd reason s, I s -> I (terminateExam rd reason s).
Hypothesis I_setTabSwitches : forall n s, I s -> I (setTabSwitches n s).
Hypothesis I_setCameraStatus : forall c s, I s -> I (setCameraStatus c s).
Hypothesis I_setMicStatus : forall m s, I s -> I (setMicStatus m s).
Hypothesis I_countdownTick : forall s, I s -> I (countdownTick s).
Hypothesis I_expire :
  forall i d id s,
    timers s !! i = Some (d, ExpireAlert id) -> I s ->
    I (setAlerts (filter (fun a => alert_id a ≠ Some id))
         (setTimers (delete i (timers s)) s)).
Hypothesis I_dequeue_blur :
  forall i d s,
    timers s !! i = Some (d, DispatchBlur) -> I s ->
    I (setTimers (delete i (timers s)) s).
Hypothesis I_handleSubmit : forall c s, I s -> I (handleSubmit c s).
Hypothesis I_dismissAlert : forall k s, I s -> I (dismissAlert k s).
Hypothesis I_window_alert :
  forall s,
    I s ->
    I (window_alert
         "Camera and microphone access is required for exam monitoring." s).

Lemma pstep_invariant ev m : I (pageState m) -> I (pageState (pstep ev m)).
Proof.
  intros Hm. destruct ev as [ev|c|k|o| | |e| |msg]; cbn [Mounted.pstep].
  - assert (Hstep : I (state (step ev (page (tab m)))))
      by (by apply ExamInvariants.step_invariant).
    destruct ev; try exact Hstep.
    destruct (rerenderPage_state m) as [->|(_ & _ & ->)]; auto.
  - by apply I_handleSubmit.
  - by apply I_dismissAlert.
  - destruct o; cbn; auto.
  - unfold pageState. cbn. unfold cameraAccessFailed, onStatusChange. cbn.
    apply I_window_alert. auto.
  - unfold announcePresence. by destruct (presencePending _).
  - unfold pageState, onStorage. cbn.
    destruct (storageListener _); [|done]. destruct (_ && _); [|done].
    cbn. auto.
  - done.
  - unfold pageState, onMessage. cbn.
    destruct (channelOpen _); [|done]. destruct (_ && _); [|done].
    cbn. auto.
Qed.

Lemma prun_invariant evs m : I (pageState m) -> I (pageState (prun evs m)).
Proof.
  intros Hm. induction evs as [|ev evs IH] using rev_ind; [done|].
  rewrite prun_snoc. by apply pstep_invariant.
Qed.

Lemma mountPage_invariant name id ls :
  I (if negb (truthy_ref name) then router_push "/" initialState
     else initialState) ->
  I (pageState (mountPage name id ls)).
Proof.
  intros H. unfold Mounted.mountPage, pageState.
  set (t0 := mkTab _ _ _ _ _ _).
  pose proof (multiTabEffect_page firstRender t0 ls) as H1.
  destruct (multiTabEffect _ _ _ t0 ls) as [[t1 ls1] e1].
  cbn [fst tab] in *. destruct H1 as (_ & _ & _ & [->| (_ & _ & ->)]); auto.
Qed.

End Invariant.

(** *** Terminations are announced, navigations accounted for *)

Lemma accounted_same name s s' :
  examTerminated s' = examTerminated s ->
  navigations s' = navigations s ->
  dialogs s' = dialogs s ->
  accounted name s -> accounted name s'.
Proof. unfold accounted. by intros -> -> ->. Qed.

Lemma terminationDialog_reason reason :
  terminationDialog ("Exam terminated: " +:+ reason) = true.
Proof.
  unfold terminationDialog. simpl.
  repeat (destruct (ascii_dec _ _); [|done]). by destruct reason.
Qed.

Lemma submittedDialog_reason reason :
  submittedDialog ("Exam terminated: " +:+ reason) = false.
Proof. done. Qed.

(** A dialog that is neither that of a termination nor that of a
    submission changes nothing in the account. *)
Lemma accounted_other_dialog name d s :
  terminationDialog d = false -> submittedDialog d = false ->
  accounted name s -> accounted name (window_alert d s).
Proof.
  intros Ht Hs (H1 & H2 & H3). unfold accounted. cbn.
  rewrite !List.filter_app. cbn. rewrite Ht, Hs, !app_nil_r. done.
Qed.

Lemma terminateExam_accounted name rd reason s :
  accounted name s -> accounted name (terminateExam rd reason s).
Proof.
  intros (H1 & H2 & H3). destruct (r_examTerminated rd) eqn:E.
  - by rewrite ExamFacts.terminateExam_skips.
  - destruct (ExamFacts.terminateExam_runs genId rd reason s E)
      as (T & _ & D & N & _).
    unfold accounted. rewrite T, D, N.
    rewrite !List.filter_app, !length_app. cbn [List.filter].
    rewrite terminationDialog_reason, submittedDialog_reason.
    cbn [length]. split_and!.
    + split; [lia|done].
    + apply Forall_app. split; [done|by apply Forall_singleton].
    + lia.
Qed.

Lemma handleSubmit_accounted name c s :
  accounted name s -> accounted name (handleSubmit c s).
Proof.
  intros H. unfold handleSubmit, window_confirm.
  apply (accounted_other_dialog name
           "Are you sure you want to submit your exam? This action cannot be undone.")
    in H; [|done..].
  destruct c; [|done].
  set (s1 := window_alert _ s) in *. clearbody s1.
  destruct H as (H1 & H2 & H3). unfold accounted. cbn.
  rewrite !List.filter_app, !length_app. cbn. split_and!.
  - rewrite H1. lia.
  - apply Forall_app. split; [done|by apply Forall_singleton].
  - lia.
Qed.

Lemma dismissAlert_effects k s :
  examTerminated (dismissAlert k s) = examTerminated s
  /\ navigations (dismissAlert k s) = navigations s
  /\ dialogs (dismissAlert k s) = dialogs s
  /\ timers (dismissAlert k s) = timers s
  /\ alerts (dismissAlert k s) `sublist_of` alerts s.
Proof.
  unfold dismissAlert. destruct (alerts s !! k) as [a|]; [|done].
  destruct (truthy_ref (alert_id a)); cbn; split_and!; try done.
  - apply sublist_filter.
  - apply sublist_delete.
Qed.

Lemma initial_accounted name :
  accounted name
    (if negb (truthy_ref name) then router_push "/" initialState
     else initialState).
Proof.
  unfold accounted. destruct (truthy_ref name); cbn; split_and!;
    first [done | by apply Forall_singleton | split; [done|lia]].
Qed.

(** X19.  On every page reachable from its mounting, whatever the name in
    the address, the marker found and the events since: [examTerminated]
    is set exactly when a termination dialog was shown; the router is only
    ever sent to the start page; and it was sent there once for every
    termination dialog, once for every confirmed submission and once more
    if the name was missing.  So the session is never ended silently, and
    a navigation without termination is a submission or the redirect. *)
Theorem terminations_are_announced name id ls evs :
  let s := pageState (prun evs (mountPage name id ls)) in
  (examTerminated s = true
   <-> 0 < length (List.filter terminationDialog (dialogs s)))
  /\ Forall (fun path => path = "/") (navigations s)
  /\ length (navigations s)
     = length (List.filter terminationDialog (dialogs s))
       + length (List.filter submittedDialog (dialogs s))
       + (if truthy_ref name then 0 else 1).
Proof.
  cbv zeta. change (accounted name (pageState (prun evs (mountPage name id ls)))).
  apply (prun_invariant (accounted name)); try done.
  - intros a s. apply accounted_same.
    + apply ExamFacts.addAlert_examTerminated.
    + apply ExamFacts.addAlert_navigations.
    + apply ExamFacts.addAlert_dialogs.
  - intros rd reason s. apply terminateExam_accounted.
  - intros s H. unfold countdownTick.
    destruct (timeLeft s <=? 1)%Z; [|done].
    by apply (accounted_other_dialog name
                "Time's up! Your exam has been submitted.") in H.
  - intros c s. apply handleSubmit_accounted.
  - intros k s. destruct (dismissAlert_effects k s) as (H1 & H2 & H3 & _).
    by apply accounted_same.
  - intros s. by apply accounted_other_dialog.
  - apply (mountPage_invariant (accounted name)).
    + intros rd reason s. apply terminateExam_accounted.
    + apply initial_accounted.
Qed.

(** *** Sessions without violations *)

Lemma Forall_sublist {A} (P : A -> Prop) (l l' : list A) :
  l' `sublist_of` l -> Forall P l -> Forall P l'.
Proof.
  rewrite !Forall_forall. intros Hsub H x Hx.
  by eapply H, elem_of_sublist.
Qed.

Lemma calm_fewer_alerts s s' :
  examTerminated s' = examTerminated s ->
  navigations s' = navigations s ->
  dialogs s' = dialogs s ->
  timers s' = timers s ->
  alerts s' `sublist_of` alerts s ->
  calm s -> calm s'.
Proof.
  unfold calm, no_blur_queued.
  intros -> -> -> -> Hsub (H1 & H2 & H3 & H4 & H5).
  split_and!; try done. by eapply Forall_sublist.
Qed.

Lemma calm_benign_dialog d s :
  d ∈ benignDialogs -> calm s -> calm (window_alert d s).
Proof.
  intros Hd (H1 & H2 & H3 & H4 & H5). unfold calm. cbn.
  split_and!; try done. apply Forall_app. split; [done|].
  by apply Forall_singleton.
Qed.

Lemma addAlert_calm a s :
  includes (alert_type a) immediateStopTypes = false ->
  alert_type a <> "exam_terminated" ->
  calm s -> calm (addAlert a s).
Proof.
  intros Hstop Hty (H1 & H2 & H3 & H4 & H5).
  unfold calm, no_blur_queued in *.
  rewrite ExamFacts.addAlert_examTerminated, ExamFacts.addAlert_navigations,
    ExamFacts.addAlert_dialogs, ExamFacts.addAlert_alerts,
    ExamFacts.addAlert_timers, Hstop.
  split_and!; try done.
  - apply Forall_app. split; [done|]. by repeat constructor.
  - apply Forall_app. split; [done|]. by repeat constructor.
Qed.

Lemma onStatusChange_calm c m s :
  calm s -> calm (onStatusChange genId c m s).
Proof.
  intros H. unfold onStatusChange.
  assert (H1 : calm (setMicStatus m (setCameraStatus c s))) by exact H.
  destruct (String.eqb c "disconnected"), (String.eqb m "disconnected");
    repeat (apply addAlert_calm; [done|done|]); done.
Qed.

Lemma step_calm ev p :
  quietEvent ev = true -> calm (state p) -> calm (state (step ev p)).
Proof.
  intros Hq Hp.
  destruct ev as [h| | |f|e| | | | | | |c m|ty msg|i|]; try done.
  - by destruct h.
  - by apply addAlert_calm.
  - destruct f; [done|]. by apply addAlert_calm.
  - cbn in Hq. apply negb_true_iff in Hq. cbn.
    by rewrite ExamMore.handleKeyDown_other_key.
  - cbn. unfold countdownTick.
    destruct (timeLeft (state p) <=? 1)%Z; [|done].
    apply (calm_benign_dialog "Time's up! Your exam has been submitted.")
      in Hp; [done|]. apply list_elem_of_here.
  - by apply onStatusChange_calm.
  - cbn. unfold fireTimer.
    destruct (timers (state p) !! i) as [[d t]|] eqn:E; [|done].
    destruct Hp as (H1 & H2 & H3 & H4 & H5).
    unfold no_blur_queued in H5.
    destruct t as [id|].
    + unfold calm, no_blur_queued. cbn. split_and!; try done.
      * eapply Forall_sublist; [apply sublist_filter|done].
      * by apply Forall_delete.
    + exfalso. apply (proj1 (Forall_forall _ _) H5 (d, DispatchBlur)); [|done].
      by eapply list_elem_of_lookup_2.
Qed.

Lemma mountPage_quiet name id ls :
  truthy_ref name = true -> lockFree id ls = true ->
  quiet_so_far id (mountPage name id ls).
Proof.
  intros Hname Hfree. unfold Mounted.mountPage. rewrite Hname. cbn [negb].
  set (t0 := mkTab _ _ _ _ _ _).
  pose proof (multiTabEffect_page firstRender t0 ls) as H.
  destruct (multiTabEffect _ _ _ t0 ls) as [[t1 ls1] e1].
  cbn [fst] in H. destruct H as (Hid & _ & Heff & [Hs|(_ & Hlock & _)]).
  - unfold quiet_so_far, pageState. cbn [tab]. rewrite Hs, Hid, Heff.
    split_and!; try done. unfold calm, no_blur_queued. cbn. by split_and!.
  - cbn in Hlock. congruence.
Qed.

Lemma pstep_quiet id ev m :
  quietPageEvent id ev = true ->
  quiet_so_far id m -> quiet_so_far id (pstep ev m).
Proof.
  intros Hq (Hcalm & Hid & Heff).
  destruct ev as [ev|c|k|o| | |e| |msg]; cbn [Mounted.pstep quietPageEvent] in *.
  - assert (Hstep : quiet_so_far id
              (mkMounted
                 (mkTab (instanceId (tab m)) (step ev (page (tab m)))
                    (effectRender (tab m)) (storageListener (tab m))
                    (channelOpen (tab m)) (presencePending (tab m)))
                 (storage m))).
    { split_and!; try done. by apply step_calm. }
    destruct ev; try exact Hstep.
    unfold Mounted.rerenderPage. cbn [listeners rerender effectRender].
    rewrite bool_decide_eq_true_2; [done|].
    cbn. rewrite Heff. by destruct Hcalm as (? & _).
  - destruct c; [done|]. split_and!; try done.
    unfold pageState. cbn. unfold handleSubmit, window_confirm.
    apply calm_benign_dialog; [|done]. unfold benignDialogs.
    rewrite !elem_of_cons. tauto.
  - split_and!; try done. unfold pageState. cbn.
    destruct (dismissAlert_effects k (state (page (tab m))))
      as (H1 & H2 & H3 & H4 & H5).
    by apply (calm_fewer_alerts (state (page (tab m)))).
  - split_and!; try done. unfold pageState. cbn.
    destruct o; cbn; [by apply addAlert_calm|done|by apply addAlert_calm].
  - split_and!; try done. unfold pageState. cbn. unfold cameraAccessFailed.
    apply calm_benign_dialog; [|by apply onStatusChange_calm].
    unfold benignDialogs. rewrite !elem_of_cons. tauto.
  - unfold announcePresence. by destruct (presencePending _).
  - apply negb_true_iff in Hq. unfold namesAnother in Hq. rewrite <- Hid in Hq.
    unfold onStorage. rewrite Hq.
    by destruct (storageListener _).
  - done.
  - apply negb_true_iff in Hq. unfold announcesAnother in Hq.
    rewrite <- Hid in Hq. unfold onMessage. rewrite Hq.
    by destruct (channelOpen _).
Qed.

(** X2.  A page mounted with a name while the lock is free stays ACTIVE for
    as long as its events are quiet ones: focus, fullscreen changes and the
    fullscreen button, countdown ticks, device status changes and the
    failure to get the camera, alert expiries and dismissals, re-renders,
    visibility changes to visible, keys outside the prohibited ones, a
    Submit click that is not confirmed, and storage events and messages
    that name no other instance.  It never navigates, shows none but the
    countdown, camera and confirmation dialogs, never shows the termination
    alert and never queues a synthetic blur. *)
Theorem quiet_session_stays_active name id ls evs :
  truthy_ref name = true ->
  lockFree id ls = true ->
  forallb (quietPageEvent id) evs = true ->
  let s := pageState (prun evs (mountPage name id ls)) in
  examTerminated s = false
  /\ navigations s = []
  /\ Forall (fun d => d ∈ benignDialogs) (dialogs s)
  /\ Forall (fun a => alert_type a <> "exam_terminated") (alerts s)
  /\ Forall (fun tm => tm.2 <> DispatchBlur) (timers s).
Proof.
  intros Hname Hfree Hq. cbv zeta.
  enough (quiet_so_far id (prun evs (mountPage name id ls))) as [H _]
    by exact H.
  induction evs as [|ev evs IH] using rev_ind; [by apply mountPage_quiet|].
  rewrite forallb_app in Hq. apply andb_prop in Hq as [Hq1 Hq2].
  cbn in Hq2. rewrite andb_true_r in Hq2.
  rewrite prun_snoc. apply pstep_quiet; [done|by apply IH].
Qed.

(** *** Closures that saw the termination *)

(** Once the listeners are those of a render that saw [examTerminated]
    set, no event delivered to them or to a timeout navigates, and none
    but the countdown opens a dialog. *)
Lemma step_after_seen_termination ev p :
  r_examTerminated (listeners p) = true ->
  throughListeners ev = true ->
  navigations (state (step ev p)) = navigations (state p)
  /\ (ev <> Countdown -> dialogs (state (step ev p)) = dialogs (state p)).
Proof.
  intros Hrd Hev.
  assert (HT : forall reason s, terminateExam (listeners p) reason s = s)
    by (intros; by apply ExamFacts.terminateExam_skips).
  destruct ev as [h| | |f|e| | | | | | |c m|ty msg|i|]; try done; cbn;
    unfold handleVisibilityChange, handleFocus, handleBlur,
      handleFullscreenChange, handleKeyDown, handleContextMenu, handleCopy,
      handleCut, handlePaste, handleBeforeUnload, countdownTick,
      onStatusChange;
    rewrite ?HT;
    repeat match goal with
           | |- context [if ?b then _ else _] => destruct b
           end;
    rewrite ?HT; cbn;
    rewrite ?ExamFacts.addAlert_navigations, ?ExamFacts.addAlert_dialogs;
    cbn;
    rewrite ?ExamFacts.addAlert_navigations, ?ExamFacts.addAlert_dialogs;
    try done.
  unfold fireTimer.
  destruct (timers (state p) !! i) as [[d [id|]]|]; cbn; try done.
  unfold handleBlur. rewrite HT.
  by rewrite ExamFacts.addAlert_navigations, ExamFacts.addAlert_dialogs.
Qed.

Lemma onStatusChange_same_effects c m s :
  examTerminated (onStatusChange genId c m s) = examTerminated s
  /\ navigations (onStatusChange genId c m s) = navigations s
  /\ dialogs (onStatusChange genId c m s) = dialogs s.
Proof.
  unfold onStatusChange.
  destruct (String.eqb c "disconnected"), (String.eqb m "disconnected");
    rewrite ?ExamFacts.addAlert_examTerminated,
      ?ExamFacts.addAlert_navigations, ?ExamFacts.addAlert_dialogs; done.
Qed.

Lemma pstep_keeps_terminated ev m :
  examTerminated (pageState m) = true ->
  examTerminated (pageState (pstep ev m)) = true.
Proof.
  apply (pstep_invariant (fun s => examTerminated s = true)); try done.
  - intros a s. by rewrite ExamFacts.addAlert_examTerminated.
  - intros rd reason s. apply ExamFacts.terminateExam_keeps_terminated.
  - intros s H. unfold countdownTick. by destruct (timeLeft s <=? 1)%Z.
  - intros c s H. unfold handleSubmit. by destruct c.
  - intros k s H. by destruct (dismissAlert_effects k s) as (-> & _).
Qed.

Lemma multiTabEffect_flags rd t ls :
  r_examTerminated rd = true ->
  let out := multiTabEffect genId broadcastChannel rd t ls in
  storageListener out.1.1 = false /\ channelOpen out.1.1 = false.
Proof. intros H. unfold multiTabEffect. by rewrite H. Qed.

Lemma mountPage_in_step name id ls :
  effect_in_step (tab (mountPage name id ls)).
Proof.
  unfold Mounted.mountPage.
  set (t0 := mkTab _ _ _ _ _ _).
  pose proof (multiTabEffect_page firstRender t0 ls) as H.
  destruct (multiTabEffect _ _ _ t0 ls) as [[t1 ls1] e1].
  cbn [fst tab] in *. destruct H as (_ & Hl & He & _).
  unfold effect_in_step. by rewrite Hl, He.
Qed.

Lemma rerenderPage_in_step m :
  effect_in_step (tab m) -> effect_in_step (tab (rerenderPage m)).
Proof.
  intros (H1 & H2).
  pose proof (rerenderPage_state m) as Hstate.
  unfold Mounted.rerenderPage in *.
  cbn [listeners rerender effectRender] in *.
  destruct (bool_decide _) eqn:E.
  - apply bool_decide_eq_true in E. unfold effect_in_step. cbn.
    split; [done|]. intros Hs. split; [done|].
    apply H2. cbn in E. congruence.
  - set (t := mkTab _ _ _ _ _ _) in *.
    pose proof (multiTabCleanup_page t (storage m)) as Hc.
    destruct (multiTabCleanup t (storage m)) as [[t1 ls1] e1].
    cbn [fst] in Hc. destruct Hc as (_ & Hp1 & _).
    pose proof (multiTabEffect_page (snapshot (state (page (tab m)))) t1 ls1)
      as He.
    pose proof (multiTabEffect_flags (snapshot (state (page (tab m)))) t1 ls1)
      as Hf.
    destruct (multiTabEffect _ _ _ t1 ls1) as [[t2 ls2] e2].
    cbn [fst tab] in *. destruct He as (_ & Hl & Heff & Hst).
    unfold effect_in_step. rewrite Hl, Heff, Hp1. cbn.
    split; [done|]. intros Hs. destruct (Hf Hs) as [-> ->].
    split; [|done].
    destruct Hst as [->|(Hno & _)]; [by rewrite Hp1|].
    cbn in Hno. congruence.
Qed.

Lemma pstep_in_step ev m :
  effect_in_step (tab m) -> effect_in_step (tab (pstep ev m)).
Proof.
  intros H.
  assert (Hpage : forall m',
             listeners (page (tab m')) = listeners (page (tab m)) ->
             effectRender (tab m') = effectRender (tab m) ->
             storageListener (tab m') = storageListener (tab m) ->
             channelOpen (tab m') = channelOpen (tab m) ->
             (examTerminated (pageState m) = true ->
              examTerminated (pageState m') = true) ->
             effect_in_step (tab m')).
  { intros m' Hl He Hs Hc Ht. destruct H as (H1 & H2).
    unfold effect_in_step. rewrite Hl, He, Hs, Hc. split; [done|].
    intros Hx. destruct (H2 Hx) as (? & ? & ?). split_and!; try done.
    by apply Ht. }
  pose proof (pstep_keeps_terminated ev m) as Ht.
  destruct ev as [ev|c|k|o| | |e| |msg].
  - destruct (decide (ev = Rerender)) as [->|Hev];
      [by apply rerenderPage_in_step|].
    assert (E : tab (pstep (Listener ev) m)
                = mkTab (instanceId (tab m)) (step ev (page (tab m)))
                    (effectRender (tab m)) (storageListener (tab m))
                    (channelOpen (tab m)) (presencePending (tab m)))
      by (by destruct ev).
    apply Hpage; try done; rewrite E; try done.
    cbn [page]. by apply ExamFacts.step_listeners.
  - by apply Hpage.
  - by apply Hpage.
  - by apply Hpage.
  - by apply Hpage.
  - apply Hpage; try done; cbn [Mounted.pstep]; unfold announcePresence;
      by destruct (presencePending _).
  - apply Hpage; try done; cbn [Mounted.pstep tab]; unfold onStorage;
      (destruct (storageListener _) eqn:E; [|done]); by destruct (_ && _).
  - by apply Hpage.
  - apply Hpage; try done; cbn [Mounted.pstep tab]; unfold onMessage;
      (destruct (channelOpen _) eqn:E; [|done]); by destruct (_ && _).
Qed.

Lemma prun_in_step name id ls evs :
  effect_in_step (tab (prun evs (mountPage name id ls))).
Proof.
  induction evs as [|ev evs IH] using rev_ind; [apply mountPage_in_step|].
  rewrite prun_snoc. by apply pstep_in_step.
Qed.

(** X3.  On a page reachable from its mounting whose listeners are those of
    a render that saw [examTerminated] set, the router is sent away again
    by exactly two events, the violation callback of the camera feed,
    which keeps the closure of the first render, and a confirmed click on
    Submit; every other event leaves the navigations as they are: the
    listeners and timeouts return early, and the storage listener and the
    channel of the multi-instance effect are gone.  No dialog is opened
    but by those two, the countdown, the question of the Submit button and
    the failure to get the camera. *)
Theorem listeners_do_not_terminate_again name id ls evs ev :
  let m := prun evs (mountPage name id ls) in
  r_examTerminated (listeners (page (tab m))) = true ->
  let s := pageState m in
  let s' := pageState (pstep ev m) in
  navigations s'
  = navigations s ++ (if navigatesAfterTermination ev then ["/"] else [])
  /\ (opensDialogAfterTermination ev = false -> dialogs s' = dialogs s).
Proof.
  intros m Hseen s s'.
  destruct (prun_in_step name id ls evs) as (Heff & Hin).
  fold m in Heff, Hin. destruct (Hin Hseen) as (Hterm & Hsl & Hch).
  subst s s'. clearbody m. unfold pageState.
  destruct ev as [ev|c|k|o| | |e| |msg];
    cbn [Mounted.pstep navigatesAfterTermination opensDialogAfterTermination].
  - destruct (decide (ev = Rerender)) as [->|Hev].
    { rewrite app_nil_r.
      destruct (rerenderPage_state m) as [E|(E & _)];
        unfold pageState in E; [by rewrite E|congruence]. }
    assert (E : tab (pstep (Listener ev) m)
                = mkTab (instanceId (tab m)) (step ev (page (tab m)))
                    (effectRender (tab m)) (storageListener (tab m))
                    (channelOpen (tab m)) (presencePending (tab m)))
      by (by destruct ev).
    cbn [Mounted.pstep] in E. rewrite E. cbn [page]. clear E.
    destruct (throughListeners ev) eqn:Hthrough.
    + destruct (step_after_seen_termination ev (page (tab m)) Hseen Hthrough)
        as [Hn Hd].
      replace (match ev with CameraViolation _ _ => true | _ => false end)
        with false by (by destruct ev).
      rewrite app_nil_r. split; [done|].
      intros Hno. apply Hd. by intros ->.
    + destruct ev; try done. split; [|done]. cbn.
      unfold onViolation.
      destruct (ExamFacts.terminateExam_runs genId cameraCallbacks v_message
                  (addAlert (mkAlert v_type v_message (Some error) None)
                     (state (page (tab m)))) eq_refl)
        as (_ & _ & _ & -> & _).
      by rewrite ExamFacts.addAlert_navigations.
  - cbn. unfold handleSubmit. destruct c; cbn; [done|].
    by rewrite app_nil_r.
  - cbn. destruct (dismissAlert_effects k (state (page (tab m))))
      as (_ & -> & -> & _).
    by rewrite app_nil_r.
  - cbn. rewrite app_nil_r.
    destruct o; cbn;
      by rewrite ?ExamFacts.addAlert_navigations, ?ExamFacts.addAlert_dialogs.
  - rewrite app_nil_r. unfold cameraAccessFailed.
    cbn -[Exam.onStatusChange].
    by destruct (onStatusChange_same_effects "disconnected" "disconnected"
                   (state (page (tab m)))) as (_ & -> & _).
  - rewrite app_nil_r. unfold announcePresence.
    by destruct (presencePending _).
  - rewrite app_nil_r. cbn. unfold onStorage. by rewrite Hsl.
  - by rewrite app_nil_r.
  - rewrite app_nil_r. cbn. unfold onMessage. by rewrite Hch.
Qed.

End WithIds.

(** Witness for [quiet_session_stays_active]: focus, the fullscreen button,
    a fullscreen exit, a re-render, a tick, a dismissed alert, the camera
    refused, a Submit click taken back, the page's own marker reported and
    the expiry of an alert. *)
Lemma quiet_session_stays_active_witness :
  examTerminated
    (pageState
       (prun pretty true
          [Listener Focus; FullscreenClick Entered;
           Listener (FullscreenChange false); Listener Rerender;
           Listener Countdown; DismissClick 0; CameraAccessFailed;
           SubmitClick false; Storage (mkStorageEvent KEY (Some "tab-1"));
           Listener (Timeout 0)]
          (mountPage pretty true (Some "Ada") "tab-1" ∅)))
  = false.
Proof.
  refine (proj1 (quiet_session_stays_active pretty true (Some "Ada") "tab-1" ∅
                   [Listener Focus; FullscreenClick Entered;
                    Listener (FullscreenChange false); Listener Rerender;
                    Listener Countdown; DismissClick 0; CameraAccessFailed;
                    SubmitClick false;
                    Storage (mkStorageEvent KEY (Some "tab-1"));
                    Listener (Timeout 0)] _ _ _));
    vm_compute; reflexivity.
Defined.

(** Witness for [listeners_do_not_terminate_again]: after a blur and the
    re-render that follows it, a confirmed click on Submit sends the
    router away a second time. *)
Lemma listeners_do_not_terminate_again_witness :
  let m := prun pretty true [Listener Blur; Listener Rerender]
             (mountPage pretty true (Some "Ada") "tab-1" ∅) in
  navigations (pageState (pstep pretty true (SubmitClick true) m))
  = navigations (pageState m) ++ ["/"].
Proof.
  refine (proj1 (listeners_do_not_terminate_again pretty true (Some "Ada")
                   "tab-1" ∅ [Listener Blur; Listener Rerender]
                   (SubmitClick true) _)).
  vm_compute. reflexivity.
Defined.

End MountedFacts.


(** * Properties of the Python executor *)

Module PythonExecutorFacts.
Import PythonExecutor.

Section WithPyodide.

Variable Env : Type.
Variable loadPyodide : Loading Env.
Variable runPython : string -> Env -> option Thrown * Env.
Variable runCase :
  Z -> string -> TestCase -> Env -> (Thrown + option string) * Env.

Abbreviation runCases := (runCases Env runCase).
Abbreviation envBefore := (envBefore Env runCase).
Abbreviation initialize := (initialize Env loadPyodide runPython).
Abbreviation executePython :=
  (executePython Env loadPyodide runPython runCase).

Lemma envBefore_cons pid code tc tcs j env :
  envBefore pid code (tc :: tcs) (S j) env
  = envBefore pid code tcs j (runCase pid code tc env).2.
Proof. done. Qed.

Lemma runCases_reports pid code tcs i env :
  let out := runCases pid code i tcs env in
  length out.1 = length tcs
  /\ out.2 = envBefore pid code tcs (length tcs) env
  /\ forall j tc,
       tcs !! j = Some tc ->
       exists r,
         out.1 !! j = Some r
         /\ reports (i + j) tc
              (runCase pid code tc (envBefore pid code tcs j env)).1 r.
Proof.
  revert i env. induction tcs as [|tc0 tcs IH]; intros i env; [done|].
  cbv zeta. cbn [PythonExecutor.runCases length]. rewrite envBefore_cons.
  specialize (IH (S i) (runCase pid code tc0 env).2). cbv zeta in IH.
  destruct (runCase pid code tc0 env) as [out env1] eqn:E0.
  cbn [snd] in IH |- *.
  destruct (runCases pid code (S i) tcs env1) as [results env2].
  cbn [fst snd length] in *. destruct IH as (IHlen & IHenv & IH).
  split_and!; [by rewrite IHlen|done|].
  intros [|j] tc Hj; cbn in Hj.
  - injection Hj as <-. eexists. split; [reflexivity|].
    change (envBefore pid code (tc0 :: tcs) 0 env) with env. rewrite E0.
    rewrite Nat.add_0_r, Nat.add_1_r. unfold reports.
    destruct out as [e|[output|]]; cbn; [done| |done].
    split_and!; try done. apply String.eqb_eq.
  - destruct (IH j tc Hj) as (r & Hr & H). exists r. split; [done|].
    rewrite envBefore_cons, E0. cbn [snd].
    by replace (i + S j) with (S i + j) by lia.
Qed.


End WithPyodide.
End PythonExecutorFacts.
